(** * git-of-theseus: the analysis of [git_of_theseus/analyze.py]

    A shallow embedding of [analyze] and of the closures it defines
    ([entry_path_ok], [get_blob_entries], [get_file_histogram]), with the
    properties of the sampler, the file filter, the per-file histogram, the
    histogram cache and the accumulated series.

    What the program takes from libraries is kept abstract or given as data:
    - GitPython: a commit is a value holding its attributes, its parents and
      the entries of its tree; [repo.blame] and [commit.diff] are functions
      carried by the repository value;
    - [fnmatch.fnmatch], [datetime...strftime] and the Pygments catalog
      [default_filetypes] are section variables;
    - [os.path.split], [os.path.splitext] and GitPython's [blob.name] are the
      POSIX string functions of module [posixpath] below.
    The progress bar and the JSON writer are left out: the model returns the
    values that [dump_json] and [json.dump] serialise. *)

From Stdlib Require Import ZArith String Ascii List Lia.
From stdpp Require Import base option list strings pretty gmap fin_maps fin_sets sorting.

Set Warnings "-register-all".
Local Open Scope string_scope.
Local Open Scope list_scope.

(** ** Paths *)

Module posixpath.

(** [contains_sep p]: the path has a ['/']. *)
Fixpoint contains_sep (p : string) : bool :=
  match p with
  | EmptyString => false
  | String c r => Ascii.eqb c "/" || contains_sep r
  end.

(** [os.path.split(p)[-1]], [os.path.basename(p)]: what follows the last
    ['/'] of [p]. *)
Fixpoint basename (p : string) : string :=
  match p with
  | EmptyString => EmptyString
  | String _ r => if contains_sep p then basename r else p
  end.

Fixpoint last_dot_suffix (s : string) : option string :=
  match s with
  | EmptyString => None
  | String c r =>
      match last_dot_suffix r with
      | Some e => Some e
      | None => if Ascii.eqb c "." then Some s else None
      end
  end.

Fixpoint lstrip_dots (s : string) : string :=
  match s with
  | EmptyString => EmptyString
  | String c r => if Ascii.eqb c "." then lstrip_dots r else s
  end.

(** [os.path.splitext(p)[1]]: from the last dot of the base name on, the
    leading dots of the base name not counting. *)
Definition splitext_ext (p : string) : string :=
  default EmptyString (last_dot_suffix (lstrip_dots (basename p))).

End posixpath.

(** ** Histogram keys

    A key is a Python tuple [(key_type, key_item)]: the type is one of the
    strings ['cohort'], ['ext'], ['author'], ['filesize'], ['sha'], the item a
    string or, for ['filesize'], an integer. *)

Inductive value : Type :=
| VStr (s : string)
| VInt (n : Z).

Global Instance value_eq_dec : EqDecision value.
Proof. solve_decision. Defined.

Global Instance value_countable : Countable value.
Proof.
  refine (inj_countable'
            (fun v => match v with VStr s => inl s | VInt n => inr n end)
            (fun x => match x with inl s => VStr s | inr n => VInt n end) _).
  by intros [].
Defined.

Definition key : Type := string * value.

(** A histogram: key -> sum of LOCs. *)
Abbreviation hist := (gmap key nat).

(** ** The repository, as GitPython shows it *)

(** An entry of [commit.tree.traverse()]: [entry.type] is ['blob'], ['tree']
    or ['commit'] (a submodule). *)
Record Entry : Type := mkEntry {
  entry_type : string;
  entry_path : string;
  entry_size : Z
}.

(** [blob.name] is the base name of [blob.path]. *)
Definition entry_name (e : Entry) : string := posixpath.basename (entry_path e).

Inductive Commit : Type := mkCommit {
  hexsha : string;
  committed_date : Z;
  author_name : string;          (* commit.author.name *)
  parents : list Commit;
  tree : list Entry              (* commit.tree.traverse() *)
}.

(** A diff entry: [a_blob] and [b_blob] are a blob or [None]. *)
Record Diff : Type := mkDiff {
  a_blob : option Entry;
  b_blob : option Entry
}.

(** What a call can raise.  The bare [except:] of [get_file_histogram] catches
    everything but the [KeyboardInterrupt] that the clause before it
    re-raises. *)
Inductive exn : Type :=
| KeyboardInterrupt
| Fault (what : string).

Record Repo : Type := mkRepo {
  iter_commits : string -> list Commit;            (* repo.iter_commits(branch) *)
  head_commit : Commit;                            (* repo.head.commit *)
  blame : Commit -> string -> exn + list (Commit * list string);
                                                   (* repo.blame(commit, path) *)
  diff : Commit -> option Commit -> list Diff      (* commit.diff(last_commit) *)
}.

(** ** Effects: the memo of [entry_path_ok], the tracebacks, the interrupt *)

Record State : Type := mkState {
  ok_entry_paths : gmap string bool;
  stderr : list exn                    (* what traceback.print_exc() printed *)
}.

Inductive result (A : Type) : Type :=
| Ok (a : A) (s : State)
| Raise (e : exn).
Arguments Ok {A} a s.
Arguments Raise {A} e.

Definition M (A : Type) : Type := State -> result A.

Definition ret {A} (a : A) : M A := fun s => Ok a s.

Definition bind {A B} (m : M A) (k : A -> M B) : M B :=
  fun s => match m s with
           | Ok a s' => k a s'
           | Raise e => Raise e
           end.

Definition raise {A} (e : exn) : M A := fun _ => Raise e.

(** A call that returns or raises, and leaves the state as it is. *)
Definition lift {A} (r : exn + A) : M A :=
  fun s => match r with
           | inl e => Raise e
           | inr a => Ok a s
           end.

Notation "'let!' x ':=' m 'in' k" := (bind m (fun x => k))
  (at level 10, x pattern, m at level 200, k at level 200).

(** [for x in l: acc = body(acc, x)] *)
Fixpoint for_each {A B} (body : B -> A -> M B) (l : list A) (acc : B) : M B :=
  match l with
  | [] => ret acc
  | x :: l' => let! acc' := body acc x in for_each body l' acc'
  end.

Definition initial_state : State := mkState ∅ [].

Definition is_Ok {A} (r : result A) : bool :=
  match r with
  | Ok _ _ => true
  | Raise _ => false
  end.

(** The outcome is a return, with a value and a state that satisfy [P]. *)
Definition returned {A} (r : result A) (P : A -> State -> Prop) : Prop :=
  match r with
  | Ok a s => P a s
  | Raise _ => False
  end.

(** ** [analyze] *)

(** What the first loop of [analyze] builds (lines 46-57). *)
Record Listing : Type := mkListing {
  listed_cohort : gmap string string;      (* commit2cohort *)
  listed_timestamp : gmap string Z;        (* commit2timestamp *)
  listed_curves : gset key                 (* curves_set, so far *)
}.

(** The local variables of the last loop of [analyze] (lines 123-159);
    [histogram] is the one of the checkpoint just processed. *)
Record Loop : Type := mkLoop {
  curves : gmap key (list nat);
  ts : list Z;
  file_histograms : gmap string hist;
  last_commit : option Commit;
  commit_history : gmap value (list (Z * nat));
  histogram : hist
}.

(** What [analyze] hands to the writers: [dump_json] reads [curves_set],
    [curves] and [ts]; [survival.json] is [commit_history]. *)
Record Output : Type := mkOutput {
  out_curves_set : gset key;
  out_curves : gmap key (list nat);
  out_ts : list Z;
  out_commit_history : gmap value (list (Z * nat))
}.

(** [h[key] = h.get(key, 0) + n] *)
Definition add_count (h : hist) (k : key) (n : nat) : hist :=
  <[k := default 0 (h !! k) + n]> h.

(** The sum of the counts under the keys of one type. *)
Definition total (key_type : string) (h : hist) : nat :=
  map_fold (fun k n acc => if String.eqb k.1 key_type then n + acc else acc) 0 h.

Definition weight (key_type : string) (k : key) (n : nat) : nat :=
  if String.eqb k.1 key_type then n else 0.


(** ** Library functions and histories to run the model on *)

Module posix.

(** [fnmatch.fnmatch(name, pattern)] on POSIX, for patterns made of
    literal characters, [*] and [?]. *)
Fixpoint glob (pattern : string) : string -> bool :=
  match pattern with
  | EmptyString =>
      fun name => match name with EmptyString => true | _ => false end
  | String c pattern' =>
      if Ascii.eqb c "*" then
        fix star (name : string) : bool :=
          glob pattern' name
          || match name with
             | EmptyString => false
             | String _ name' => star name'
             end
      else
        fun name =>
          match name with
          | EmptyString => false
          | String d name' =>
              (Ascii.eqb c "?" || Ascii.eqb c d) && glob pattern' name'
          end
  end.

Definition fnmatch (name pattern : string) : bool := glob pattern name.

(** Some patterns of the Pygments catalog. *)
Definition filetypes : list string := ["*.py"; "*.c"; "*.js"].

(** The year of a timestamp, in UTC. *)
Definition year_of (t : Z) : Z :=
  let z := (t / 86400 + 719468)%Z in
  let era := (z / 146097)%Z in
  let doe := (z - era * 146097)%Z in
  let yoe := ((doe - doe / 1460 + doe / 36524 - doe / 146096) / 365)%Z in
  let doy := (doe - (365 * yoe + yoe / 4 - yoe / 100))%Z in
  let mp := ((5 * doy + 2) / 153)%Z in
  (yoe + era * 400 + (if (mp <? 10)%Z then 0 else 1))%Z.

(** [utcfromtimestamp(t).strftime(fm)] for the format ['%Y'] (any other
    format is taken as literal text). *)
Definition strftime (t : Z) (fm : string) : string :=
  if String.eqb fm "%Y" then pretty (year_of t) else fm.

(** [utcfromtimestamp(t).isoformat()]: [YYYY-MM-DDTHH:MM:SS]. *)
Definition pad2 (n : Z) : string :=
  if (n <? 10)%Z then String.append "0" (pretty n) else pretty n.

Definition pad4 (n : Z) : string :=
  if (n <? 10)%Z then String.append "000" (pretty n)
  else if (n <? 100)%Z then String.append "00" (pretty n)
  else if (n <? 1000)%Z then String.append "0" (pretty n)
  else pretty n.

Definition isoformat (t : Z) : string :=
  let z := (t / 86400 + 719468)%Z in
  let secs := (t mod 86400)%Z in
  let era := (z / 146097)%Z in
  let doe := (z - era * 146097)%Z in
  let yoe := ((doe - doe / 1460 + doe / 36524 - doe / 146096) / 365)%Z in
  let doy := (doe - (365 * yoe + yoe / 4 - yoe / 100))%Z in
  let mp := ((5 * doy + 2) / 153)%Z in
  let d := (doy - (153 * mp + 2) / 5 + 1)%Z in
  let m := (if (mp <? 10)%Z then mp + 3 else mp - 9)%Z in
  let y := (yoe + era * 400 + (if (m <=? 2)%Z then 1 else 0))%Z in
  String.concat ""
    [pad4 y; "-"; pad2 m; "-"; pad2 d; "T";
     pad2 (secs / 3600); ":"; pad2 (secs mod 3600 / 60); ":"; pad2 (secs mod 60)].

End posix.

Definition blob_entry (path : string) (size : Z) : Entry := mkEntry "blob" path size.
Definition tree_entry (path : string) : Entry := mkEntry "tree" path 0.

(** The sum of [f] over the keys of one type in a set of keys. *)
Definition key_sum (key_type : string) (f : key -> nat) (X : gset key) : nat :=
  set_fold (fun k acc => if String.eqb k.1 key_type then f k + acc else acc) 0 X.

(** The sums, checkpoint by checkpoint, of the series of one dimension: the
    column sums of [y] in the document of that dimension. *)
Definition series_totals (key_type : string) (out : Output) : list nat :=
  map (fun i =>
         key_sum key_type
                 (fun k => default 0 (default [] (out_curves out !! k) !! i))
                 (out_curves_set out))
      (seq 0 (length (out_ts out))).

(** ** The documents (lines 161-183)

    [sorted(...)] of the items of the keys of one type.  Python 3 raises
    [TypeError] when it has to order a string and an integer; the strings
    are ordered by code point, which is the order of their bytes. *)

Definition value_le (v w : value) : Prop :=
  match v, w with
  | VStr a, VStr b => String.leb a b = true
  | VInt m, VInt n => (m <= n)%Z
  | VInt _, VStr _ => True
  | VStr _, VInt _ => False
  end.

Global Instance value_le_dec : RelDecision value_le.
Proof. intros [a|m] [b|n]; cbn; apply _. Defined.

Definition is_str (v : value) : bool :=
  match v with
  | VStr _ => true
  | VInt _ => false
  end.

Definition comparable (l : list value) : bool :=
  forallb is_str l || forallb (fun v => negb (is_str v)) l.

Definition sorted (l : list value) : exn + list value :=
  if comparable l then inr (merge_sort value_le l) else inl (Fault "TypeError").

(** What [json.dump] gets in [dump_json]. *)
Record Document : Type := mkDocument {
  doc_y : list (list nat);
  doc_ts : list string;
  doc_labels : list value
}.

(** The five files that [analyze] writes. *)
Record Documents : Type := mkDocuments {
  cohorts_json : Document;
  exts_json : Document;
  authors_json : Document;
  filesizes_json : Document;
  survival_json : gmap value (list (Z * nat))
}.

(** ['%s' % v] *)
Definition str (v : value) : string :=
  match v with
  | VStr s => s
  | VInt n => pretty n
  end.

(** *** Three commits, each adding one line to [a.py] *)

Module three.

Definition t1 : Z := 1451606400.   (* 2016-01-01 *)
Definition t2 : Z := 1454284800.   (* 2016-02-01 *)
Definition t3 : Z := 1456790400.   (* 2016-03-01 *)

Definition c1 := mkCommit "c1" t1 "alice" [] [blob_entry "a.py" 6].
Definition c2 := mkCommit "c2" t2 "alice" [c1] [blob_entry "a.py" 12].
Definition c3 := mkCommit "c3" t3 "alice" [c2] [blob_entry "a.py" 18].

Definition blame (commit : Commit) (path : string)
  : exn + list (Commit * list string) :=
  if negb (String.eqb path "a.py") then inl (Fault "no such path")
  else if String.eqb (hexsha commit) "c1" then inr [(c1, ["x = 1"])]
  else if String.eqb (hexsha commit) "c2" then
    inr [(c1, ["x = 1"]); (c2, ["y = 2"])]
  else inr [(c1, ["x = 1"]); (c2, ["y = 2"]); (c3, ["z = 3"])].

(** [a.py] differs between any two of the trees, and between the tree of
    [c2] and the working tree. *)
Definition diff (commit : Commit) (other : option Commit) : list Diff :=
  [mkDiff (Some (blob_entry "a.py" 0)) (Some (blob_entry "a.py" 0))].

Definition repo : Repo := mkRepo (fun _ => [c3; c2; c1]) c3 blame diff.

End three.

(** *** A line taken out and put back between two checkpoints

    [a] adds [f.py], [b] changes its line, [c] puts the line of [a] back, so
    that [f.py] is the same blob in [a] and in [c]; blame at [c] gives the
    line to [c].  With an interval of two days the checkpoints are [a] and
    [c]. *)

Module reverted.

Definition day : Z := 86400.
Definition t0 : Z := 1451606400.

Definition r := mkCommit "r" (t0 - day) "alice" [] [].
Definition a := mkCommit "a" t0 "alice" [r] [blob_entry "f.py" 6].
Definition b := mkCommit "b" (t0 + 2 * day) "bob" [a] [blob_entry "f.py" 6].
Definition c := mkCommit "c" (t0 + 3 * day) "bob" [b] [blob_entry "f.py" 6].

Definition blame (commit : Commit) (path : string)
  : exn + list (Commit * list string) :=
  if negb (String.eqb path "f.py") then inl (Fault "no such path")
  else if String.eqb (hexsha commit) "a" then inr [(a, ["x = 1"])]
  else if String.eqb (hexsha commit) "b" then inr [(b, ["x = 2"])]
  else if String.eqb (hexsha commit) "c" then inr [(c, ["x = 1"])]
  else inl (Fault "no such path").

(** The trees of [a] and [c] are equal, and the working tree is the tree
    of [c]; [b] differs from both. *)
Definition diff (commit : Commit) (other : option Commit) : list Diff :=
  let same :=
    match other with
    | None => negb (String.eqb (hexsha commit) "b")
    | Some o =>
        negb (String.eqb (hexsha commit) "b") && negb (String.eqb (hexsha o) "b")
        || String.eqb (hexsha commit) (hexsha o)
    end in
  if same then []
  else [mkDiff (Some (blob_entry "f.py" 6)) (Some (blob_entry "f.py" 6))].

Definition repo : Repo := mkRepo (fun _ => [c; b; a; r]) c blame diff.

Definition interval : Z := 2 * day.

End reverted.

(** *** A file renamed into the catalog

    [a] adds [a.py] (one line) and [notes.txt] (two lines); [b] renames
    [notes.txt] to [notes.py].  Blame follows the renaming and gives the two
    lines of [notes.py] to [a]. *)

Module renamed.

Definition t0 : Z := 1451606400.

Definition r := mkCommit "r" (t0 - 86400) "alice" [] [].
Definition a :=
  mkCommit "a" t0 "alice" [r] [blob_entry "a.py" 6; blob_entry "notes.txt" 10].
Definition b :=
  mkCommit "b" (t0 + 86400) "bob" [a] [blob_entry "a.py" 6; blob_entry "notes.py" 10].

Definition blame (commit : Commit) (path : string)
  : exn + list (Commit * list string) :=
  if String.eqb path "a.py" then inr [(a, ["x = 1"])]
  else if String.eqb path "notes.txt" && String.eqb (hexsha commit) "a"
       || String.eqb path "notes.py" && String.eqb (hexsha commit) "b"
  then inr [(a, ["one"; "two"])]
  else inl (Fault "no such path").

Definition diff (commit : Commit) (other : option Commit) : list Diff :=
  if String.eqb (hexsha commit) "a"
  then [mkDiff (Some (blob_entry "notes.txt" 10)) (Some (blob_entry "notes.py" 10))]
  else if String.eqb (hexsha commit) "b" then
         match other with
         | Some _ =>
             [mkDiff (Some (blob_entry "notes.py" 10))
                     (Some (blob_entry "notes.txt" 10))]
         | None => []
         end
       else [].

Definition repo : Repo := mkRepo (fun _ => [b; a; r]) b blame diff.

End renamed.

(** *** The head ahead of the branch that is analyzed

    [master] is at [m]; the head is at [f], a commit of another branch on
    top of [m], which [repo.iter_commits('master')] does not list. *)

Module ahead.

Definition t0 : Z := 1451606400.

Definition r := mkCommit "r" (t0 - 86400) "alice" [] [].
Definition m := mkCommit "m" t0 "alice" [r] [blob_entry "a.py" 6].
Definition f := mkCommit "f" (t0 + 86400) "bob" [m] [blob_entry "a.py" 18].

Definition blame (commit : Commit) (path : string)
  : exn + list (Commit * list string) :=
  if negb (String.eqb path "a.py") then inl (Fault "no such path")
  else if String.eqb (hexsha commit) "m" then inr [(m, ["x = 1"])]
  else inr [(m, ["x = 1"]); (f, ["y = 2"; "z = 3"])].

Definition diff (commit : Commit) (other : option Commit) : list Diff :=
  match other with
  | Some _ => [mkDiff (Some (blob_entry "a.py" 0)) (Some (blob_entry "a.py" 0))]
  | None => []
  end.

Definition repo : Repo := mkRepo (fun _ => [m; r]) f blame diff.

End ahead.

(** *** Files that stay, a file in a directory, a file that blame rejects

    [c1] and [c2] each add a line to [a.py]; [b.py] and [lib/c.py] stay as
    the root has them; blame raises on [bad.py]. *)

Module steady.

Definition t0 : Z := 1451606400.

Definition entries (size_a : Z) : list Entry :=
  [blob_entry "a.py" size_a; blob_entry "b.py" 6; tree_entry "lib";
   blob_entry "lib/c.py" 8; blob_entry "bad.py" 3; blob_entry "README.md" 20].

Definition r := mkCommit "r" t0 "alice" [] (entries 6).
Definition c1 := mkCommit "c1" (t0 + 86400) "bob" [r] (entries 12).
Definition c2 := mkCommit "c2" (t0 + 2 * 86400) "bob" [c1] (entries 18).

Definition blame (commit : Commit) (path : string)
  : exn + list (Commit * list string) :=
  if String.eqb path "a.py" then
    if String.eqb (hexsha commit) "r" then inr [(r, ["x = 1"])]
    else if String.eqb (hexsha commit) "c1" then
      inr [(r, ["x = 1"]); (c1, ["y = 2"])]
    else inr [(r, ["x = 1"]); (c1, ["y = 2"]); (c2, ["z = 3"])]
  else if String.eqb path "b.py" then inr [(r, ["b = 0"])]
  else if String.eqb path "lib/c.py" then inr [(r, ["c = 0"; "d = 0"])]
  else if String.eqb path "bad.py" then inl (Fault "UnicodeDecodeError")
  else inl (Fault "no such path").

Definition diff (commit : Commit) (other : option Commit) : list Diff :=
  match other with
  | Some _ => [mkDiff (Some (blob_entry "a.py" 0)) (Some (blob_entry "a.py" 0))]
  | None => if String.eqb (hexsha commit) "c2" then []
            else [mkDiff (Some (blob_entry "a.py" 0)) (Some (blob_entry "a.py" 0))]
  end.

Definition repo : Repo := mkRepo (fun _ => [c2; c1; r]) c2 blame diff.

(** The number of lines of the files of a tree.  [bad.py] has one line,
    which [repo.blame] cannot decode. *)
Definition line_count (commit : Commit) (path : string) : nat :=
  if String.eqb path "a.py" then
    if String.eqb (hexsha commit) "r" then 1
    else if String.eqb (hexsha commit) "c1" then 2
    else 3
  else if String.eqb path "b.py" then 1
  else if String.eqb path "lib/c.py" then 2
  else if String.eqb path "bad.py" then 1
  else if String.eqb path "README.md" then 4
  else 0.

End steady.


(** *** A history of one commit *)

Module single.

Definition r := mkCommit "r" 1451606400 "alice" [] [blob_entry "a.py" 6].

Definition blame (commit : Commit) (path : string)
  : exn + list (Commit * list string) :=
  inr [(r, ["x = 1"])].

Definition repo : Repo := mkRepo (fun _ => [r]) r blame (fun _ _ => []).

End single.

(** *** A commit dated before its parent

    The clock of the committer of the head [h] was behind: [h] is dated
    fifty seconds before its parent [p]. *)

Module skewed.

Definition t0 : Z := 1451606400.

Definition r := mkCommit "r" (t0 - 86400) "alice" [] [blob_entry "a.py" 6].
Definition p := mkCommit "p" (t0 + 150) "alice" [r] [blob_entry "a.py" 12].
Definition h := mkCommit "h" (t0 + 100) "bob" [p] [blob_entry "a.py" 18].

Definition interval : Z := -60000.

Definition blame (commit : Commit) (path : string)
  : exn + list (Commit * list string) :=
  inr [(r, ["x = 1"])].

Definition repo : Repo := mkRepo (fun _ => [h; p; r]) h blame (fun _ _ => []).

End skewed.

Section analyze.

Set Default Proof Using "Type".

(** Library functions and data. *)
Variable fnmatch : string -> string -> bool.   (* fnmatch.fnmatch(name, pattern) *)
Variable default_filetypes : list string.      (* Pygments patterns, less the ignored ones *)
Variable strftime : Z -> string -> string.     (* utcfromtimestamp(d).strftime(fm) *)

(** The arguments of [analyze] ([outdir] only names the output files). *)
Variable repo : Repo.
Variable cohortfm : string.
Variable interval : Z.
Variable ignore only : list string.
Variable branch : string.
Variable all_filetypes : bool.

(** *** Listing all commits (lines 46-57) *)

Definition list_commit (l : Listing) (commit : Commit) : Listing :=
  let cohort := strftime (committed_date commit) cohortfm in
  mkListing
    (<[hexsha commit := cohort]> (listed_cohort l))
    (if Nat.eqb (length (parents commit)) 1
     then <[hexsha commit := committed_date commit]> (listed_timestamp l)
     else listed_timestamp l)
    ({[("author", VStr (author_name commit))]} ∪
       ({[("cohort", VStr cohort)]} ∪ listed_curves l)).

Definition listing : Listing :=
  foldl list_commit (mkListing ∅ ∅ ∅) (iter_commits repo branch).

Definition commit2cohort : gmap string string := listed_cohort listing.
Definition commit2timestamp : gmap string Z := listed_timestamp listing.

(** *** Backtracking the master branch (lines 59-70)

    The [while True] loop follows [commit.parents[0]]; a history is finite
    and acyclic, which the nesting of [Commit] expresses. *)

Fixpoint backtrack (commit : Commit) (last_date : option Z)
         (master_commits : list Commit) : list Commit :=
  match parents commit with
  | [] => master_commits
  | parent0 :: _ =>
      if match last_date with
         | None => true
         | Some d => (committed_date commit <? d - interval)%Z
         end
      then backtrack parent0 (Some (committed_date commit))
                     (master_commits ++ [commit])
      else backtrack parent0 last_date master_commits
  end.

Definition master_commits : list Commit :=
  backtrack (head_commit repo) None [].

(** *** [entry_path_ok] (lines 72-81) *)

(** The value stored for a path that is not in the memo yet. *)
Definition path_filter (path : string) : bool :=
  (all_filetypes
   || existsb (fun filetype => fnmatch (posixpath.basename path) filetype)
              default_filetypes)
  && forallb (fun pattern => fnmatch path pattern) only
  && negb (existsb (fun pattern => fnmatch path pattern) ignore).

Definition entry_path_ok (path : string) : M bool :=
  fun s =>
    match ok_entry_paths s !! path with
    | Some ok => Ok ok s
    | None =>
        let ok := path_filter path in
        Ok ok (mkState (<[path := ok]> (ok_entry_paths s)) (stderr s))
    end.

(** *** [get_blob_entries] (lines 83-86) *)

Definition get_blob_entries (commit : Commit) : M (list Entry) :=
  for_each
    (fun entries entry =>
       if String.eqb (entry_type entry) "blob" then
         let! ok := entry_path_ok (entry_path entry) in
         ret (if ok then entries ++ [entry] else entries)
       else ret entries)
    (tree commit) [].

(** *** Counting the entries, collecting the keys (lines 88-99) *)

Definition count_blob (curves_set : gset key) (blob : Entry) : gset key :=
  {[("filesize", VInt (entry_size blob))]} ∪
    ({[("ext", VStr (posixpath.splitext_ext (entry_path blob)))]} ∪ curves_set).

Definition count_entries (curves_set : gset key) : M (gset key) :=
  for_each
    (fun curves_set commit =>
       let! blobs := get_blob_entries commit in
       ret (foldl count_blob curves_set blobs))
    (reverse master_commits) curves_set.

(** *** [get_file_histogram] (lines 101-121)

    [repo.blame] returns the list of its hunks or raises; the loop over the
    hunks calls nothing else that can raise.  [KeyboardInterrupt] is raised
    again (line 118), any other exception is printed (line 120) and [h],
    still empty, is returned. *)

Definition blame_keys (path : string) (old_commit : Commit)
           (blobs : list Entry) : list key :=
  let cohort := default "MISSING" (commit2cohort !! hexsha old_commit) in
  let ext := posixpath.splitext_ext path in
  let size :=
    map entry_size
        (List.filter (fun blob => String.eqb (entry_name blob) path) blobs) in
  [("cohort", VStr cohort); ("ext", VStr ext);
   ("author", VStr (author_name old_commit));
   ("filesize", VInt (match size with s :: _ => s | [] => 0%Z end))]
  ++ (if bool_decide (is_Some (commit2timestamp !! hexsha old_commit))
      then [("sha", VStr (hexsha old_commit))]
      else []).

Definition blame_hunk (path : string) (h : hist)
           (hunk : Commit * list string) : M hist :=
  let '(old_commit, lines) := hunk in
  let! blobs := get_blob_entries old_commit in
  ret (foldl (fun h key => add_count h key (length lines)) h
             (blame_keys path old_commit blobs)).

Definition get_file_histogram (commit : Commit) (path : string) : M hist :=
  match blame repo commit path with
  | inr hunks => for_each (blame_hunk path) hunks ∅
  | inl KeyboardInterrupt => raise KeyboardInterrupt
  | inl e =>
      (* traceback.print_exc(); return h *)
      fun s => Ok ∅ (mkState (ok_entry_paths s) (stderr s ++ [e]))
  end.

(** *** Analyzing the commit history (lines 123-159) *)

Definition changed_paths (diffs : list Diff) : gset string :=
  foldl
    (fun changed_files d =>
       let changed_files :=
         match a_blob d with
         | Some b => {[entry_path b]} ∪ changed_files
         | None => changed_files
         end in
       match b_blob d with
       | Some b => {[entry_path b]} ∪ changed_files
       | None => changed_files
       end)
    ∅ diffs.

(** [for key, count in h.items(): histogram[key] = histogram.get(key, 0) + count] *)
Definition merge_file (h : hist) (histogram : hist) : hist :=
  map_fold (fun key count histogram => add_count histogram key count) histogram h.

Definition visit_blob (commit : Commit) (changed_files : gset string)
           (acc : gmap string hist * hist) (blob : Entry)
  : M (gmap string hist * hist) :=
  let '(file_histograms, histogram) := acc in
  let! file_histograms :=
    if bool_decide (entry_path blob ∈ changed_files)
       || bool_decide (file_histograms !! entry_path blob = None)
    then
      let! h := get_file_histogram commit (entry_path blob) in
      ret (<[entry_path blob := h]> file_histograms)
    else ret file_histograms in
  ret (file_histograms,
       merge_file (default ∅ (file_histograms !! entry_path blob)) histogram).

Definition record_survival (date : Z) (histogram : hist)
           (commit_history : gmap value (list (Z * nat)))
  : gmap value (list (Z * nat)) :=
  map_fold
    (fun key count commit_history =>
       if String.eqb key.1 "sha"
       then <[key.2 := default [] (commit_history !! key.2) ++ [(date, count)]]>
              commit_history
       else commit_history)
    commit_history histogram.

Definition record_curves (curves_set : gset key) (histogram : hist)
           (curves : gmap key (list nat)) : gmap key (list nat) :=
  set_fold
    (fun key curves =>
       <[key := default [] (curves !! key) ++ [default 0 (histogram !! key)]]>
         curves)
    curves curves_set.

Definition checkpoint (curves_set : gset key) (st : Loop) (commit : Commit)
  : M Loop :=
  let changed_files := changed_paths (diff repo commit (last_commit st)) in
  let! blobs := get_blob_entries commit in
  let! (file_histograms, histogram) :=
    for_each (visit_blob commit changed_files) blobs (file_histograms st, ∅) in
  ret {| curves := record_curves curves_set histogram (curves st);
         ts := ts st ++ [committed_date commit];
         file_histograms := file_histograms;
         last_commit := Some commit;
         commit_history :=
           record_survival (committed_date commit) histogram (commit_history st);
         histogram := histogram |}.

Definition initial_loop : Loop := mkLoop ∅ [] ∅ None ∅ ∅.

Definition analyze_loop (curves_set : gset key) (checkpoints : list Commit)
  : M Loop :=
  for_each (checkpoint curves_set) checkpoints initial_loop.

Definition analyze : M Output :=
  let! curves_set := count_entries (listed_curves listing) in
  let! st := analyze_loop curves_set (reverse master_commits) in
  ret (mkOutput curves_set (curves st) (ts st) (commit_history st)).

(** *** [dump_json] (lines 161-170) and the dumps (lines 172-183)

    The files are left out: [dump_json] returns what it hands to
    [json.dump], or raises what building that value raises. *)

Section dump.

Variable isoformat : Z -> string.   (* utcfromtimestamp(d).isoformat() *)

(** [sorted(k for t, k in curves_set if t == key_type)] *)
Definition key_items (curves_set : gset key) (key_type : string)
  : exn + list value :=
  sorted (map snd (List.filter (fun k : key => String.eqb k.1 key_type)
                               (elements curves_set))).

(** [[curves[(key_type, key_item)] for key_item in key_items]]: a key that
    [curves] does not have raises [KeyError]. *)
Fixpoint series_of (curves : gmap key (list nat)) (key_type : string)
         (key_items : list value) : exn + list (list nat) :=
  match key_items with
  | [] => inr []
  | key_item :: key_items' =>
      match curves !! (key_type, key_item) with
      | None => inl (Fault "KeyError")
      | Some series =>
          match series_of curves key_type key_items' with
          | inl e => inl e
          | inr y => inr (series :: y)
          end
      end
  end.

Definition dump_json (out : Output) (key_type : string)
           (label_fmt : value -> value) : M Document :=
  let! key_items := lift (key_items (out_curves_set out) key_type) in
  let! y := lift (series_of (out_curves out) key_type key_items) in
  ret (mkDocument y (map isoformat (out_ts out)) (map label_fmt key_items)).

(** [lambda c: 'Code added in %s' % c] *)
Definition code_added_in (c : value) : value :=
  VStr (String.append "Code added in " (str c)).

Definition dump_all (out : Output) : M Documents :=
  let! cohorts := dump_json out "cohort" code_added_in in
  let! exts := dump_json out "ext" id in
  let! authors := dump_json out "author" id in
  let! filesizes := dump_json out "filesize" id in
  ret (mkDocuments cohorts exts authors filesizes (out_commit_history out)).

(** [analyze], to its end. *)
Definition analyze_and_dump : M Documents :=
  let! out := analyze in
  dump_all out.

End dump.

(** ** Notions for the properties *)

(** What the memo holds is what [path_filter] computes. *)
Definition cache_ok (s : State) : Prop :=
  forall path ok, ok_entry_paths s !! path = Some ok -> ok = path_filter path.

(** [s'] differs from [s] by more memo entries only. *)
Definition memo_step (s s' : State) : Prop :=
  cache_ok s' /\ stderr s' = stderr s.

(** The blobs of a commit that pass the filter, in the order of the
    traversal: what [get_blob_entries] returns. *)
Definition tracked (commit : Commit) : list Entry :=
  List.filter
    (fun entry => String.eqb (entry_type entry) "blob"
                  && path_filter (entry_path entry))
    (tree commit).

(** The histogram after one more hunk, and the histogram of a whole blame:
    what [get_file_histogram] computes when [repo.blame] returns. *)
Definition hunk_counts (path : string) (h : hist) (hunk : Commit * list string)
  : hist :=
  foldl (fun h key => add_count h key (length hunk.2)) h
        (blame_keys path hunk.1 (tracked hunk.1)).

Definition file_histogram (path : string) (hunks : list (Commit * list string))
  : hist :=
  foldl (hunk_counts path) ∅ hunks.

(** The number of lines of a blame. *)
Definition hunk_lines (hunks : list (Commit * list string)) : nat :=
  list_sum (map (fun hunk => length hunk.2) hunks).

(** How often a key is among the keys of a hunk. *)
Definition occurrences (k : key) (keys : list key) : nat :=
  length (List.filter (fun k' => bool_decide (k' = k)) keys).

(** How many keys of a hunk have a given type. *)
Definition keys_of_type (key_type : string) (keys : list key) : nat :=
  length (List.filter (fun k => String.eqb k.1 key_type) keys).

(** The states that a run of [analyze] goes through: it starts with an
    empty memo, and the state changes where [entry_path_ok] stores a
    decision and where [get_file_histogram] prints a traceback. *)
Inductive run_state : State -> Prop :=
| run_initial : run_state initial_state
| run_entry_path_ok s path ok s' :
    run_state s -> entry_path_ok path s = Ok ok s' -> run_state s'
| run_print_exc s e :
    run_state s -> run_state (mkState (ok_entry_paths s) (stderr s ++ [e])).

(** The state after [traceback.print_exc()]. *)
Definition print_exc (e : exn) (s : State) : State :=
  mkState (ok_entry_paths s) (stderr s ++ [e]).

(** [commit2cohort.get(old_commit.hexsha, "MISSING")] *)
Definition cohort_label (old_commit : Commit) : string :=
  default "MISSING" (commit2cohort !! hexsha old_commit).

(** The lines of the hunks whose commit is not in [commit2cohort]. *)
Definition missing_lines (hunks : list (Commit * list string)) : nat :=
  list_sum (map (fun hunk =>
                   if bool_decide (commit2cohort !! hexsha hunk.1 = None)
                   then length hunk.2 else 0)
                hunks).

(** In a list of commits, oldest first: each commit is more than
    [interval] seconds before the next one. *)
Fixpoint spaced (l : list Commit) : Prop :=
  match l with
  | [] => True
  | a :: l' =>
      match l' with
      | [] => True
      | b :: _ => (committed_date a < committed_date b - interval)%Z
      end /\ spaced l'
  end.

(** [simulates m o]: from a state whose memo is right, [m] returns the value
    of [o] and leaves the memo right, or, when [o] is [None], is
    interrupted. *)
Definition simulates {A} (m : M A) (o : option A) : Prop :=
  forall s, cache_ok s ->
            match o with
            | Some a => exists s', m s = Ok a s' /\ cache_ok s'
            | None => m s = Raise KeyboardInterrupt
            end.

(** [for x in l: acc = body(acc, x)], to [option]. *)
Fixpoint fold_option {A B} (body : B -> A -> option B) (l : list A) (acc : B)
  : option B :=
  match l with
  | [] => Some acc
  | x :: l' => body acc x ≫= fold_option body l'
  end.

(** What [get_file_histogram] returns for a path at a commit. *)
Definition fresh_histogram (commit : Commit) (path : string) : option hist :=
  match blame repo commit path with
  | inr hunks => Some (file_histogram path hunks)
  | inl KeyboardInterrupt => None
  | inl (Fault _) => Some ∅
  end.

(** Is the histogram of the path computed anew? (line 148) *)
Definition recomputed (changed_files : gset string)
           (file_histograms : gmap string hist) (path : string) : bool :=
  bool_decide (path ∈ changed_files)
  || bool_decide (file_histograms !! path = None).

(** The body of the loop over the blobs, and the body of the loop over the
    checkpoints, with [tracked] for [get_blob_entries] and [fresh_histogram]
    for [get_file_histogram]. *)
Definition visit_pure (commit : Commit) (changed_files : gset string)
           (acc : gmap string hist * hist) (blob : Entry)
  : option (gmap string hist * hist) :=
  file_histograms ←
    (if recomputed changed_files acc.1 (entry_path blob)
     then h ← fresh_histogram commit (entry_path blob);
          Some (<[entry_path blob := h]> acc.1)
     else Some acc.1);
  Some (file_histograms,
        merge_file (default ∅ (file_histograms !! entry_path blob)) acc.2).

Definition checkpoint_pure (curves_set : gset key) (st : Loop) (commit : Commit)
  : option Loop :=
  acc ← fold_option
        (visit_pure commit (changed_paths (diff repo commit (last_commit st))))
        (tracked commit) (file_histograms st, ∅);
  Some {| curves := record_curves curves_set acc.2 (curves st);
          ts := ts st ++ [committed_date commit];
          file_histograms := acc.1;
          last_commit := Some commit;
          commit_history :=
            record_survival (committed_date commit) acc.2 (commit_history st);
          histogram := acc.2 |}.

Definition loop_pure (curves_set : gset key) (checkpoints : list Commit)
  : option Loop :=
  fold_option (checkpoint_pure curves_set) checkpoints initial_loop.

(** The histogram of a checkpoint is the sum of the histograms served for
    its blobs, one after the other. *)
Definition merge_all (served : list hist) (histogram : hist) : hist :=
  foldl (fun histogram h => merge_file h histogram) histogram served.

Definition paths_of (blobs : list Entry) : list string := map entry_path blobs.

(** [R] holds of every two checkpoints in a row. *)
Definition consecutive (R : Commit -> Commit -> Prop) (l : list Commit) : Prop :=
  forall pre prev cur post, l = pre ++ prev :: cur :: post -> R prev cur.

(** The changed files of a checkpoint (lines 135-140). *)
Definition changed_since (prev : option Commit) (cur : Commit) : gset string :=
  changed_paths (diff repo cur prev).

(** Between two checkpoints in a row, a path of the later one that the diff
    does not report was there at the earlier one, and what is good at the
    earlier one stays good. *)
Definition carried (Good : Commit -> string -> hist -> Prop)
           (prev cur : Commit) : Prop :=
  forall blob,
    blob ∈ tracked cur ->
    entry_path blob ∉ changed_since (Some prev) cur ->
    entry_path blob ∈ paths_of (tracked prev)
    /\ forall h, Good prev (entry_path blob) h -> Good cur (entry_path blob) h.

(** Between two checkpoints in a row, a path of the later one that the diff
    does not report was there at the earlier one and has the same blame at
    both: what [git] gives when no change to the file lies between the two
    checkpoints. *)
Definition blame_carried (prev cur : Commit) : Prop :=
  forall blob,
    blob ∈ tracked cur ->
    entry_path blob ∉ changed_since (Some prev) cur ->
    entry_path blob ∈ paths_of (tracked prev)
    /\ blame repo cur (entry_path blob) = blame repo prev (entry_path blob).

(** The lines that [repo.blame] gives for a path at a commit (none when it
    raises), and their sum over the tracked blobs of a checkpoint: the
    blamed lines, which are fewer than the lines of the files when
    [repo.blame] raises on one of them ([trackable_lines] below). *)
Definition blamed_lines (commit : Commit) (path : string) : nat :=
  match blame repo commit path with
  | inr hunks => hunk_lines hunks
  | inl _ => 0
  end.

Definition live_lines (commit : Commit) : nat :=
  list_sum (map (fun blob => blamed_lines commit (entry_path blob))
                (tracked commit)).

(** Between two checkpoints in a row, a path of the later one that the diff
    does not report was there at the earlier one and has as many blamed
    lines at both. *)
Definition lines_carried (prev cur : Commit) : Prop :=
  forall blob,
    blob ∈ tracked cur ->
    entry_path blob ∉ changed_since (Some prev) cur ->
    entry_path blob ∈ paths_of (tracked prev)
    /\ blamed_lines cur (entry_path blob) = blamed_lines prev (entry_path blob).

(** The counts of the three dimensions add up to the same number. *)
Definition balanced (h : hist) : Prop :=
  total "cohort" h = total "ext" h /\ total "ext" h = total "author" h.

(** The ['sha'] keys of a histogram name commits of [commit2timestamp]:
    commits with exactly one parent that the listing went through. *)
Definition sha_keys_listed (h : hist) : Prop :=
  forall id, is_Some (h !! ("sha", id)) ->
             exists sha, id = VStr sha /\ is_Some (commit2timestamp !! sha).

(** The keys that the listing and the counting pass collect: the value of
    [curves_set] when the loop over the checkpoints starts. *)
Definition curves_universe : gset key :=
  foldl (fun curves_set commit => foldl count_blob curves_set (tracked commit))
        (listed_curves listing) (reverse master_commits).

(** The commits that the walk of lines 63-70 goes through: the head, its
    first parent, the first parent of that one, down to a root. *)
Fixpoint first_parent_chain (commit : Commit) : list Commit :=
  commit :: match parents commit with
            | [] => []
            | parent0 :: _ => first_parent_chain parent0
            end.

(** The lines of the tracked files of a commit, [line_count commit path]
    being the number of lines of the file at [path] in the tree of
    [commit]: what the specification calls the currently-live, trackable
    lines at a checkpoint. *)
Definition trackable_lines (line_count : Commit -> string -> nat)
           (commit : Commit) : nat :=
  list_sum (map (fun blob => line_count commit (entry_path blob))
                (tracked commit)).

(** [repo.blame] returns for every tracked file of the commit, and gives
    every line of the file to some commit. *)
Definition blame_complete (line_count : Commit -> string -> nat)
           (commit : Commit) : Prop :=
  forall blob,
    blob ∈ tracked commit ->
    exists hunks,
      blame repo commit (entry_path blob) = inr hunks
      /\ hunk_lines hunks = line_count commit (entry_path blob).

(** Between two checkpoints in a row, a path of the later one that the diff
    does not report was there at the earlier one, with as many lines. *)
Definition lines_kept (line_count : Commit -> string -> nat)
           (prev cur : Commit) : Prop :=
  forall blob,
    blob ∈ tracked cur ->
    entry_path blob ∉ changed_since (Some prev) cur ->
    entry_path blob ∈ paths_of (tracked prev)
    /\ line_count cur (entry_path blob) = line_count prev (entry_path blob).
(** * Properties *)

(** ** Base names *)


Lemma basename_no_sep (p : string) :
  posixpath.contains_sep (posixpath.basename p) = false.
Proof.
  induction p as [|c r IH]; [reflexivity|].
  cbn [posixpath.basename].
  destruct (posixpath.contains_sep (String c r)) eqn:E; [exact IH | exact E].
Qed.

Lemma basename_id (p : string) :
  posixpath.contains_sep p = false -> posixpath.basename p = p.
Proof.
  destruct p as [|c r]; [reflexivity|].
  intros E. cbn [posixpath.basename]. now rewrite E.
Qed.

(** A path that differs from its base name is in a directory, and the base
    name of no path equals it. *)
Lemma basename_differs (p q : string) :
  posixpath.basename p <> p -> posixpath.basename q <> p.
Proof.
  intros Hp Hq. apply Hp, basename_id.
  rewrite <- Hq. apply basename_no_sep.
Qed.

(** ** The monad *)

Lemma bind_Ok {A B} (m : M A) (k : A -> M B) s b s2 :
  bind m k s = Ok b s2 <-> exists a s1, m s = Ok a s1 /\ k a s1 = Ok b s2.
Proof.
  unfold bind. split.
  - destruct (m s) as [a s1|e]; [eauto | discriminate].
  - intros (a & s1 & -> & Hk). exact Hk.
Qed.

Lemma for_each_app {A B} (body : B -> A -> M B) (l1 l2 : list A) acc s :
  for_each body (l1 ++ l2) acc s =
  bind (for_each body l1 acc) (for_each body l2) s.
Proof.
  revert acc s. induction l1 as [|x l1 IH]; intros acc s; [reflexivity|].
  cbn [for_each app]. unfold bind.
  destruct (body acc x s) as [acc' s'|e]; [|reflexivity].
  rewrite IH. reflexivity.
Qed.

Lemma for_each_snoc_Ok {A B} (body : B -> A -> M B) (l : list A) x acc s b s2 :
  for_each body (l ++ [x]) acc s = Ok b s2 <->
  exists a s1, for_each body l acc s = Ok a s1 /\ body a x s1 = Ok b s2.
Proof.
  rewrite for_each_app, bind_Ok. cbn [for_each].
  split; intros (a & s1 & H1 & H2); exists a, s1; split; try done.
  - apply bind_Ok in H2 as (a' & s' & H2 & H3). by inversion H3; subst.
  - apply bind_Ok. eauto.
Qed.

(** A loop that ran to its end ran every prefix to its end. *)
Lemma for_each_prefix_Ok {A B} (body : B -> A -> M B) (l1 l2 : list A) acc s b s2 :
  for_each body (l1 ++ l2) acc s = Ok b s2 ->
  exists a s1, for_each body l1 acc s = Ok a s1.
Proof. rewrite for_each_app, bind_Ok. intros (a & s1 & H & _). eauto. Qed.

(** Loop invariants: [Inv pre acc s] is kept by the body, [pre] being what
    has been visited. *)
Lemma for_each_invariant {A B} (body : B -> A -> M B)
      (Inv : list A -> B -> State -> Prop) (l : list A) acc s acc' s' :
  Inv [] acc s ->
  (forall pre x post a s1 a2 s2,
      l = pre ++ x :: post ->
      Inv pre a s1 -> body a x s1 = Ok a2 s2 -> Inv (pre ++ [x]) a2 s2) ->
  for_each body l acc s = Ok acc' s' -> Inv l acc' s'.
Proof.
  intros H0 Hstep.
  assert (G : forall post pre a s1,
             l = pre ++ post -> Inv pre a s1 ->
             for_each body post a s1 = Ok acc' s' -> Inv l acc' s').
  { induction post as [|x post IH]; intros pre a s1 El HI Hrun.
    - cbn in Hrun. inversion Hrun; subst. by rewrite app_nil_r.
    - cbn [for_each] in Hrun. apply bind_Ok in Hrun as (a2 & s2 & Hb & Hrun).
      apply (IH (pre ++ [x]) a2 s2); [by rewrite <- app_assoc | | exact Hrun].
      eapply Hstep; eauto. }
  intros Hrun. exact (G l [] acc s eq_refl H0 Hrun).
Qed.

(** The same, for a body that cannot raise. *)
Lemma for_each_total {A B} (body : B -> A -> M B)
      (Inv : list A -> B -> State -> Prop) (l : list A) acc s :
  Inv [] acc s ->
  (forall pre x a s1,
      Inv pre a s1 ->
      exists a2 s2, body a x s1 = Ok a2 s2 /\ Inv (pre ++ [x]) a2 s2) ->
  exists acc' s', for_each body l acc s = Ok acc' s' /\ Inv l acc' s'.
Proof.
  intros H0 Hstep.
  assert (G : forall post pre a s1,
             Inv pre a s1 ->
             exists acc' s', for_each body post a s1 = Ok acc' s'
                             /\ Inv (pre ++ post) acc' s').
  { induction post as [|x post IH]; intros pre a s1 HI.
    - exists a, s1. by rewrite app_nil_r.
    - destruct (Hstep pre x a s1 HI) as (a2 & s2 & Hb & HI2).
      destruct (IH (pre ++ [x]) a2 s2 HI2) as (a3 & s3 & Hr & HI3).
      exists a3, s3. rewrite <- app_assoc in HI3. split; [|exact HI3].
      cbn [for_each]. apply bind_Ok. eauto. }
  exact (G l [] acc s H0).
Qed.

(** ** Folding counts into a histogram *)

Lemma list_sum_cons (n : nat) (l : list nat) : list_sum (n :: l) = n + list_sum l.
Proof. reflexivity. Qed.

Lemma total_empty (key_type : string) : total key_type ∅ = 0.
Proof. apply map_fold_empty. Qed.

Lemma total_insert (key_type : string) (h : hist) (k : key) (n : nat) :
  h !! k = None -> total key_type (<[k := n]> h) = weight key_type k n + total key_type h.
Proof.
  intros Hk. unfold total, weight. rewrite map_fold_insert_L; [|..|exact Hk].
  - destruct (String.eqb k.1 key_type); reflexivity.
  - intros j1 j2 z1 z2 y _ _ _.
    destruct (String.eqb j1.1 key_type), (String.eqb j2.1 key_type); lia.
Qed.

Lemma total_add_count (key_type : string) (h : hist) (k : key) (n : nat) :
  total key_type (add_count h k n) = total key_type h + weight key_type k n.
Proof.
  unfold add_count. destruct (h !! k) as [m|] eqn:Hk; cbn [default].
  - rewrite <- (insert_delete_id h k m Hk) at 2.
    rewrite <- (insert_delete_eq h k (m + n)).
    rewrite !total_insert by apply lookup_delete_eq.
    unfold weight. destruct (String.eqb k.1 key_type); lia.
  - rewrite total_insert by exact Hk. cbn [Nat.add]. lia.
Qed.

Lemma lookup_add_count (h : hist) (k : key) (n : nat) (k' : key) :
  add_count h k n !! k' =
  if decide (k = k') then Some (default 0 (h !! k) + n) else h !! k'.
Proof. unfold add_count. apply lookup_insert. Qed.

(** [merge_file] adds, key by key. *)
Lemma lookup_merge_file (h histogram : hist) k :
  merge_file h histogram !! k =
  match h !! k with
  | Some n => Some (default 0 (histogram !! k) + n)
  | None => histogram !! k
  end.
Proof.
  unfold merge_file.
  apply (map_fold_weak_ind
           (fun (r : hist) (m : hist) =>
              r !! k = match m !! k with
                       | Some n => Some (default 0 (histogram !! k) + n)
                       | None => histogram !! k
                       end)).
  - by rewrite lookup_empty.
  - intros i x m r Hi IH. rewrite lookup_add_count, lookup_insert.
    destruct (decide (i = k)) as [->|Hne]; [|exact IH].
    rewrite Hi in IH. by rewrite IH.
Qed.

Lemma total_merge_file (key_type : string) (h histogram : hist) :
  total key_type (merge_file h histogram) = total key_type histogram + total key_type h.
Proof.
  unfold merge_file.
  apply (map_fold_weak_ind
           (fun (r : hist) (m : hist) =>
              total key_type r = total key_type histogram + total key_type m)).
  - rewrite total_empty. lia.
  - intros i x m r Hi IH.
    rewrite total_add_count, IH, (total_insert _ _ _ _ Hi). lia.
Qed.

(** [record_survival] appends one pair to the series of each ['sha'] key of
    the histogram and touches no other series. *)
Lemma lookup_record_survival (date : Z) (histogram : hist)
      (commit_history : gmap value (list (Z * nat))) (id : value) :
  record_survival date histogram commit_history !! id =
  match histogram !! ("sha", id) with
  | Some n => Some (default [] (commit_history !! id) ++ [(date, n)])
  | None => commit_history !! id
  end.
Proof.
  unfold record_survival.
  apply (map_fold_weak_ind
           (fun (r : gmap value (list (Z * nat))) (m : hist) =>
              r !! id = match m !! ("sha", id) with
                        | Some n => Some (default [] (commit_history !! id) ++ [(date, n)])
                        | None => commit_history !! id
                        end)).
  - by rewrite lookup_empty.
  - intros [kt ki] n m r Hi IH. cbn [fst snd].
    destruct (String.eqb kt "sha") eqn:E.
    + apply String.eqb_eq in E as ->. rewrite !lookup_insert.
      destruct (decide (ki = id)) as [->|Hne].
      * rewrite decide_True by done. rewrite Hi in IH. by rewrite IH.
      * rewrite decide_False by congruence. exact IH.
    + rewrite lookup_insert_ne; [exact IH|].
      intros [= -> _]. by rewrite String.eqb_refl in E.
Qed.

(** [record_curves] appends one count to the series of each key of
    [curves_set] and touches no other series. *)
Lemma lookup_record_curves (curves_set : gset key) (histogram : hist)
      (curves : gmap key (list nat)) (k : key) :
  record_curves curves_set histogram curves !! k =
  if decide (k ∈ curves_set)
  then Some (default [] (curves !! k) ++ [default 0 (histogram !! k)])
  else curves !! k.
Proof.
  unfold record_curves.
  pose (P := fun (r : gmap key (list nat)) (X : gset key) =>
               r !! k = if decide (k ∈ X)
                        then Some (default [] (curves !! k) ++ [default 0 (histogram !! k)])
                        else curves !! k).
  enough (G : forall X, P (set_fold
                             (fun key curves =>
                                <[key := default [] (curves !! key)
                                         ++ [default 0 (histogram !! key)]]> curves)
                             curves X) X) by apply G.
  apply set_fold_ind_L; unfold P.
  - rewrite decide_False; [done | apply not_elem_of_empty].
  - intros x X r Hx IH. rewrite lookup_insert.
    destruct (decide (x = k)) as [->|Hne].
    + rewrite decide_True by (apply elem_of_union_l; by apply elem_of_singleton).
      rewrite decide_False in IH by done. by rewrite IH.
    + rewrite IH. destruct (decide (k ∈ X)) as [Hin|Hnin].
      * rewrite decide_True; [done | by apply elem_of_union_r].
      * rewrite decide_False; [done|].
        intros [Hk|Hk]%elem_of_union; [|done].
        apply elem_of_singleton in Hk. congruence.
Qed.

(** ** The closures of [analyze] *)

(** *** The memo of [entry_path_ok] *)

Lemma cache_ok_initial : cache_ok initial_state.
Proof. intros path ok. cbn. by rewrite lookup_empty. Qed.

Lemma entry_path_ok_spec (path : string) (s : State) :
  cache_ok s ->
  exists s', entry_path_ok path s = Ok (path_filter path) s' /\ memo_step s s'.
Proof.
  intros Hs. unfold entry_path_ok.
  destruct (ok_entry_paths s !! path) as [ok|] eqn:E.
  - exists s. rewrite (Hs _ _ E). by split.
  - eexists. split; [reflexivity|]. split; [|reflexivity].
    intros p ok. cbn. rewrite lookup_insert.
    destruct (decide (path = p)) as [->|]; [congruence | apply Hs].
Qed.

Lemma get_blob_entries_spec (commit : Commit) (s : State) :
  cache_ok s ->
  exists s', get_blob_entries commit s = Ok (tracked commit) s' /\ memo_step s s'.
Proof.
  intros Hs. unfold get_blob_entries, tracked.
  pose (Inv := fun (pre : list Entry) (acc : list Entry) (s' : State) =>
                 acc = List.filter
                         (fun entry => String.eqb (entry_type entry) "blob"
                                       && path_filter (entry_path entry)) pre
                 /\ memo_step s s').
  match goal with
  | |- exists s', for_each ?body _ _ _ = _ /\ _ =>
      destruct (for_each_total body Inv (tree commit) [] s) as (acc & s' & Hrun & -> & Hm)
  end.
  - by split.
  - unfold Inv. intros pre x a s1 [-> [Hc He]].
    rewrite List.filter_app. cbn [List.filter].
    destruct (String.eqb (entry_type x) "blob"); cbn [andb].
    + destruct (entry_path_ok_spec (entry_path x) s1 Hc) as (s2 & Hrun & Hc2 & He2).
      exists (if path_filter (entry_path x)
              then List.filter (fun entry => String.eqb (entry_type entry) "blob"
                                 && path_filter (entry_path entry)) pre ++ [x]
              else List.filter (fun entry => String.eqb (entry_type entry) "blob"
                                 && path_filter (entry_path entry)) pre), s2.
      split; [unfold bind; by rewrite Hrun|].
      split; [|split; [done | congruence]].
      destruct (path_filter (entry_path x)); [done | by rewrite app_nil_r].
    + exists (List.filter (fun entry => String.eqb (entry_type entry) "blob"
                            && path_filter (entry_path entry)) pre), s1.
      split; [done|]. split; [by rewrite app_nil_r | done].
  - exists s'. by split.
Qed.

Lemma memo_step_trans (s1 s2 s3 : State) :
  memo_step s1 s2 -> memo_step s2 s3 -> memo_step s1 s3.
Proof. intros [_ E1] [H2 E2]. split; [done | congruence]. Qed.

Lemma count_entries_spec (curves_set : gset key) (s : State) :
  cache_ok s ->
  exists s',
    count_entries curves_set s =
      Ok (foldl (fun cs commit => foldl count_blob cs (tracked commit))
                curves_set (reverse master_commits)) s'
    /\ memo_step s s'.
Proof.
  intros Hs. unfold count_entries.
  pose (Inv := fun (pre : list Commit) (acc : gset key) (s' : State) =>
                 acc = foldl (fun cs commit => foldl count_blob cs (tracked commit))
                             curves_set pre
                 /\ cache_ok s' /\ memo_step s s').
  match goal with
  | |- exists s', for_each ?body ?l _ _ = _ /\ _ =>
      destruct (for_each_total body Inv l curves_set s) as (acc & s' & Hrun & -> & _ & Hm)
  end.
  - by repeat split.
  - unfold Inv. intros pre x a s1 (-> & Hc & Hm).
    destruct (get_blob_entries_spec x s1 Hc) as (s2 & Hrun & Hm2).
    eexists _, s2. split; [unfold bind; rewrite Hrun; reflexivity|].
    rewrite foldl_app. cbn [foldl]. split; [done|].
    split; [apply Hm2 | by eapply memo_step_trans].
  - exists s'. by split.
Qed.

(** *** [get_file_histogram] *)

Lemma blame_hunk_spec (path : string) (h : hist) (hunk : Commit * list string)
      (s : State) :
  cache_ok s ->
  exists s', blame_hunk path h hunk s = Ok (hunk_counts path h hunk) s'
             /\ memo_step s s'.
Proof.
  intros Hs. destruct hunk as [old_commit lines].
  destruct (get_blob_entries_spec old_commit s Hs) as (s' & Hrun & Hm).
  exists s'. split; [|exact Hm].
  unfold blame_hunk, bind. by rewrite Hrun.
Qed.

Lemma get_file_histogram_spec (commit : Commit) (path : string) (s : State) :
  cache_ok s ->
  match blame repo commit path with
  | inr hunks =>
      exists s', get_file_histogram commit path s = Ok (file_histogram path hunks) s'
                 /\ memo_step s s'
  | inl KeyboardInterrupt =>
      get_file_histogram commit path s = Raise KeyboardInterrupt
  | inl (Fault what) =>
      get_file_histogram commit path s =
        Ok ∅ (mkState (ok_entry_paths s) (stderr s ++ [Fault what]))
  end.
Proof.
  intros Hs. unfold get_file_histogram.
  destruct (blame repo commit path) as [[|what]|hunks]; [reflexivity..|].
  pose (Inv := fun (pre : list (Commit * list string)) (h : hist) (s' : State) =>
                 h = file_histogram path pre /\ cache_ok s' /\ memo_step s s').
  destruct (for_each_total (blame_hunk path) Inv hunks ∅ s)
    as (h & s' & Hrun & -> & _ & Hm).
  - by repeat split.
  - unfold Inv. intros pre x a s1 (-> & Hc & Hm).
    destruct (blame_hunk_spec path (file_histogram path pre) x s1 Hc)
      as (s2 & Hrun & Hm2).
    eexists _, s2. split; [exact Hrun|].
    unfold file_histogram. rewrite foldl_app. cbn [foldl]. split; [done|].
    split; [apply Hm2 | by eapply memo_step_trans].
  - exists s'. by split.
Qed.

Lemma total_foldl_add_count (key_type : string) (n : nat) (keys : list key)
      (h : hist) :
  total key_type (foldl (fun h key => add_count h key n) h keys) =
  total key_type h + n * keys_of_type key_type keys.
Proof.
  revert h. induction keys as [|k keys IH]; intros h; cbn [foldl].
  - unfold keys_of_type. cbn. lia.
  - rewrite IH, total_add_count. unfold keys_of_type, weight. cbn [List.filter].
    destruct (String.eqb k.1 key_type); cbn [length]; lia.
Qed.

Lemma count_foldl_add_count (k : key) (n : nat) (keys : list key) (h : hist) :
  default 0 (foldl (fun h key => add_count h key n) h keys !! k) =
  default 0 (h !! k) + n * occurrences k keys.
Proof.
  revert h. induction keys as [|k' keys IH]; intros h; cbn [foldl].
  - unfold occurrences. cbn. lia.
  - rewrite IH, lookup_add_count. unfold occurrences. cbn [List.filter].
    destruct (decide (k' = k)) as [->|Hne].
    + rewrite bool_decide_eq_true_2 by done. cbn [length default]. unfold id. lia.
    + rewrite bool_decide_eq_false_2 by done. lia.
Qed.

Lemma lookup_foldl_add_count_None (k : key) (n : nat) (keys : list key)
      (h : hist) :
  occurrences k keys = 0 ->
  foldl (fun h key => add_count h key n) h keys !! k = h !! k.
Proof.
  revert h. induction keys as [|k' keys IH]; intros h; cbn [foldl]; [done|].
  unfold occurrences. cbn [List.filter].
  destruct (decide (k' = k)) as [->|Hne].
  - rewrite bool_decide_eq_true_2 by done. discriminate.
  - rewrite bool_decide_eq_false_2 by done. intros H0.
    rewrite IH by exact H0. rewrite lookup_add_count. by rewrite decide_False.
Qed.

(** Each hunk has one key of each of the four dimensions. *)
Lemma blame_keys_one (key_type : string) (path : string) (old_commit : Commit)
      (blobs : list Entry) :
  key_type ∈ ["cohort"; "ext"; "author"; "filesize"] ->
  keys_of_type key_type (blame_keys path old_commit blobs) = 1.
Proof.
  intros Hin. unfold keys_of_type, blame_keys.
  rewrite List.filter_app, length_app.
  assert (Hsha : String.eqb "sha" key_type = false).
  { repeat (apply elem_of_cons in Hin as [->|Hin]; [reflexivity|]).
    by apply elem_of_nil in Hin. }
  replace (length (List.filter (fun k : key => String.eqb k.1 key_type)
                     (if bool_decide (is_Some (commit2timestamp !! hexsha old_commit))
                      then [("sha", VStr (hexsha old_commit))] else [])))
    with 0.
  2:{ destruct (bool_decide _); cbn [List.filter fst]; [by rewrite Hsha | done]. }
  repeat (apply elem_of_cons in Hin as [->|Hin]; [reflexivity|]).
  by apply elem_of_nil in Hin.
Qed.

(** In the histogram of a file the keys of each dimension add up to the
    number of lines of the blame. *)
Lemma total_file_histogram (key_type : string) (path : string)
      (hunks : list (Commit * list string)) :
  key_type ∈ ["cohort"; "ext"; "author"; "filesize"] ->
  total key_type (file_histogram path hunks) = hunk_lines hunks.
Proof.
  intros Hin. unfold file_histogram, hunk_lines.
  induction hunks as [|hunk hunks IH] using rev_ind.
  - apply total_empty.
  - rewrite foldl_app, map_app, list_sum_app. cbn [foldl map].
    unfold hunk_counts at 1.
    rewrite total_foldl_add_count, IH, blame_keys_one by exact Hin.
    cbn [list_sum fold_right]. lia.
Qed.

Lemma count_file_histogram (k : key) (path : string)
      (hunks : list (Commit * list string)) :
  default 0 (file_histogram path hunks !! k) =
  list_sum (map (fun hunk =>
                   length hunk.2
                   * occurrences k (blame_keys path hunk.1 (tracked hunk.1)))
                hunks).
Proof.
  unfold file_histogram.
  induction hunks as [|hunk hunks IH] using rev_ind.
  - cbn [foldl map]. by rewrite lookup_empty.
  - rewrite foldl_app, map_app, list_sum_app. cbn [foldl map].
    unfold hunk_counts at 1. rewrite count_foldl_add_count, IH.
    cbn [list_sum fold_right]. lia.
Qed.

Lemma lookup_file_histogram_None (k : key) (path : string)
      (hunks : list (Commit * list string)) :
  (forall hunk, hunk ∈ hunks ->
                occurrences k (blame_keys path hunk.1 (tracked hunk.1)) = 0) ->
  file_histogram path hunks !! k = None.
Proof.
  unfold file_histogram.
  induction hunks as [|hunk hunks IH] using rev_ind; intros Hno.
  - apply lookup_empty.
  - rewrite foldl_app. cbn [foldl]. unfold hunk_counts at 1.
    rewrite lookup_foldl_add_count_None.
    + apply IH. intros h Hh. apply Hno, elem_of_app. by left.
    + apply Hno, elem_of_app. right. by apply list_elem_of_singleton.
Qed.

(** *** The states of a run *)

Lemma run_state_cache_ok (s : State) : run_state s -> cache_ok s.
Proof.
  induction 1 as [|s path ok s' _ IH Hrun|s e _ IH].
  - apply cache_ok_initial.
  - destruct (entry_path_ok_spec path s IH) as (s2 & Hrun2 & Hc & _).
    rewrite Hrun in Hrun2. by inversion Hrun2; subst.
  - exact IH.
Qed.

(** [path_filter], condition by condition. *)
Lemma path_filter_true (path : string) :
  path_filter path = true <->
  (all_filetypes = true
   \/ exists filetype, filetype ∈ default_filetypes
                       /\ fnmatch (posixpath.basename path) filetype = true)
  /\ (forall pattern, pattern ∈ only -> fnmatch path pattern = true)
  /\ (forall pattern, pattern ∈ ignore -> fnmatch path pattern = false).
Proof.
  unfold path_filter.
  rewrite !andb_true_iff, orb_true_iff, negb_true_iff, forallb_forall.
  rewrite <- not_true_iff_false, !existsb_exists.
  setoid_rewrite <- list_elem_of_In.
  split.
  - intros [[Hcat Honly] Hignore]. repeat split; [exact Hcat | exact Honly |].
    intros pattern Hin. apply not_true_iff_false. intros Hm. apply Hignore. eauto.
  - intros (Hcat & Honly & Hignore). repeat split; [exact Hcat | exact Honly |].
    intros (pattern & Hin & Hm). specialize (Hignore pattern Hin). congruence.
Qed.

(** *** C2 *)

(** C2.  At every state of a run, whenever [entry_path_ok] (the spec's
    isTrackable) answers [True] for a path: the base name of the path
    matches a pattern of the catalog unless [all_filetypes] is set; if
    [only] is not empty the path matches one of its patterns; and the path
    matches no pattern of [ignore]. *)
Theorem C2_entry_path_ok_only_if (s : State) (path : string) (s' : State) :
  run_state s ->
  entry_path_ok path s = Ok true s' ->
  (all_filetypes = true
   \/ exists filetype, filetype ∈ default_filetypes
                       /\ fnmatch (posixpath.basename path) filetype = true)
  /\ (only <> [] -> exists pattern, pattern ∈ only /\ fnmatch path pattern = true)
  /\ (forall pattern, pattern ∈ ignore -> fnmatch path pattern = false).
Proof.
  intros Hs Hrun.
  destruct (entry_path_ok_spec path s (run_state_cache_ok s Hs)) as (s2 & Hrun2 & _).
  rewrite Hrun in Hrun2. injection Hrun2 as Hok _. symmetry in Hok.
  apply path_filter_true in Hok as (Hcat & Honly & Hignore).
  split; [exact Hcat|]. split; [|exact Hignore].
  destruct only as [|pattern rest]; [done|]. intros _.
  exists pattern. split; [by left | apply Honly; by left].
Qed.

(** The answer of [entry_path_ok] is [True] exactly when, moreover, every
    pattern of [only] matches. *)
Lemma entry_path_ok_exact (s : State) (path : string) (ok : bool) (s' : State) :
  run_state s ->
  entry_path_ok path s = Ok ok s' ->
  ok = path_filter path /\ run_state s'.
Proof.
  intros Hs Hrun.
  destruct (entry_path_ok_spec path s (run_state_cache_ok s Hs)) as (s2 & Hrun2 & _).
  split; [congruence | by eapply run_entry_path_ok].
Qed.

(** *** C3 *)

Lemma merge_file_empty (histogram : hist) : merge_file ∅ histogram = histogram.
Proof. apply map_fold_empty. Qed.

(** C3.  When [repo.blame] raises a fault for a path at a checkpoint,
    [get_file_histogram] returns, with an empty histogram and the traceback
    printed; the path then adds nothing to the histogram of the checkpoint
    and the loop goes on with the blobs that remain. *)
Theorem C3_blame_fault_is_caught (commit : Commit) (path : string)
        (what : string) (s : State) :
  blame repo commit path = inl (Fault what) ->
  get_file_histogram commit path s = Ok ∅ (print_exc (Fault what) s)
  /\ forall changed_files file_histograms histogram blob rest,
      entry_path blob = path ->
      path ∈ changed_files \/ file_histograms !! path = None ->
      for_each (visit_blob commit changed_files) (blob :: rest)
               (file_histograms, histogram) s
      = for_each (visit_blob commit changed_files) rest
                 (<[path := ∅]> file_histograms, histogram)
                 (print_exc (Fault what) s).
Proof.
  intros Hblame.
  assert (Hg : get_file_histogram commit path s = Ok ∅ (print_exc (Fault what) s)).
  { unfold get_file_histogram. by rewrite Hblame. }
  split; [exact Hg|].
  intros changed_files file_histograms histogram blob rest Hpath Hcall.
  cbn [for_each]. unfold bind at 1. unfold visit_blob at 1.
  rewrite Hpath.
  assert (Hc : bool_decide (path ∈ changed_files)
               || bool_decide (file_histograms !! path = None) = true).
  { apply orb_true_iff. destruct Hcall as [H|H]; [left | right];
      by apply bool_decide_eq_true_2. }
  rewrite Hc. unfold bind. rewrite Hg. unfold ret.
  by rewrite lookup_insert_eq, merge_file_empty.
Qed.

(** An interrupt, for its part, goes through. *)
Lemma get_file_histogram_interrupt (commit : Commit) (path : string) (s : State) :
  blame repo commit path = inl KeyboardInterrupt ->
  get_file_histogram commit path s = Raise KeyboardInterrupt.
Proof. intros H. unfold get_file_histogram. by rewrite H. Qed.

(** *** C9 and C10: the keys of a hunk *)

Lemma occurrences_cohort (label : string) (path : string) (old_commit : Commit)
      (blobs : list Entry) :
  occurrences ("cohort", VStr label) (blame_keys path old_commit blobs) =
  if bool_decide (cohort_label old_commit = label) then 1 else 0.
Proof.
  unfold occurrences, blame_keys. fold (cohort_label old_commit).
  rewrite List.filter_app, length_app.
  replace (length (List.filter (fun k' : key => bool_decide (k' = ("cohort", VStr label)))
                     (if bool_decide (is_Some (commit2timestamp !! hexsha old_commit))
                      then [("sha", VStr (hexsha old_commit))] else [])))
    with 0.
  2:{ destruct (bool_decide (is_Some _)); cbn [List.filter]; [|done].
      case_bool_decide; congruence || reflexivity. }
  cbn [List.filter]. repeat case_bool_decide; congruence || reflexivity.
Qed.

(** The blob whose size is looked up is found by [blob.name == path]: for a
    path in a directory no blob is found. *)
Lemma size_lookup_in_directory (path : string) (blobs : list Entry) :
  posixpath.basename path <> path ->
  List.filter (fun blob => String.eqb (entry_name blob) path) blobs = [].
Proof.
  intros Hdir. induction blobs as [|blob blobs IH]; [done|].
  cbn [List.filter]. rewrite IH.
  destruct (String.eqb (entry_name blob) path) eqn:E; [|done].
  apply String.eqb_eq in E. unfold entry_name in E.
  by apply basename_differs in E.
Qed.

Lemma occurrences_filesize_in_directory (v : value) (path : string)
      (old_commit : Commit) (blobs : list Entry) :
  posixpath.basename path <> path ->
  occurrences ("filesize", v) (blame_keys path old_commit blobs) =
  if bool_decide (v = VInt 0) then 1 else 0.
Proof.
  intros Hdir. unfold occurrences, blame_keys.
  rewrite (size_lookup_in_directory path blobs Hdir). cbn [map].
  rewrite List.filter_app, length_app.
  replace (length (List.filter (fun k' : key => bool_decide (k' = ("filesize", v)))
                     (if bool_decide (is_Some (commit2timestamp !! hexsha old_commit))
                      then [("sha", VStr (hexsha old_commit))] else [])))
    with 0.
  2:{ destruct (bool_decide (is_Some _)); cbn [List.filter]; [|done].
      case_bool_decide; congruence || reflexivity. }
  cbn [List.filter]. repeat case_bool_decide; congruence || reflexivity.
Qed.

(** C10.  For a file in a subdirectory (its path differs from its base
    name) the comparison of [blob.name] with the path finds no blob: every
    line of the file is counted under [('filesize', 0)], and the histogram
    of the file has no other ['filesize'] key. *)
Theorem C10_filesize_zero_in_subdirectory (commit : Commit) (path : string)
        (hunks : list (Commit * list string)) (s : State) :
  cache_ok s ->
  posixpath.basename path <> path ->
  blame repo commit path = inr hunks ->
  exists h s',
    get_file_histogram commit path s = Ok h s'
    /\ default 0 (h !! ("filesize", VInt 0)) = hunk_lines hunks
    /\ forall v, v <> VInt 0 -> h !! ("filesize", v) = None.
Proof.
  intros Hs Hdir Hblame.
  pose proof (get_file_histogram_spec commit path s Hs) as Hspec.
  rewrite Hblame in Hspec. destruct Hspec as (s' & Hrun & _).
  exists (file_histogram path hunks), s'. split; [exact Hrun|]. split.
  - rewrite count_file_histogram. unfold hunk_lines. f_equal.
    apply map_ext. intros hunk.
    rewrite occurrences_filesize_in_directory by exact Hdir.
    rewrite bool_decide_eq_true_2 by done. lia.
  - intros v Hv. apply lookup_file_histogram_None. intros hunk _.
    rewrite occurrences_filesize_in_directory by exact Hdir.
    by rewrite bool_decide_eq_false_2.
Qed.

(** *** C8: the sampler *)

(** Induction along the first parents. *)
Lemma first_parent_ind (P : Commit -> Prop) :
  (forall commit, parents commit = [] -> P commit) ->
  (forall commit parent0 others,
      parents commit = parent0 :: others -> P parent0 -> P commit) ->
  forall commit, P commit.
Proof.
  intros Hroot Hstep. fix IH 1. intros [sha date author ps entries].
  destruct ps as [|parent0 others].
  - by apply Hroot.
  - apply (Hstep _ parent0 others); [reflexivity | apply IH].
Qed.

Lemma spaced_consecutive (l pre post : list Commit) (a b : Commit) :
  spaced l -> l = pre ++ a :: b :: post ->
  (committed_date a < committed_date b - interval)%Z.
Proof.
  revert l. induction pre as [|x pre IH]; intros l Hl ->.
  - by destruct Hl.
  - destruct Hl as [_ Hl]. by eapply IH.
Qed.

Lemma backtrack_spaced (commit : Commit) :
  forall last_date master_commits,
    last_date = committed_date <$> head (reverse master_commits) ->
    spaced (reverse master_commits) ->
    spaced (reverse (backtrack commit last_date master_commits)).
Proof.
  induction commit as [commit Hp|commit parent0 others Hp IH] using first_parent_ind;
    intros last_date mc Hlast Hmc.
  - destruct commit as [sha date author ps entries]. cbn in Hp. subst ps. exact Hmc.
  - destruct commit as [sha date author ps entries]. cbn in Hp. subst ps.
    cbn [backtrack parents committed_date].
    destruct (match last_date with
              | Some d => (date <? d - interval)%Z
              | None => true
              end) eqn:Hsel.
    + apply IH.
      * by rewrite reverse_snoc.
      * rewrite reverse_snoc. cbn [spaced]. split; [|exact Hmc].
        destruct (reverse mc) as [|b l']; [done|].
        cbn in Hlast. subst last_date. cbn [committed_date]. lia.
    + by apply IH.
Qed.

Lemma master_commits_spaced : spaced (reverse master_commits).
Proof. by apply backtrack_spaced. Qed.

(** Every two checkpoints in a row are more than [interval] apart, the two
    nearest the tip as well. *)
Lemma checkpoints_gap (pre post : list Commit) (a b : Commit) :
  reverse master_commits = pre ++ a :: b :: post ->
  (committed_date b - committed_date a > interval)%Z.
Proof.
  intros E. pose proof (spaced_consecutive _ _ _ _ _ master_commits_spaced E). lia.
Qed.

(** C8, as the code has it.  Every two checkpoints in a row, in the order
    in which they are processed, are more than [interval] seconds apart, so
    at least [interval] seconds, the two nearest the tip as well; and when
    the interval is not negative their timestamps are strictly ascending.
    Nothing in the code keeps the interval from being negative, and then a
    commit that is dated before its parent can come after it. *)
Theorem C8_checkpoints_ascending_and_spaced (pre post : list Commit) (a b : Commit) :
  reverse master_commits = pre ++ a :: b :: post ->
  (committed_date b - committed_date a > interval)%Z
  /\ (committed_date b - committed_date a >= interval)%Z
  /\ ((0 <= interval)%Z -> (committed_date a < committed_date b)%Z).
Proof.
  intros E. pose proof (checkpoints_gap _ _ _ _ E). lia.
Qed.

(** The root of the first-parent chain is never a checkpoint: every
    checkpoint has a parent. *)
Lemma backtrack_has_parent (commit : Commit) :
  forall last_date master_commits,
    Forall (fun c => parents c <> []) master_commits ->
    Forall (fun c => parents c <> [])
           (backtrack commit last_date master_commits).
Proof.
  induction commit as [commit Hp|commit parent0 others Hp IH] using first_parent_ind;
    intros last_date mc Hmc.
  - destruct commit as [sha date author ps entries]. cbn in Hp. subst ps. exact Hmc.
  - destruct commit as [sha date author ps entries]. cbn in Hp. subst ps.
    cbn [backtrack parents committed_date].
    destruct (match last_date with
              | Some d => (date <? d - interval)%Z
              | None => true
              end); apply IH; [|exact Hmc].
    apply Forall_app. split; [exact Hmc|]. by apply Forall_singleton.
Qed.

Lemma master_commits_have_parent :
  Forall (fun c => parents c <> []) master_commits.
Proof. by apply backtrack_has_parent. Qed.

(** *** The loop, without its state

    The memo and the tracebacks do not bear on what the loop computes: each
    computation returns what a function to [option] gives, [None] standing
    for the interrupt that goes through. *)

Lemma simulates_ret {A} (a : A) : simulates (ret a) (Some a).
Proof. intros s Hs. by exists s. Qed.

Lemma simulates_bind {A B} (m : M A) (k : A -> M B) (o : option A)
      (f : A -> option B) :
  simulates m o -> (forall a, simulates (k a) (f a)) ->
  simulates (bind m k) (o ≫= f).
Proof.
  intros Hm Hk s Hs. specialize (Hm s Hs). unfold bind.
  destruct o as [a|]; cbn.
  - destruct Hm as (s1 & -> & Hs1). apply Hk, Hs1.
  - by rewrite Hm.
Qed.

Lemma simulates_for_each {A B} (body : B -> A -> M B)
      (pure : B -> A -> option B) (l : list A) :
  (forall acc x, simulates (body acc x) (pure acc x)) ->
  forall acc, simulates (for_each body l acc) (fold_option pure l acc).
Proof.
  intros Hbody. induction l as [|x l IH]; intros acc; cbn [for_each fold_option].
  - apply simulates_ret.
  - apply simulates_bind; [apply Hbody | apply IH].
Qed.

Lemma fold_option_app {A B} (body : B -> A -> option B) (l1 l2 : list A) acc :
  fold_option body (l1 ++ l2) acc =
  fold_option body l1 acc ≫= fold_option body l2.
Proof.
  revert acc. induction l1 as [|x l1 IH]; intros acc; [done|].
  cbn [fold_option app]. destruct (body acc x) as [acc'|]; [apply IH | done].
Qed.

(** What a run gives is what the function to [option] gives. *)
Lemma simulates_Ok {A} (m : M A) (o : option A) (s : State) (a : A) (s' : State) :
  simulates m o -> cache_ok s -> m s = Ok a s' -> o = Some a /\ cache_ok s'.
Proof.
  intros Hm Hs Hrun. specialize (Hm s Hs). destruct o as [a'|].
  - destruct Hm as (s2 & Hrun2 & Hs2). rewrite Hrun in Hrun2.
    by inversion Hrun2; subst.
  - congruence.
Qed.

Lemma simulates_get_blob_entries (commit : Commit) :
  simulates (get_blob_entries commit) (Some (tracked commit)).
Proof.
  intros s Hs. destruct (get_blob_entries_spec commit s Hs) as (s' & Hrun & Hc & _).
  by exists s'.
Qed.

Lemma simulates_get_file_histogram (commit : Commit) (path : string) :
  simulates (get_file_histogram commit path) (fresh_histogram commit path).
Proof.
  intros s Hs. pose proof (get_file_histogram_spec commit path s Hs) as Hspec.
  unfold fresh_histogram. destruct (blame repo commit path) as [[|what]|hunks].
  - exact Hspec.
  - eexists. split; [exact Hspec | exact Hs].
  - destruct Hspec as (s' & Hrun & Hc & _). by exists s'.
Qed.

Lemma simulates_visit_blob commit changed_files acc blob :
  simulates (visit_blob commit changed_files acc blob)
            (visit_pure commit changed_files acc blob).
Proof.
  destruct acc as [file_histograms histogram].
  unfold visit_blob, visit_pure, recomputed. cbn [fst snd].
  apply simulates_bind; [|intros fh; apply simulates_ret].
  destruct (bool_decide _ || bool_decide _); [|apply simulates_ret].
  apply simulates_bind; [apply simulates_get_file_histogram|].
  intros h. apply simulates_ret.
Qed.

Lemma simulates_checkpoint curves_set st commit :
  simulates (checkpoint curves_set st commit)
            (checkpoint_pure curves_set st commit).
Proof.
  unfold checkpoint, checkpoint_pure.
  change (simulates
            (bind (get_blob_entries commit)
                  (fun blobs =>
                     bind (for_each
                             (visit_blob commit
                                (changed_paths (diff repo commit (last_commit st))))
                             blobs (file_histograms st, ∅))
                          (fun acc =>
                             let '(file_histograms, histogram) := acc in
                             ret {| curves := record_curves curves_set histogram (curves st);
                                    ts := ts st ++ [committed_date commit];
                                    file_histograms := file_histograms;
                                    last_commit := Some commit;
                                    commit_history :=
                                      record_survival (committed_date commit)
                                                      histogram (commit_history st);
                                    histogram := histogram |})))
            (Some (tracked commit) ≫=
               fun blobs =>
                 fold_option
                   (visit_pure commit
                      (changed_paths (diff repo commit (last_commit st))))
                   blobs (file_histograms st, ∅) ≫=
                 fun acc =>
                   Some {| curves := record_curves curves_set acc.2 (curves st);
                           ts := ts st ++ [committed_date commit];
                           file_histograms := acc.1;
                           last_commit := Some commit;
                           commit_history :=
                             record_survival (committed_date commit) acc.2
                                             (commit_history st);
                           histogram := acc.2 |})).
  apply simulates_bind; [apply simulates_get_blob_entries|].
  intros blobs. apply simulates_bind.
  - apply simulates_for_each. intros acc x. apply simulates_visit_blob.
  - intros [fh h]. apply simulates_ret.
Qed.

Lemma simulates_analyze_loop curves_set checkpoints :
  simulates (analyze_loop curves_set checkpoints)
            (loop_pure curves_set checkpoints).
Proof.
  apply simulates_for_each. intros st commit. apply simulates_checkpoint.
Qed.

Lemma analyze_loop_Ok curves_set checkpoints s st s' :
  cache_ok s -> analyze_loop curves_set checkpoints s = Ok st s' ->
  loop_pure curves_set checkpoints = Some st.
Proof.
  intros Hs Hrun.
  by destruct (simulates_Ok _ _ _ _ _ (simulates_analyze_loop _ _) Hs Hrun).
Qed.

Lemma loop_pure_snoc curves_set checkpoints commit :
  loop_pure curves_set (checkpoints ++ [commit]) =
  loop_pure curves_set checkpoints ≫= fun st => checkpoint_pure curves_set st commit.
Proof.
  unfold loop_pure. rewrite fold_option_app. cbn [fold_option].
  destruct (fold_option _ checkpoints initial_loop) as [st|]; cbn; [|done].
  by destruct (checkpoint_pure curves_set st commit).
Qed.

(** *** The histograms that a checkpoint serves *)

Lemma total_merge_all (key_type : string) (served : list hist) (histogram : hist) :
  total key_type (merge_all served histogram) =
  total key_type histogram + list_sum (map (total key_type) served).
Proof.
  revert histogram. induction served as [|h served IH]; intros histogram.
  - cbn. lia.
  - cbn [merge_all foldl map]. fold (merge_all served (merge_file h histogram)).
    rewrite IH, total_merge_file, list_sum_cons. lia.
Qed.

(** One checkpoint: [P path h] holds of what is served for each blob, as
    soon as it holds of what is computed anew and of what the cache held
    for the paths that did not change. *)
Lemma visit_serves (P : string -> hist -> Prop) (commit : Commit)
      (changed_files : gset string) (file_histograms0 : gmap string hist)
      (histogram0 : hist) (blobs : list Entry) :
  (forall blob h, blob ∈ blobs ->
                  fresh_histogram commit (entry_path blob) = Some h ->
                  P (entry_path blob) h) ->
  (forall blob h, blob ∈ blobs ->
                  entry_path blob ∉ changed_files ->
                  file_histograms0 !! entry_path blob = Some h ->
                  P (entry_path blob) h) ->
  forall acc,
    fold_option (visit_pure commit changed_files) blobs
                (file_histograms0, histogram0) = Some acc ->
    (forall path, path ∈ paths_of blobs ->
                  exists h, acc.1 !! path = Some h /\ P path h)
    /\ (forall path, path ∉ paths_of blobs ->
                     acc.1 !! path = file_histograms0 !! path)
    /\ exists served,
        acc.2 = merge_all served histogram0
        /\ Forall2 (fun blob h => P (entry_path blob) h) blobs served.
Proof.
  induction blobs as [|x pre IH] using rev_ind; intros Hfresh Hcached acc Hrun.
  - cbn in Hrun. injection Hrun as <-. cbn [fst snd]. split; [|split].
    + intros path Hin. by apply elem_of_nil in Hin.
    + done.
    + exists []. split; [done | constructor].
  - rewrite fold_option_app in Hrun. cbn [fold_option] in Hrun.
    destruct (fold_option _ pre _) as [[fh1 hist1]|] eqn:Hpre; [|done].
    cbn in Hrun.
    destruct (IH (fun blob h Hin => Hfresh blob h (proj2 (elem_of_app _ _ _) (or_introl Hin)))
                 (fun blob h Hin => Hcached blob h (proj2 (elem_of_app _ _ _) (or_introl Hin)))
                 _ eq_refl)
      as (Hin1 & Hout1 & served & Hsum & Hserved).
    cbn [fst snd] in Hin1, Hout1, Hsum.
    assert (Hx : x ∈ pre ++ [x]) by (apply elem_of_app; right; by left).
    assert (Hstep : exists h,
               acc = (if recomputed changed_files fh1 (entry_path x)
                      then <[entry_path x := h]> fh1 else fh1,
                      merge_file h hist1)
               /\ (if recomputed changed_files fh1 (entry_path x)
                   then <[entry_path x := h]> fh1 else fh1) !! entry_path x = Some h
               /\ P (entry_path x) h).
    { unfold visit_pure in Hrun. cbn [fst snd] in Hrun.
      destruct (recomputed changed_files fh1 (entry_path x)) eqn:Hre.
      - destruct (fresh_histogram commit (entry_path x)) as [h|] eqn:Hf; [|done].
        cbn in Hrun. rewrite lookup_insert_eq in Hrun. injection Hrun as <-.
        exists h. rewrite lookup_insert_eq. repeat split. by apply Hfresh.
      - cbn in Hrun. injection Hrun as <-.
        unfold recomputed in Hre. apply orb_false_iff in Hre as [Hch Hnone].
        apply bool_decide_eq_false in Hch, Hnone.
        destruct (fh1 !! entry_path x) as [h|] eqn:Hh; [|done].
        exists h. repeat split.
        destruct (decide (entry_path x ∈ paths_of pre)) as [Hin|Hnin].
        + destruct (Hin1 _ Hin) as (h' & Hh' & HP). congruence.
        + apply Hcached; [exact Hx | exact Hch |]. by rewrite <- Hout1. }
    destruct Hstep as (h & -> & Hh & HP). cbn [fst snd].
    unfold paths_of. rewrite map_app. cbn [map]. fold (paths_of pre).
    split; [|split].
    + intros path Hin. destruct (decide (path = entry_path x)) as [->|Hne].
      * by exists h.
      * apply elem_of_app in Hin as [Hin|Hin];
          [|apply list_elem_of_singleton in Hin; congruence].
        destruct (Hin1 _ Hin) as (h' & Hh' & HP'). exists h'. split; [|done].
        destruct (recomputed _ _ _); [by rewrite lookup_insert_ne | done].
    + intros path Hnin.
      assert (Hne : entry_path x <> path).
      { intros <-. apply Hnin, elem_of_app. right. by left. }
      assert (Hnin1 : path ∉ paths_of pre).
      { intros Hin. apply Hnin, elem_of_app. by left. }
      rewrite <- (Hout1 _ Hnin1).
      destruct (recomputed _ _ _); [by rewrite lookup_insert_ne | done].
    + exists (served ++ [h]). split.
      * unfold merge_all. rewrite foldl_app. cbn [foldl]. by rewrite Hsum.
      * apply Forall2_app; [exact Hserved|]. by repeat constructor.
Qed.

(** Every histogram of the cache was computed by [get_file_histogram] for
    its path, at some commit; and so was every histogram served. *)
Lemma loop_entries (P : string -> hist -> Prop) (curves_set : gset key) :
  (forall commit path h, fresh_histogram commit path = Some h -> P path h) ->
  forall checkpoints st,
    loop_pure curves_set checkpoints = Some st ->
    (forall path h, file_histograms st !! path = Some h -> P path h)
    /\ exists served,
        histogram st = merge_all served ∅
        /\ Forall (fun h => exists path, P path h) served.
Proof.
  intros Hfresh. induction checkpoints as [|commit pre IH] using rev_ind; intros st Hrun.
  - injection Hrun as <-. cbn. split; [intros path h; by rewrite lookup_empty|].
    exists []. split; [done | constructor].
  - rewrite loop_pure_snoc in Hrun.
    destruct (loop_pure curves_set pre) as [st1|]; [|done]. cbn in Hrun.
    destruct (IH st1 eq_refl) as (Hent & _).
    unfold checkpoint_pure in Hrun.
    destruct (fold_option _ _ _) as [acc|] eqn:Hvisit; [|done].
    cbn in Hrun. injection Hrun as <-. cbn [file_histograms histogram].
    destruct (visit_serves P commit _ _ _ _
                (fun blob h _ Hf => Hfresh commit _ h Hf)
                (fun blob h _ _ Hc => Hent _ h Hc) acc Hvisit)
      as (Hin & Hout & served & Hsum & Hserved).
    split.
    + intros path h Hh. destruct (decide (path ∈ paths_of (tracked commit))) as [Hp|Hp].
      * destruct (Hin _ Hp) as (h' & Hh' & HP). congruence.
      * rewrite (Hout _ Hp) in Hh. by eapply Hent.
    + exists served. split; [exact Hsum|].
      clear -Hserved. induction Hserved; constructor; eauto.
Qed.

Lemma consecutive_prefix (R : Commit -> Commit -> Prop) (l : list Commit) x :
  consecutive R (l ++ [x]) -> consecutive R l.
Proof.
  intros H pre prev cur post ->. apply (H pre prev cur (post ++ [x])).
  by rewrite <- !app_assoc.
Qed.

Lemma loop_serves (Good : Commit -> string -> hist -> Prop)
      (curves_set : gset key) :
  (forall commit path h, fresh_histogram commit path = Some h -> Good commit path h) ->
  forall checkpoints commit st,
    consecutive (carried Good) (checkpoints ++ [commit]) ->
    loop_pure curves_set (checkpoints ++ [commit]) = Some st ->
    last_commit st = Some commit
    /\ (forall path, path ∈ paths_of (tracked commit) ->
                     exists h, file_histograms st !! path = Some h
                               /\ Good commit path h)
    /\ exists served,
        histogram st = merge_all served ∅
        /\ Forall2 (fun blob h => Good commit (entry_path blob) h)
                   (tracked commit) served.
Proof.
  intros Hfresh.
  induction checkpoints as [|prev pre IH] using rev_ind; intros commit st Hcons Hrun.
  - cbn [app] in Hrun. unfold loop_pure in Hrun. cbn [fold_option] in Hrun.
    destruct (checkpoint_pure curves_set initial_loop commit) as [st'|] eqn:Hcp;
      [|done].
    cbn in Hrun. injection Hrun as ->.
    unfold checkpoint_pure in Hcp.
    destruct (fold_option _ _ _) as [acc|] eqn:Hvisit; [|done].
    cbn in Hcp. injection Hcp as <-. cbn [file_histograms histogram last_commit].
    pose proof (fun Hc => visit_serves (Good commit) commit _ _ _ _
                            (fun blob h _ Hf => Hfresh commit _ h Hf)
                            Hc acc Hvisit) as Hv.
    destruct Hv as (Hin & _ & served & Hsum & Hserved).
    { intros blob h _ _ Hc. cbn in Hc. by rewrite lookup_empty in Hc. }
    split; [done|]. split; [exact Hin|]. by exists served.
  - rewrite loop_pure_snoc in Hrun.
    destruct (loop_pure curves_set (pre ++ [prev])) as [st1|] eqn:Hpre; [|done].
    cbn in Hrun.
    destruct (IH prev st1 (consecutive_prefix _ _ _ Hcons) Hpre)
      as (Hlast & Hent & _).
    assert (Hcar : carried Good prev commit).
    { apply (Hcons pre prev commit []). by rewrite <- app_assoc. }
    unfold checkpoint_pure in Hrun. rewrite Hlast in Hrun.
    destruct (fold_option _ _ _) as [acc|] eqn:Hvisit; [|done].
    cbn in Hrun. injection Hrun as <-. cbn [file_histograms histogram last_commit].
    pose proof (fun Hc => visit_serves (Good commit) commit _ _ _ _
                            (fun blob h _ Hf => Hfresh commit _ h Hf)
                            Hc acc Hvisit) as Hv.
    destruct Hv as (Hin & _ & served & Hsum & Hserved).
    { intros blob h Hb Hch Hc. destruct (Hcar blob Hb Hch) as [Hp Hgood].
      destruct (Hent _ Hp) as (h' & Hh' & HG). apply Hgood. congruence. }
    split; [done|]. split; [exact Hin|]. by exists served.
Qed.

(** *** C4: the cache *)

(** C4, as the code has it.  Take checkpoints such that, for every two in a
    row, a path that the diff does not report has the same blame at both.
    Then at the last checkpoint processed the histogram served for every
    blob, and kept in the cache for its path, is the one that
    [get_file_histogram] returns when called at that checkpoint. *)
Theorem C4_cache_serves_fresh_histogram (curves_set : gset key)
        (checkpoints : list Commit) (commit : Commit) (s : State)
        (st : Loop) (s' : State) :
  cache_ok s ->
  consecutive blame_carried (checkpoints ++ [commit]) ->
  analyze_loop curves_set (checkpoints ++ [commit]) s = Ok st s' ->
  (forall blob,
      blob ∈ tracked commit ->
      exists h s'',
        file_histograms st !! entry_path blob = Some h
        /\ get_file_histogram commit (entry_path blob) s' = Ok h s'')
  /\ exists served,
      histogram st = merge_all served ∅
      /\ Forall2 (fun blob h =>
                    exists s'', get_file_histogram commit (entry_path blob) s'
                                = Ok h s'')
                 (tracked commit) served.
Proof.
  intros Hs Hcons Hrun.
  destruct (simulates_Ok _ _ _ _ _ (simulates_analyze_loop _ _) Hs Hrun)
    as [Hpure Hs'].
  destruct (loop_serves (fun c p h => fresh_histogram c p = Some h) curves_set
                        (fun c p h E => E) checkpoints commit st)
    as (_ & Hent & served & Hsum & Hserved); [|exact Hpure|].
  { intros pre prev cur post E blob Hb Hch.
    destruct (Hcons pre prev cur post E blob Hb Hch) as [Hp Hbl].
    split; [exact Hp|]. intros h. unfold fresh_histogram. by rewrite Hbl. }
  assert (Hfresh : forall path h,
             fresh_histogram commit path = Some h ->
             exists s'', get_file_histogram commit path s' = Ok h s'').
  { intros path h Hf. pose proof (simulates_get_file_histogram commit path s' Hs') as H.
    rewrite Hf in H. destruct H as (s'' & H & _). eauto. }
  split.
  - intros blob Hb.
    destruct (Hent (entry_path blob)) as (h & Hh & Hf).
    { unfold paths_of. apply list_elem_of_fmap. eauto. }
    destruct (Hfresh _ _ Hf) as (s'' & Hg). eauto.
  - exists served. split; [exact Hsum|].
    eapply Forall2_impl; [exact Hserved|]. intros blob h Hf. cbn in Hf. eauto.
Qed.

(** *** C6: the totals of a checkpoint *)

Lemma fresh_histogram_total (key_type : string) (commit : Commit)
      (path : string) (h : hist) :
  key_type ∈ ["cohort"; "ext"; "author"; "filesize"] ->
  fresh_histogram commit path = Some h ->
  total key_type h = blamed_lines commit path.
Proof.
  intros Hin. unfold fresh_histogram, blamed_lines.
  destruct (blame repo commit path) as [[|what]|hunks]; [done|..].
  - intros [= <-]. apply total_empty.
  - intros [= <-]. by apply total_file_histogram.
Qed.

(** The histogram of a checkpoint is a sum of histograms that
    [get_file_histogram] computed, each of which is balanced. *)
Lemma loop_histogram_balanced (curves_set : gset key) (checkpoints : list Commit)
      (st : Loop) :
  loop_pure curves_set checkpoints = Some st -> balanced (histogram st).
Proof.
  intros Hpure.
  destruct (loop_entries (fun _ h => balanced h) curves_set) with
    (checkpoints := checkpoints) (st := st)
    as (_ & served & -> & Hserved); [|exact Hpure|].
  - intros c p h Hf. split.
    + rewrite !(fresh_histogram_total _ c p h) by first [done | repeat constructor]. done.
    + rewrite !(fresh_histogram_total _ c p h) by first [done | repeat constructor]. done.
  - unfold balanced. rewrite !total_merge_all, !total_empty. cbn [Nat.add].
    induction Hserved as [|h served (_ & [H1 H2]) _ [IH1 IH2]]; [done|].
    cbn [map]. rewrite !list_sum_cons. lia.
Qed.

(** The sum of a checkpoint is the number of lines that blame gives for its
    tracked blobs, when a path that the diff does not report keeps its
    blamed lines from one checkpoint to the next. *)
Lemma loop_cohort_total_blamed (curves_set : gset key) (checkpoints : list Commit)
      (commit : Commit) (st : Loop) :
  consecutive lines_carried (checkpoints ++ [commit]) ->
  loop_pure curves_set (checkpoints ++ [commit]) = Some st ->
  total "cohort" (histogram st) = live_lines commit.
Proof.
  intros Hcons Hpure.
  destruct (loop_serves (fun c p h => total "cohort" h = blamed_lines c p)
                        curves_set) with
    (checkpoints := checkpoints) (commit := commit) (st := st)
    as (_ & _ & served & -> & Hserved); [..|exact Hpure|].
  - intros c p h Hf. apply fresh_histogram_total; [repeat constructor | exact Hf].
  - intros pre prev cur post E blob Hb Hch.
    destruct (Hcons pre prev cur post E blob Hb Hch) as [Hp Hl].
    split; [exact Hp|]. intros h. by rewrite Hl.
  - rewrite total_merge_all, total_empty. cbn [Nat.add]. unfold live_lines.
    induction Hserved as [|blob h blobs served Hh _ IH]; [done|].
    cbn [map]. rewrite !list_sum_cons. lia.
Qed.

Lemma blame_complete_lines (line_count : Commit -> string -> nat)
      (commit : Commit) (path : string) :
  blame_complete line_count commit ->
  path ∈ paths_of (tracked commit) ->
  blamed_lines commit path = line_count commit path.
Proof.
  intros Hc Hp. unfold paths_of in Hp.
  apply list_elem_of_fmap in Hp as (blob & -> & Hb).
  destruct (Hc blob Hb) as (hunks & Hblame & Hlines).
  unfold blamed_lines. by rewrite Hblame.
Qed.

Lemma blame_complete_carried (line_count : Commit -> string -> nat)
      (l : list Commit) :
  Forall (blame_complete line_count) l ->
  consecutive (lines_kept line_count) l ->
  consecutive lines_carried l.
Proof.
  intros Hall Hkept pre prev cur post E blob Hb Hch.
  destruct (Hkept pre prev cur post E blob Hb Hch) as [Hp Hl].
  split; [exact Hp|].
  assert (Hprev : blame_complete line_count prev).
  { eapply Forall_forall; [exact Hall|]. rewrite E.
    apply elem_of_app. right. apply list_elem_of_here. }
  assert (Hcur : blame_complete line_count cur).
  { eapply Forall_forall; [exact Hall|]. rewrite E.
    apply elem_of_app. right. apply list_elem_of_further, list_elem_of_here. }
  rewrite (blame_complete_lines _ _ _ Hprev Hp).
  rewrite (blame_complete_lines _ _ _ Hcur); [exact Hl|].
  unfold paths_of. apply list_elem_of_fmap. by exists blob.
Qed.

Lemma blame_complete_live_lines (line_count : Commit -> string -> nat)
      (commit : Commit) :
  blame_complete line_count commit ->
  live_lines commit = trackable_lines line_count commit.
Proof.
  intros Hc. unfold live_lines, trackable_lines. f_equal.
  apply map_ext_in. intros blob Hb. apply blame_complete_lines; [exact Hc|].
  unfold paths_of. apply list_elem_of_fmap. exists blob.
  split; [done | by apply list_elem_of_In].
Qed.

(** C6, as the code has it.  In the histogram of every checkpoint the
    ['cohort'] counts, the ['ext'] counts and the ['author'] counts have the
    same sum.  That sum is the number of lines that [repo.blame] gives for
    the tracked blobs of the checkpoint, a blob on which it raises giving
    none, when between two checkpoints in a row a path that the diff does
    not report keeps its blamed lines.  It is the number of lines of the
    tracked files of the checkpoint when, moreover, [repo.blame] returns
    for every tracked file of every checkpoint with all the lines of the
    file: [line_count] gives the lines of the files. *)
Theorem C6_dimension_totals_agree (curves_set : gset key)
        (checkpoints : list Commit) (commit : Commit)
        (line_count : Commit -> string -> nat) (s : State)
        (st : Loop) (s' : State) :
  cache_ok s ->
  analyze_loop curves_set (checkpoints ++ [commit]) s = Ok st s' ->
  total "cohort" (histogram st) = total "ext" (histogram st)
  /\ total "ext" (histogram st) = total "author" (histogram st)
  /\ (consecutive lines_carried (checkpoints ++ [commit]) ->
      total "cohort" (histogram st) = live_lines commit)
  /\ (Forall (blame_complete line_count) (checkpoints ++ [commit]) ->
      consecutive (lines_kept line_count) (checkpoints ++ [commit]) ->
      total "cohort" (histogram st) = trackable_lines line_count commit).
Proof.
  intros Hs Hrun.
  pose proof (analyze_loop_Ok _ _ _ _ _ Hs Hrun) as Hpure.
  destruct (loop_histogram_balanced _ _ _ Hpure) as [H1 H2].
  split; [exact H1|]. split; [exact H2|]. split.
  - intros Hcons. by apply (loop_cohort_total_blamed curves_set checkpoints).
  - intros Hall Hkept.
    rewrite (loop_cohort_total_blamed curves_set checkpoints commit st);
      [|by apply (blame_complete_carried line_count) | exact Hpure].
    apply blame_complete_live_lines.
    eapply Forall_forall; [exact Hall|]. apply elem_of_app. right.
    apply list_elem_of_here.
Qed.

(** *** C9: lines of a commit that the listing did not see *)

(** C9, as the code has it.  Every line that [repo.blame] gives to a commit
    that is not in [commit2cohort] is counted, under the key
    [('cohort', 'MISSING')]; so in the histogram of the file the cohort
    keys, the extension keys and the author keys each add up to the number
    of lines of the blame, and in the histogram of the checkpoint the three
    sums are equal. *)
Theorem C9_missing_cohort_is_counted (commit : Commit) (path : string)
        (hunks : list (Commit * list string)) (s : State) :
  cache_ok s ->
  blame repo commit path = inr hunks ->
  (exists h s',
      get_file_histogram commit path s = Ok h s'
      /\ missing_lines hunks <= default 0 (h !! ("cohort", VStr "MISSING"))
      /\ total "cohort" h = hunk_lines hunks
      /\ total "ext" h = hunk_lines hunks
      /\ total "author" h = hunk_lines hunks)
  /\ forall curves_set checkpoints s0 st s1,
      cache_ok s0 ->
      analyze_loop curves_set (checkpoints ++ [commit]) s0 = Ok st s1 ->
      total "cohort" (histogram st) = total "ext" (histogram st)
      /\ total "cohort" (histogram st) = total "author" (histogram st).
Proof.
  intros Hs Hblame. split.
  - pose proof (get_file_histogram_spec commit path s Hs) as Hspec.
    rewrite Hblame in Hspec. destruct Hspec as (s' & Hrun & _).
    exists (file_histogram path hunks), s'. split; [exact Hrun|].
    split.
    + rewrite count_file_histogram. unfold missing_lines.
      clear Hrun Hblame. induction hunks as [|hunk hunks IH]; [done|].
      cbn [map]. refine (Nat.add_le_mono _ _ _ _ _ IH).
      rewrite occurrences_cohort. unfold cohort_label.
      destruct (commit2cohort !! hexsha hunk.1) as [label|]; cbn [default].
      * rewrite (bool_decide_eq_false_2 (Some _ = None)) by done. lia.
      * rewrite (bool_decide_eq_true_2 (None = None)) by done. unfold id.
        rewrite bool_decide_eq_true_2 by done. lia.
    + repeat split; apply total_file_histogram; repeat constructor.
  - intros curves_set checkpoints s0 st s1 Hs0 Hrun.
    pose proof (analyze_loop_Ok _ _ _ _ _ Hs0 Hrun) as Hpure.
    destruct (loop_histogram_balanced _ _ _ Hpure) as [H1 H2].
    split; congruence.
Qed.

(** *** C5: the survival series *)

Lemma occurrences_sha (id : value) (path : string) (old_commit : Commit)
      (blobs : list Entry) :
  occurrences ("sha", id) (blame_keys path old_commit blobs) =
  if bool_decide (is_Some (commit2timestamp !! hexsha old_commit))
  then if bool_decide (id = VStr (hexsha old_commit)) then 1 else 0
  else 0.
Proof.
  unfold occurrences, blame_keys.
  rewrite List.filter_app, length_app. cbn [List.filter].
  destruct (bool_decide (is_Some _)); cbn [List.filter];
    repeat case_bool_decide; congruence || reflexivity.
Qed.

Lemma fresh_histogram_sha_keys (commit : Commit) (path : string) (h : hist) :
  fresh_histogram commit path = Some h -> sha_keys_listed h.
Proof.
  unfold fresh_histogram.
  destruct (blame repo commit path) as [[|what]|hunks]; [done|..].
  - intros [= <-] id [n Hn]. by rewrite lookup_empty in Hn.
  - intros [= <-] id [n Hn].
    destruct (decide (Forall (fun hunk : Commit * list string =>
                                occurrences ("sha", id)
                                  (blame_keys path hunk.1 (tracked hunk.1)) = 0)
                             hunks)) as [Hno|Hyes].
    + rewrite lookup_file_histogram_None in Hn; [done|].
      intros hunk Hin. by eapply Forall_forall in Hno.
    + apply not_Forall_Exists in Hyes; [|apply _].
      apply Exists_exists in Hyes as (hunk & _ & Hocc). unfold compose in Hocc.
      rewrite occurrences_sha in Hocc.
      case_bool_decide; [|done]. case_bool_decide; [|done]. eauto.
Qed.

Lemma merge_file_sha_keys (h histogram : hist) :
  sha_keys_listed h -> sha_keys_listed histogram ->
  sha_keys_listed (merge_file h histogram).
Proof.
  intros Hh Hhist id. rewrite lookup_merge_file.
  destruct (h !! (("sha", id) : key)) as [n|] eqn:E.
  - intros _. apply (Hh id). exists n. exact E.
  - exact (Hhist id).
Qed.


(** *** C7: the series *)

Lemma checkpoint_pure_curves (curves_set : gset key) (st : Loop)
      (commit : Commit) (st' : Loop) (k : key) :
  checkpoint_pure curves_set st commit = Some st' ->
  curves st' !! k =
  if decide (k ∈ curves_set)
  then Some (default [] (curves st !! k) ++ [default 0 (histogram st' !! k)])
  else curves st !! k.
Proof.
  unfold checkpoint_pure. destruct (fold_option _ _ _) as [acc|]; [|done].
  cbn. intros [= <-]. cbn [curves histogram]. apply lookup_record_curves.
Qed.

Lemma loop_pure_curves (curves_set : gset key) (checkpoints : list Commit)
      (st : Loop) (k : key) :
  loop_pure curves_set checkpoints = Some st ->
  (k ∉ curves_set -> curves st !! k = None)
  /\ (k ∈ curves_set ->
      length (default [] (curves st !! k)) = length checkpoints
      /\ length (ts st) = length checkpoints
      /\ forall pre commit post sti,
          checkpoints = pre ++ commit :: post ->
          loop_pure curves_set (pre ++ [commit]) = Some sti ->
          default [] (curves st !! k) !! length pre
          = Some (default 0 (histogram sti !! k))).
Proof.
  revert st. induction checkpoints as [|c cs IH] using rev_ind; intros st Hrun.
  - injection Hrun as <-. cbn [curves initial_loop ts].
    rewrite lookup_empty. split; [done|]. intros _. repeat split.
    intros pre commit post sti E. by destruct pre.
  - rewrite loop_pure_snoc in Hrun.
    destruct (loop_pure curves_set cs) as [st1|] eqn:Hpre; [|done].
    cbn in Hrun. destruct (IH st1 eq_refl) as [Hout Hin].
    rewrite (checkpoint_pure_curves _ _ _ _ k Hrun).
    split; intros Hk.
    + rewrite decide_False by done. by apply Hout.
    + rewrite decide_True by done. destruct (Hin Hk) as (Hlen & Hts & Hval).
      set (series := default [] (curves st1 !! k)) in *.
      change (default [] (Some ?l)) with l.
      rewrite !length_app, Hlen. cbn [length].
      split; [done|]. split.
      * unfold checkpoint_pure in Hrun.
        destruct (fold_option _ _ _) as [acc|]; [|done].
        cbn in Hrun. injection Hrun as <-. cbn [ts].
        rewrite length_app, Hts. done.
      * intros pre commit post sti E Hsti.
        destruct post as [|x post _] using rev_ind.
        -- apply app_inj_tail in E as [-> ->].
           rewrite loop_pure_snoc, Hpre in Hsti. cbn in Hsti.
           assert (sti = st) as -> by congruence.
           rewrite lookup_app_r by lia. by rewrite Hlen, Nat.sub_diag.
        -- rewrite app_comm_cons, app_assoc in E.
           apply app_inj_tail in E as [-> ->].
           rewrite lookup_app_l.
           ++ by eapply Hval.
           ++ rewrite Hlen, length_app. cbn [length]. lia.
Qed.

(** The loop over the checkpoints is given the set of keys, and when it has
    run: a key outside the set has no series; each key of the set has a
    series with as many counts as there are checkpoints, and so has [ts];
    the count at the place of a checkpoint is the count of the key in the
    histogram of that checkpoint, zero when the key is not in it. *)
Lemma loop_series_aligned (curves_set : gset key)
        (checkpoints : list Commit) (s : State) (st : Loop) (s' : State) :
  cache_ok s ->
  analyze_loop curves_set checkpoints s = Ok st s' ->
  (forall k, k ∉ curves_set -> curves st !! k = None)
  /\ length (ts st) = length checkpoints
  /\ forall k,
      k ∈ curves_set ->
      length (default [] (curves st !! k)) = length checkpoints
      /\ forall pre commit post sti si,
          checkpoints = pre ++ commit :: post ->
          analyze_loop curves_set (pre ++ [commit]) s = Ok sti si ->
          default [] (curves st !! k) !! length pre
          = Some (default 0 (histogram sti !! k)).
Proof.
  intros Hs Hrun. pose proof (analyze_loop_Ok _ _ _ _ _ Hs Hrun) as Hpure.
  split; [|split].
  - intros k. by apply (loop_pure_curves _ _ _ k Hpure).
  - clear Hrun. revert st Hpure.
    induction checkpoints as [|c cs IH] using rev_ind; intros st Hpure.
    + by injection Hpure as <-.
    + rewrite loop_pure_snoc in Hpure.
      destruct (loop_pure curves_set cs) as [st1|]; [|done]. cbn in Hpure.
      unfold checkpoint_pure in Hpure.
      destruct (fold_option _ _ _) as [acc|]; [|done].
      cbn in Hpure. injection Hpure as <-. cbn [ts].
      rewrite !length_app, (IH st1 eq_refl). done.
  - intros k Hk.
    destruct (proj2 (loop_pure_curves _ _ _ k Hpure) Hk) as (Hlen & _ & Hval).
    split; [exact Hlen|].
    intros pre commit post sti si E Hsti. eapply Hval; [exact E|].
    by eapply analyze_loop_Ok.
Qed.

(** *** The whole run *)

(** [analyze] is the loop over the checkpoints of the sampler, run with the
    keys that the listing and the counting pass have collected. *)
Lemma analyze_Ok (s : State) (out : Output) (s' : State) :
  cache_ok s ->
  analyze s = Ok out s' ->
  exists curves_set s1 st,
    count_entries (listed_curves listing) s
    = Ok curves_set s1
    /\ cache_ok s1
    /\ analyze_loop curves_set (reverse master_commits) s1 = Ok st s'
    /\ out = mkOutput curves_set (curves st) (ts st) (commit_history st).
Proof.
  intros Hs Hrun. unfold analyze in Hrun.
  apply bind_Ok in Hrun as (curves_set & s1 & Hcount & Hrun).
  apply bind_Ok in Hrun as (st & s2 & Hloop & Hret).
  injection Hret as <- <-.
  destruct (count_entries_spec (listed_curves listing)
                               s Hs) as (s1' & Hcount' & Hc & _).
  assert (s1' = s1) as -> by congruence.
  exists curves_set, s1, st. by repeat split.
Qed.

(** Faults of [repo.blame] do not stop the run: with the other calls of
    the loops returning, as they do in this model, [analyze] returns unless
    a call of [repo.blame] is interrupted. *)
Lemma analyze_returns (s : State) :
  cache_ok s ->
  (forall commit path, blame repo commit path <> inl KeyboardInterrupt) ->
  exists out s', analyze s = Ok out s'.
Proof.
  intros Hs Hblame.
  assert (Hfresh : forall commit path, is_Some (fresh_histogram commit path)).
  { intros commit path. unfold fresh_histogram. specialize (Hblame commit path).
    destruct (blame repo commit path) as [[|what]|hunks]; [done | eauto..]. }
  assert (Hvisit : forall commit changed_files blobs acc,
             is_Some (fold_option (visit_pure commit changed_files) blobs acc)).
  { intros commit changed_files blobs.
    induction blobs as [|blob blobs IH]; intros acc; [by eexists|].
    cbn [fold_option].
    assert (Hv : is_Some (visit_pure commit changed_files acc blob)).
    { unfold visit_pure.
      destruct (recomputed changed_files acc.1 (entry_path blob)); cbn;
        [destruct (Hfresh commit (entry_path blob)) as [h ->]; cbn|]; eauto. }
    destruct Hv as [acc' ->]. cbn. apply IH. }
  assert (Hloop : forall curves_set checkpoints st,
             is_Some (fold_option (checkpoint_pure curves_set) checkpoints st)).
  { intros curves_set checkpoints.
    induction checkpoints as [|commit checkpoints IH]; intros st; [by eexists|].
    cbn [fold_option].
    assert (Hc : is_Some (checkpoint_pure curves_set st commit)).
    { unfold checkpoint_pure.
      destruct (Hvisit commit
                  (changed_paths (diff repo commit (last_commit st)))
                  (tracked commit) (file_histograms st, ∅)) as [acc ->].
      cbn. eauto. }
    destruct Hc as [st' ->]. cbn. apply IH. }
  destruct (count_entries_spec (listed_curves listing)
                               s Hs) as (s1 & Hcount & Hs1 & _).
  destruct (Hloop (foldl (fun cs commit => foldl count_blob cs (tracked commit))
                         (listed_curves listing)
                         (reverse master_commits))
                  (reverse master_commits) initial_loop) as [st Hst].
  pose proof (simulates_analyze_loop
                (foldl (fun cs commit => foldl count_blob cs (tracked commit))
                       (listed_curves listing)
                       (reverse master_commits))
                (reverse master_commits) s1 Hs1) as Hsim.
  unfold loop_pure in Hsim. rewrite Hst in Hsim. destruct Hsim as (s2 & Hrun & _).
  eexists _, s2. unfold analyze, bind. rewrite Hcount, Hrun. reflexivity.
Qed.

Lemma consecutive_two (R : Commit -> Commit -> Prop) (a b : Commit) :
  R a b -> consecutive R [a; b].
Proof.
  intros HR pre prev cur post E.
  destruct pre as [|x [|y pre]].
  - by injection E as <- <- _.
  - injection E as _ E. by destruct post.
  - injection E as _ _ E. by destruct pre.
Qed.

(** ** The totals of the series *)

Lemma key_sum_elements (key_type : string) (f : key -> nat) (X : gset key) :
  key_sum key_type f X =
  list_sum (map (fun k => if String.eqb k.1 key_type then f k else 0) (elements X)).
Proof.
  unfold key_sum, set_fold. cbn [compose].
  induction (elements X) as [|k l IH]; [reflexivity|].
  cbn [foldr map]. rewrite list_sum_cons, IH.
  destruct (String.eqb k.1 key_type); reflexivity.
Qed.

Lemma key_sum_ext (key_type : string) (f g : key -> nat) (X : gset key) :
  (forall k, k ∈ X -> f k = g k) -> key_sum key_type f X = key_sum key_type g X.
Proof.
  intros Hfg. rewrite !key_sum_elements. f_equal. apply map_ext_in.
  intros k Hk. apply list_elem_of_In, elem_of_elements in Hk.
  by rewrite (Hfg k Hk).
Qed.

(** A sum over a list without duplicates, when the summand changes at one
    point. *)
Lemma list_sum_update (l : list key) (g g' : key -> nat) (k0 : key) :
  NoDup l ->
  (forall k, k <> k0 -> g' k = g k) ->
  list_sum (map g' l) + (if decide (k0 ∈ l) then g k0 else 0)
  = list_sum (map g l) + (if decide (k0 ∈ l) then g' k0 else 0).
Proof.
  intros Hnd Hother. induction Hnd as [|k l Hk Hnd IH]; [reflexivity|].
  cbn [map]. rewrite !list_sum_cons.
  destruct (decide (k = k0)) as [-> | Hne].
  - destruct (decide (k0 ∈ l)) as [Hin|_]; [done|].
    destruct (decide (k0 ∈ k0 :: l)) as [_|Hnin]; [lia|].
    exfalso. apply Hnin. by left.
  - rewrite (Hother k Hne). destruct (decide (k0 ∈ l)) as [Hin|Hnin].
    + destruct (decide (k0 ∈ k :: l)) as [_|Hnin]; [lia|].
      exfalso. apply Hnin. by right.
    + destruct (decide (k0 ∈ k :: l)) as [Hin|_]; [|lia].
      apply elem_of_cons in Hin as [?|?]; congruence.
Qed.

(** The counts of a histogram summed over a set that has all its keys of
    one type: the total of the type. *)
Lemma key_sum_total (key_type : string) (h : hist) (X : gset key) :
  (forall k, k.1 = key_type -> is_Some (h !! k) -> k ∈ X) ->
  key_sum key_type (fun k => default 0 (h !! k)) X = total key_type h.
Proof.
  induction h as [|k0 n m Hk0 IH] using map_ind; intros Hkeys.
  - rewrite total_empty, key_sum_elements.
    induction (elements X) as [|k l IHl]; [reflexivity|].
    cbn [map]. rewrite list_sum_cons, IHl, lookup_empty.
    by destruct (String.eqb k.1 key_type).
  - rewrite total_insert by exact Hk0.
    rewrite <- IH.
    2:{ intros k Hk [x Hx]. apply Hkeys; [exact Hk|].
        rewrite lookup_insert_ne; [by exists x|].
        intros ->. pose proof (eq_trans (eq_sym Hk0) Hx) as Hcontra.
        discriminate Hcontra. }
    rewrite !key_sum_elements.
    set (g := fun k : key =>
                if String.eqb k.1 key_type then default 0 (m !! k) else 0).
    set (g' := fun k : key =>
                 if String.eqb k.1 key_type
                 then default 0 (<[k0 := n]> m !! k) else 0).
    assert (Hg0 : g k0 = 0).
    { unfold g. rewrite Hk0. by destruct (String.eqb k0.1 key_type). }
    assert (Hg'0 : g' k0 = weight key_type k0 n).
    { unfold g', weight. by rewrite lookup_insert_eq. }
    assert (Hother : forall k, k <> k0 -> g' k = g k).
    { intros k Hne. unfold g, g'. by rewrite lookup_insert_ne. }
    pose proof (list_sum_update (elements X) g g' k0 (NoDup_elements X) Hother)
      as Hup.
    rewrite Hg0, Hg'0 in Hup.
    change (list_sum (map g' (elements X))
            = weight key_type k0 n + list_sum (map g (elements X))).
    destruct (decide (k0 ∈ elements X)) as [Hin|Hnin]; [lia|].
    assert (Hw : weight key_type k0 n = 0); [|lia].
    unfold weight. destruct (String.eqb k0.1 key_type) eqn:E; [|done].
    exfalso. apply Hnin, elem_of_elements, Hkeys.
    + by apply String.eqb_eq.
    + rewrite lookup_insert_eq. by eexists.
Qed.

(** The series of one dimension add up to the totals of the histograms of
    the checkpoints, when the set of keys has the keys of that dimension. *)
Lemma record_curves_sum (key_type : string) (curves_set : gset key)
      (histogram : hist) (curves : gmap key (list nat)) (n : nat) :
  (forall k, k ∈ curves_set -> length (default [] (curves !! k)) = n) ->
  (forall k, k.1 = key_type -> is_Some (histogram !! k) -> k ∈ curves_set) ->
  key_sum key_type
          (fun k => default 0 (default [] (record_curves curves_set histogram curves !! k)
                                 !! n))
          curves_set
  = total key_type histogram.
Proof.
  intros Hlen Hkeys. rewrite <- (key_sum_total key_type histogram curves_set Hkeys).
  apply key_sum_ext. intros k Hk.
  rewrite lookup_record_curves, decide_True by exact Hk.
  change (default [] (Some ?l)) with l.
  rewrite lookup_app_r by (rewrite (Hlen k Hk); lia).
  by rewrite (Hlen k Hk), Nat.sub_diag.
Qed.

(** ** The histogram of a file, key by key *)

Lemma lookup_foldl_add_count (k : key) (n : nat) (keys : list key) (h : hist) :
  foldl (fun h key => add_count h key n) h keys !! k =
  if Nat.eqb (occurrences k keys) 0 then h !! k
  else Some (default 0 (h !! k) + n * occurrences k keys).
Proof.
  revert h. induction keys as [|k' keys IH]; intros h; cbn [foldl]; [done|].
  rewrite IH, lookup_add_count. unfold occurrences. cbn [List.filter].
  destruct (decide (k' = k)) as [-> | Hne].
  - rewrite bool_decide_eq_true_2 by done. cbn [length Nat.eqb default]. unfold id.
    destruct (Nat.eqb (length _) 0) eqn:E.
    + apply Nat.eqb_eq in E. rewrite E. f_equal. lia.
    + f_equal. lia.
  - rewrite bool_decide_eq_false_2 by done. reflexivity.
Qed.

(** How often a key is among the keys of the hunks of a blame. *)
Lemma lookup_file_histogram (k : key) (path : string)
      (hunks : list (Commit * list string)) :
  file_histogram path hunks !! k =
  if Nat.eqb (list_sum (map (fun hunk : Commit * list string =>
                               occurrences k (blame_keys path hunk.1 (tracked hunk.1)))
                            hunks)) 0
  then None
  else Some (list_sum (map (fun hunk : Commit * list string =>
                              length hunk.2
                              * occurrences k (blame_keys path hunk.1 (tracked hunk.1)))
                           hunks)).
Proof.
  induction hunks as [|hunk hunks IH] using rev_ind; [apply lookup_empty|].
  pose proof (count_file_histogram k path hunks) as Hcount.
  unfold file_histogram in *. rewrite foldl_app. cbn [foldl].
  unfold hunk_counts at 1. rewrite lookup_foldl_add_count.
  rewrite !map_app, !list_sum_app. cbn [map]. rewrite !list_sum_cons. cbn [list_sum fold_right].
  rewrite Hcount.
  destruct (Nat.eqb (occurrences k (blame_keys path hunk.1 (tracked hunk.1))) 0) eqn:E.
  - apply Nat.eqb_eq in E. rewrite E, IH, !Nat.add_0_r, Nat.mul_0_r, Nat.add_0_r.
    reflexivity.
  - apply Nat.eqb_neq in E.
    destruct (Nat.eqb (_ + _) 0) eqn:E'; [apply Nat.eqb_eq in E'; lia|].
    f_equal. lia.
Qed.

(** ** The run, from what the loop computes *)

Lemma count_entries_universe (s : State) :
  cache_ok s ->
  exists s', count_entries (listed_curves listing) s = Ok curves_universe s'
             /\ cache_ok s'.
Proof.
  intros Hs. destruct (count_entries_spec (listed_curves listing) s Hs)
    as (s' & Hrun & Hs' & _).
  by exists s'.
Qed.

Lemma analyze_pure (s : State) (st : Loop) :
  cache_ok s ->
  loop_pure curves_universe (reverse master_commits) = Some st ->
  exists s',
    analyze s
    = Ok (mkOutput curves_universe (curves st) (ts st) (commit_history st)) s'.
Proof.
  intros Hs Hst. destruct (count_entries_universe s Hs) as (s1 & Hcount & Hs1).
  pose proof (simulates_analyze_loop curves_universe (reverse master_commits) s1 Hs1)
    as Hsim.
  rewrite Hst in Hsim. destruct Hsim as (s2 & Hrun & _).
  exists s2. unfold analyze, bind. by rewrite Hcount, Hrun.
Qed.

Lemma count_blobs_extensive (blobs : list Entry) (curves_set : gset key) (k : key) :
  k ∈ curves_set -> k ∈ foldl count_blob curves_set blobs.
Proof.
  revert curves_set. induction blobs as [|blob blobs IH]; intros X Hk; [exact Hk|].
  cbn [foldl]. apply IH. unfold count_blob.
  apply elem_of_union_r, elem_of_union_r, Hk.
Qed.

Lemma curves_universe_listed (k : key) :
  k ∈ listed_curves listing -> k ∈ curves_universe.
Proof.
  unfold curves_universe. generalize (listed_curves listing).
  induction (reverse master_commits) as [|commit l IH]; intros X Hk; [exact Hk|].
  cbn [foldl]. apply IH. by apply count_blobs_extensive.
Qed.

Lemma merge_file_into_empty (h : hist) : merge_file h ∅ = h.
Proof.
  apply map_eq. intros k. rewrite lookup_merge_file, lookup_empty.
  by destruct (h !! k).
Qed.

(** A checkpoint with one blob, whose histogram is computed anew. *)
Lemma checkpoint_one_blob (curves_set : gset key) (st : Loop) (commit : Commit)
      (blob : Entry) (h : hist) :
  tracked commit = [blob] ->
  recomputed (changed_since (last_commit st) commit) (file_histograms st)
             (entry_path blob) = true ->
  fresh_histogram commit (entry_path blob) = Some h ->
  checkpoint_pure curves_set st commit
  = Some {| curves := record_curves curves_set h (curves st);
            ts := ts st ++ [committed_date commit];
            file_histograms := <[entry_path blob := h]> (file_histograms st);
            last_commit := Some commit;
            commit_history := record_survival (committed_date commit) h
                                              (commit_history st);
            histogram := h |}.
Proof.
  intros Htracked Hre Hfresh. unfold checkpoint_pure, changed_since in *.
  rewrite Htracked. cbn [fold_option]. unfold visit_pure. cbn [fst snd].
  rewrite Hre, Hfresh. cbn. by rewrite lookup_insert_eq, merge_file_into_empty.
Qed.

Lemma occurrences_cohort_value (v : value) (path : string) (old_commit : Commit)
      (blobs : list Entry) :
  occurrences ("cohort", v) (blame_keys path old_commit blobs) =
  if bool_decide (v = VStr (cohort_label old_commit)) then 1 else 0.
Proof.
  unfold occurrences, blame_keys. fold (cohort_label old_commit).
  rewrite List.filter_app, length_app.
  replace (length (List.filter (fun k' : key => bool_decide (k' = ("cohort", v)))
                     (if bool_decide (is_Some (commit2timestamp !! hexsha old_commit))
                      then [("sha", VStr (hexsha old_commit))] else [])))
    with 0.
  2:{ destruct (bool_decide (is_Some _)); cbn [List.filter]; [|done].
      case_bool_decide; congruence || reflexivity. }
  cbn [List.filter]. repeat case_bool_decide; congruence || reflexivity.
Qed.

(** ** Three commits that each add a line to one file *)

(** ** C7: the keys and the series of a run *)

Lemma count_blobs_kinds (blobs : list Entry) (curves_set : gset key) :
  (forall k, k ∈ curves_set -> k.1 ∈ ["cohort"; "author"; "ext"; "filesize"]) ->
  forall k, k ∈ foldl count_blob curves_set blobs ->
            k.1 ∈ ["cohort"; "author"; "ext"; "filesize"].
Proof.
  revert curves_set. induction blobs as [|blob blobs IH]; intros curves_set H.
  - exact H.
  - cbn [foldl]. apply IH. intros k. unfold count_blob.
    rewrite !elem_of_union, !elem_of_singleton.
    intros [-> | [-> | Hk]]; [cbn; repeat constructor.. | by apply H].
Qed.

Lemma listed_curves_kinds (commits : list Commit) (l : Listing) :
  (forall k, k ∈ listed_curves l -> k.1 ∈ ["cohort"; "author"; "ext"; "filesize"]) ->
  forall k, k ∈ listed_curves (foldl list_commit l commits) ->
            k.1 ∈ ["cohort"; "author"; "ext"; "filesize"].
Proof.
  revert l. induction commits as [|commit commits IH]; intros l H.
  - exact H.
  - cbn [foldl]. apply IH. intros k. cbn [list_commit listed_curves].
    rewrite !elem_of_union, !elem_of_singleton.
    intros [-> | [-> | Hk]]; [cbn; repeat constructor.. | by apply H].
Qed.

(** The keys of the run are of the four kinds of the documents; the keys
    [("sha", _)] of the histograms are not among them. *)
Lemma curves_universe_kinds (k : key) :
  k ∈ curves_universe -> k.1 ∈ ["cohort"; "author"; "ext"; "filesize"].
Proof.
  unfold curves_universe. generalize (reverse master_commits) as checkpoints.
  assert (H : forall k, k ∈ listed_curves listing ->
                        k.1 ∈ ["cohort"; "author"; "ext"; "filesize"]).
  { apply listed_curves_kinds. cbn. intros k' Hk'.
    by apply not_elem_of_empty in Hk'. }
  revert H. generalize (listed_curves listing) as curves_set.
  intros curves_set H checkpoints. revert curves_set H k.
  induction checkpoints as [|commit checkpoints IH]; intros curves_set H.
  - exact H.
  - cbn [foldl]. apply IH. by apply count_blobs_kinds.
Qed.

(** C7.  The set of keys is computed by the listing and the counting pass,
    before the loop over the checkpoints starts, and is what the run
    returns: the loop does not change it.  Its keys are of the kinds cohort,
    author, ext and filesize.  When the run returns, a key outside the set
    has no series; [ts] and the series of each key of the set have as many
    items as there are checkpoints; and the count at the place of a
    checkpoint is the count of the key in the histogram that the loop has
    after that checkpoint, zero when the key is not in it. *)
Theorem C7_series_are_aligned (s : State) (out : Output) (s' : State) :
  cache_ok s ->
  analyze s = Ok out s' ->
  exists s1,
    count_entries (listed_curves listing) s = Ok curves_universe s1
    /\ out_curves_set out = curves_universe
    /\ (forall k, k ∈ curves_universe ->
                  k.1 ∈ ["cohort"; "author"; "ext"; "filesize"])
    /\ (forall k, k ∉ curves_universe -> out_curves out !! k = None)
    /\ length (out_ts out) = length master_commits
    /\ (forall k, k ∈ curves_universe ->
                  length (default [] (out_curves out !! k)) = length master_commits)
    /\ forall pre commit post,
        reverse master_commits = pre ++ commit :: post ->
        exists sti si,
          analyze_loop curves_universe (pre ++ [commit]) s1 = Ok sti si
          /\ forall k, k ∈ curves_universe ->
                       default [] (out_curves out !! k) !! length pre
                       = Some (default 0 (histogram sti !! k)).
Proof.
  intros Hs Hrun.
  destruct (analyze_Ok s out s' Hs Hrun)
    as (curves_set & s1 & st & Hcount & Hs1 & Hloop & ->).
  destruct (count_entries_universe s Hs) as (s1' & Hcount' & _).
  assert (curves_set = curves_universe) as -> by congruence.
  destruct (loop_series_aligned _ _ _ _ _ Hs1 Hloop) as (Hout & Hts & Hin).
  rewrite length_reverse in Hts.
  exists s1. cbn [out_curves_set out_curves out_ts].
  split; [exact Hcount|]. split; [reflexivity|].
  split; [exact curves_universe_kinds|]. split; [exact Hout|].
  split; [exact Hts|]. split.
  - intros k Hk. destruct (Hin k Hk) as [Hlen _].
    by rewrite length_reverse in Hlen.
  - intros pre commit post E.
    assert (Hpre : exists sti si,
               analyze_loop curves_universe (pre ++ [commit]) s1 = Ok sti si).
    { unfold analyze_loop in Hloop |- *.
      rewrite E in Hloop.
      change (pre ++ commit :: post) with (pre ++ [commit] ++ post) in Hloop.
      rewrite app_assoc in Hloop.
      by apply for_each_prefix_Ok in Hloop. }
    destruct Hpre as (sti & si & Hsti). exists sti, si.
    split; [exact Hsti|]. intros k Hk.
    destruct (Hin k Hk) as [_ Hval]. by eapply Hval.
Qed.

Section three_commits.

Variables (s1 s2 s3 a1 a2 a3 p l1 l2 l3 : string) (t1 t2 t3 z1 z2 z3 : Z).

Local Abbreviation c1 := (mkCommit s1 t1 a1 [] [blob_entry p z1]).
Local Abbreviation c2 := (mkCommit s2 t2 a2 [c1] [blob_entry p z2]).
Local Abbreviation c3 := (mkCommit s3 t3 a3 [c2] [blob_entry p z3]).
Local Abbreviation hunks2 := ([(c1, [l1]); (c2, [l2])]).
Local Abbreviation hunks3 := ([(c1, [l1]); (c2, [l2]); (c3, [l3])]).

Hypothesis interval_zero : interval = 0%Z.
Hypothesis dates : (t2 < t3)%Z.
Hypothesis shas : s1 <> s2 /\ s1 <> s3 /\ s2 <> s3.
Hypothesis trackable : path_filter p = true.
Hypothesis listed : iter_commits repo branch = [c3; c2; c1].
Hypothesis at_head : head_commit repo = c3.
Hypothesis blame2 : blame repo c2 p = inr hunks2.
Hypothesis blame3 : blame repo c3 p = inr hunks3.
Hypothesis changed : p ∈ changed_since (Some c2) c3.

Lemma three_checkpoints : reverse master_commits = [c2; c3].
Proof using interval_zero dates at_head.
  unfold master_commits. rewrite at_head. cbn [backtrack parents committed_date].
  rewrite interval_zero.
  assert ((t2 <? t3 - 0)%Z = true) as -> by (apply Z.ltb_lt; lia).
  reflexivity.
Qed.

Lemma three_tracked (sha author : string) (date size : Z) (ps : list Commit) :
  tracked (mkCommit sha date author ps [blob_entry p size]) = [blob_entry p size].
Proof using trackable.
  unfold tracked. cbn [tree List.filter entry_type entry_path blob_entry].
  by rewrite String.eqb_refl, trackable.
Qed.

Lemma three_commit2cohort :
  commit2cohort
  = <[s1 := strftime t1 cohortfm]>
      (<[s2 := strftime t2 cohortfm]> (<[s3 := strftime t3 cohortfm]> ∅)).
Proof using listed.
  unfold commit2cohort, listing. rewrite listed. reflexivity.
Qed.

Lemma three_commit2timestamp :
  commit2timestamp = <[s2 := t2]> (<[s3 := t3]> ∅).
Proof using listed.
  unfold commit2timestamp, listing. rewrite listed. reflexivity.
Qed.

Lemma three_timestamps :
  commit2timestamp !! s1 = None
  /\ commit2timestamp !! s2 = Some t2
  /\ commit2timestamp !! s3 = Some t3.
Proof using listed shas.
  destruct shas as (H12 & H13 & H23). rewrite three_commit2timestamp.
  repeat split.
  - by rewrite !lookup_insert_ne, lookup_empty.
  - by rewrite lookup_insert_eq.
  - by rewrite lookup_insert_ne, lookup_insert_eq.
Qed.

Lemma three_cohorts :
  cohort_label c1 = strftime t1 cohortfm
  /\ cohort_label c2 = strftime t2 cohortfm
  /\ cohort_label c3 = strftime t3 cohortfm.
Proof using listed shas.
  destruct shas as (H12 & H13 & H23). unfold cohort_label.
  rewrite three_commit2cohort. cbn [hexsha]. repeat split.
  - by rewrite lookup_insert_eq.
  - by rewrite lookup_insert_ne, lookup_insert_eq.
  - by do 2 (rewrite lookup_insert_ne by done); rewrite lookup_insert_eq.
Qed.

Lemma three_cohorts_listed (t : Z) :
  t = t1 \/ t = t2 \/ t = t3 ->
  ("cohort", VStr (strftime t cohortfm)) ∈ curves_universe.
Proof using listed.
  intros Ht. apply curves_universe_listed. unfold listing. rewrite listed.
  cbn [foldl list_commit listed_curves committed_date].
  destruct Ht as [-> | [-> | ->]].
  - apply elem_of_union_r, elem_of_union_l. by apply elem_of_singleton.
  - do 3 apply elem_of_union_r. apply elem_of_union_l. by apply elem_of_singleton.
  - do 5 apply elem_of_union_r. apply elem_of_union_l. by apply elem_of_singleton.
Qed.

Lemma three_sha2 (id : value) :
  file_histogram p hunks2 !! ("sha", id)
  = if decide (id = VStr s2) then Some 1 else None.
Proof using listed shas.
  destruct three_timestamps as (T1 & T2 & T3).
  rewrite lookup_file_histogram. cbn [map fst snd length].
  rewrite !list_sum_cons, !occurrences_sha. cbn [hexsha list_sum fold_right].
  rewrite T1, T2.
  rewrite (bool_decide_eq_false_2 (is_Some None)) by (by intros [? ?]).
  rewrite (bool_decide_eq_true_2 (is_Some (Some t2))) by (by eexists).
  destruct (decide (id = VStr s2)) as [-> | Hne].
  - by rewrite bool_decide_eq_true_2.
  - by rewrite bool_decide_eq_false_2.
Qed.

Lemma three_sha3 (id : value) :
  file_histogram p hunks3 !! ("sha", id)
  = if decide (id = VStr s2) then Some 1
    else if decide (id = VStr s3) then Some 1 else None.
Proof using listed shas.
  destruct three_timestamps as (T1 & T2 & T3).
  destruct shas as (H12 & H13 & H23).
  rewrite lookup_file_histogram. cbn [map fst snd length].
  rewrite !list_sum_cons, !occurrences_sha. cbn [hexsha list_sum fold_right].
  rewrite T1, T2, T3.
  rewrite (bool_decide_eq_false_2 (is_Some None)) by (by intros [? ?]).
  rewrite (bool_decide_eq_true_2 (is_Some (Some t2))) by (by eexists).
  rewrite (bool_decide_eq_true_2 (is_Some (Some t3))) by (by eexists).
  destruct (decide (id = VStr s2)) as [-> | Hne2].
  - rewrite bool_decide_eq_true_2 by done.
    rewrite bool_decide_eq_false_2 by congruence. reflexivity.
  - rewrite (bool_decide_eq_false_2 (id = VStr s2)) by done.
    destruct (decide (id = VStr s3)) as [-> | Hne3].
    + by rewrite bool_decide_eq_true_2.
    + by rewrite bool_decide_eq_false_2.
Qed.

(** The cohort keys of the two histograms are keys of the listing. *)
Lemma three_cohort_keys (hunks : list (Commit * list string)) (k : key) :
  Forall (fun hunk : Commit * list string =>
            hunk.1 = c1 \/ hunk.1 = c2 \/ hunk.1 = c3) hunks ->
  k.1 = "cohort" -> is_Some (file_histogram p hunks !! k) -> k ∈ curves_universe.
Proof using listed shas.
  intros Hhunks Hk Hsome. destruct k as [kt v]. cbn in Hk. subst kt.
  destruct three_cohorts as (L1 & L2 & L3).
  destruct (decide (Forall (fun hunk : Commit * list string =>
                              occurrences ("cohort", v)
                                (blame_keys p hunk.1 (tracked hunk.1)) = 0)
                           hunks)) as [Hno|Hyes].
  - rewrite lookup_file_histogram_None in Hsome; [by destruct Hsome|].
    intros hunk Hin. by eapply Forall_forall in Hno.
  - apply not_Forall_Exists in Hyes; [|apply _].
    apply Exists_exists in Hyes as (hunk & Hin & Hocc). unfold compose in Hocc.
    rewrite occurrences_cohort_value in Hocc.
    case_bool_decide as Hv; [|done]. subst v.
    eapply Forall_forall in Hhunks; [|exact Hin].
    destruct Hhunks as [-> | [-> | ->]].
    + rewrite L1. apply three_cohorts_listed. auto.
    + rewrite L2. apply three_cohorts_listed. auto.
    + rewrite L3. apply three_cohorts_listed. auto.
Qed.

Lemma three_loop :
  loop_pure curves_universe [c2; c3]
  = Some {| curves :=
              record_curves curves_universe (file_histogram p hunks3)
                (record_curves curves_universe (file_histogram p hunks2) ∅);
            ts := [t2; t3];
            file_histograms :=
              <[p := file_histogram p hunks3]> (<[p := file_histogram p hunks2]> ∅);
            last_commit := Some c3;
            commit_history :=
              record_survival t3 (file_histogram p hunks3)
                (record_survival t2 (file_histogram p hunks2) ∅);
            histogram := file_histogram p hunks3 |}.
Proof using trackable blame2 blame3 changed.
  unfold loop_pure. cbn [fold_option].
  rewrite (checkpoint_one_blob curves_universe initial_loop c2 (blob_entry p z2)
             (file_histogram p hunks2)).
  - cbn [mbind option_bind].
    rewrite (checkpoint_one_blob curves_universe _ c3 (blob_entry p z3)
               (file_histogram p hunks3)).
    + reflexivity.
    + apply three_tracked.
    + unfold recomputed. cbn [last_commit entry_path blob_entry].
      by rewrite (bool_decide_eq_true_2 _ changed).
    + unfold fresh_histogram. cbn [entry_path blob_entry]. by rewrite blame3.
  - apply three_tracked.
  - unfold recomputed. cbn [file_histograms initial_loop entry_path blob_entry].
    rewrite (bool_decide_eq_true_2 (∅ !! p = None)) by apply lookup_empty.
    apply orb_true_r.
  - unfold fresh_histogram. cbn [entry_path blob_entry]. by rewrite blame2.
Qed.

Lemma three_series (k : key) :
  k ∈ curves_universe ->
  default []
    (record_curves curves_universe (file_histogram p hunks3)
       (record_curves curves_universe (file_histogram p hunks2) ∅) !! k)
  = [default 0 (file_histogram p hunks2 !! k);
     default 0 (file_histogram p hunks3 !! k)].
Proof.
  intros Hk. rewrite !lookup_record_curves, !decide_True by done.
  by rewrite lookup_empty.
Qed.

(** C1, as the code has it.  Three commits on the analysed branch, each
    adding one line to the same tracked file, the last two in the order of
    their dates, and [interval = 0]: the walk back from the tip stops at the
    root before sampling it, so there are two checkpoints, the second and the
    third commit; the totals of the cohort series are [2; 3]; and the survival
    document has two entries, the second commit with the pairs [(t2, 1)] and
    [(t3, 1)], the third with [(t3, 1)]: the root, a commit without a parent,
    has no timestamp in [commit2timestamp] and gets no entry. *)
Theorem C1_three_commits_two_checkpoints (s : State) :
  cache_ok s ->
  exists out s',
    analyze s = Ok out s'
    /\ reverse master_commits = [c2; c3]
    /\ out_ts out = [t2; t3]
    /\ series_totals "cohort" out = [2; 3]
    /\ out_commit_history out
       = <[VStr s2 := [(t2, 1); (t3, 1)]]> (<[VStr s3 := [(t3, 1)]]> ∅).
Proof using All.
  intros Hs. pose proof three_loop as Hloop.
  rewrite <- three_checkpoints in Hloop.
  destruct (analyze_pure s _ Hs Hloop) as [s' Hrun].
  eexists _, s'. split; [exact Hrun|].
  split; [exact three_checkpoints|].
  cbn [out_ts out_curves out_curves_set out_commit_history
       ts curves commit_history].
  split; [reflexivity|]. split.
  - unfold series_totals.
    cbn [out_ts out_curves out_curves_set length seq map].
    f_equal; [|f_equal].
    + rewrite (key_sum_ext _ _ (fun k => default 0 (file_histogram p hunks2 !! k))).
      * rewrite key_sum_total.
        -- rewrite total_file_histogram by (repeat constructor). reflexivity.
        -- intros k. apply three_cohort_keys.
           repeat (apply Forall_cons_2; [cbn; auto|]). apply Forall_nil_2.
      * intros k Hk. by rewrite three_series.
    + rewrite (key_sum_ext _ _ (fun k => default 0 (file_histogram p hunks3 !! k))).
      * rewrite key_sum_total.
        -- rewrite total_file_histogram by (repeat constructor). reflexivity.
        -- intros k. apply three_cohort_keys.
           repeat (apply Forall_cons_2; [cbn; auto|]). apply Forall_nil_2.
      * intros k Hk. by rewrite three_series.
  - destruct shas as (H12 & H13 & H23).
    apply map_eq. intros id.
    rewrite !lookup_record_survival, three_sha3, three_sha2, lookup_empty.
    destruct (decide (id = VStr s2)) as [-> | Hne2].
    + by rewrite lookup_insert_eq.
    + rewrite lookup_insert_ne by done.
      destruct (decide (id = VStr s3)) as [-> | Hne3].
      * by rewrite lookup_insert_eq.
      * by rewrite lookup_insert_ne, lookup_empty.
Qed.

End three_commits.

(** * More of [analyze] *)

(** ** The sampler (lines 59-70) *)

Lemma backtrack_acc (commit : Commit) :
  forall last_date acc,
    backtrack commit last_date acc = acc ++ backtrack commit last_date [].
Proof.
  induction commit as [commit Hp|commit parent0 others Hp IH] using first_parent_ind;
    intros last_date acc.
  - destruct commit as [sha date author ps entries]. cbn in Hp. subst ps.
    cbn. by rewrite app_nil_r.
  - destruct commit as [sha date author ps entries]. cbn in Hp. subst ps.
    cbn [backtrack parents committed_date].
    destruct (match last_date with
              | Some d => (date <? d - interval)%Z
              | None => true
              end).
    + rewrite (IH _ (acc ++ _)), (IH _ ([] ++ _)). by rewrite app_assoc.
    + apply IH.
Qed.

(** One step of the walk, with the list it has built so far left out. *)
Lemma backtrack_step (commit parent0 : Commit) (others : list Commit)
      (last_date : option Z) :
  parents commit = parent0 :: others ->
  backtrack commit last_date []
  = if match last_date with
       | None => true
       | Some d => (committed_date commit <? d - interval)%Z
       end
    then commit :: backtrack parent0 (Some (committed_date commit)) []
    else backtrack parent0 last_date [].
Proof.
  intros Hp. destruct commit as [sha date author ps entries]. cbn in Hp. subst ps.
  cbn [backtrack parents committed_date].
  destruct (match last_date with
            | Some d => (date <? d - interval)%Z
            | None => true
            end); [|done].
  by rewrite backtrack_acc.
Qed.

Lemma backtrack_root (commit : Commit) (last_date : option Z) :
  parents commit = [] -> backtrack commit last_date [] = [].
Proof.
  intros Hp. destruct commit as [sha date author ps entries]. cbn in Hp. by subst ps.
Qed.

Lemma first_parent_chain_step (commit parent0 : Commit) (others : list Commit) :
  parents commit = parent0 :: others ->
  first_parent_chain commit = commit :: first_parent_chain parent0.
Proof.
  intros Hp. destruct commit as [sha date author ps entries]. cbn in Hp. by subst ps.
Qed.

Lemma first_parent_chain_root (commit : Commit) :
  parents commit = [] -> first_parent_chain commit = [commit].
Proof.
  intros Hp. destruct commit as [sha date author ps entries]. cbn in Hp. by subst ps.
Qed.

Lemma backtrack_sublist (commit : Commit) :
  forall last_date,
    sublist (backtrack commit last_date []) (first_parent_chain commit).
Proof.
  induction commit as [commit Hp|commit parent0 others Hp IH] using first_parent_ind;
    intros last_date.
  - rewrite backtrack_root by done. apply sublist_nil_l.
  - rewrite (backtrack_step _ _ _ _ Hp), (first_parent_chain_step _ _ _ Hp).
    destruct (match last_date with
              | Some d => (committed_date commit <? d - interval)%Z
              | None => true
              end).
    + apply sublist_skip, IH.
    + apply sublist_cons, IH.
Qed.

(** X1.  The checkpoints are commits of the first-parent chain of the head,
    in the order of the walk, and none of them is a root: a commit that is
    reached through a second parent only is never a checkpoint, and neither
    is the first commit of the history. *)
Theorem X1_checkpoints_on_first_parent_chain :
  sublist master_commits (first_parent_chain (head_commit repo))
  /\ Forall (fun commit => parents commit <> []) master_commits.
Proof.
  split; [apply backtrack_sublist | apply master_commits_have_parent].
Qed.

(** X2.  There is no checkpoint exactly when the head is a root; otherwise
    the head is the first commit that the walk samples, whatever its date,
    and so the last checkpoint that is processed. *)
Theorem X2_head_is_sampled_first :
  (master_commits = [] <-> parents (head_commit repo) = [])
  /\ (parents (head_commit repo) <> [] ->
      last (reverse master_commits) = Some (head_commit repo)).
Proof.
  unfold master_commits.
  destruct (parents (head_commit repo)) as [|parent0 others] eqn:Hp.
  - rewrite backtrack_root by done. by split.
  - rewrite (backtrack_step _ _ _ _ Hp). split; [by split|].
    intros _. by rewrite reverse_cons, last_snoc.
Qed.

Lemma backtrack_maximal (commit : Commit) :
  forall last_date x,
    x ∈ first_parent_chain commit ->
    parents x <> [] ->
    x ∈ backtrack commit last_date []
    \/ (exists k, k ∈ backtrack commit last_date []
                  /\ (committed_date k - interval <= committed_date x)%Z)
    \/ (exists d, last_date = Some d /\ (d - interval <= committed_date x)%Z).
Proof.
  induction commit as [commit Hp|commit parent0 others Hp IH] using first_parent_ind;
    intros last_date x Hx Hnot_root.
  - rewrite first_parent_chain_root in Hx by done.
    apply list_elem_of_singleton in Hx. by subst x.
  - rewrite (first_parent_chain_step _ _ _ Hp) in Hx.
    rewrite (backtrack_step _ _ _ _ Hp).
    apply elem_of_cons in Hx as [-> | Hx].
    + destruct last_date as [d|].
      * destruct (Z.ltb_spec (committed_date commit) (d - interval)).
        -- left. apply list_elem_of_here.
        -- right. right. exists d. by split.
      * left. apply list_elem_of_here.
    + destruct (match last_date with
                | Some d => (committed_date commit <? d - interval)%Z
                | None => true
                end).
      * destruct (IH (Some (committed_date commit)) x Hx Hnot_root)
          as [Hin | [(k & Hk & Hd) | (d & [= <-] & Hd)]].
        -- left. by apply list_elem_of_further.
        -- right. left. exists k. split; [by apply list_elem_of_further | done].
        -- right. left. exists commit. split; [apply list_elem_of_here | done].
      * apply IH; done.
Qed.

(** X3.  The sampler skips a commit only for being too close to a
    checkpoint: every commit of the first-parent chain of the head that has
    a parent is a checkpoint, or is not more than [interval] seconds older
    than some checkpoint. *)
Theorem X3_skipped_commits_are_close (x : Commit) :
  x ∈ first_parent_chain (head_commit repo) ->
  parents x <> [] ->
  x ∈ master_commits
  \/ exists k, k ∈ master_commits
               /\ (committed_date k - interval <= committed_date x)%Z.
Proof.
  intros Hx Hnot_root. unfold master_commits.
  destruct (backtrack_maximal _ None x Hx Hnot_root) as [H | [H | (d & H & _)]];
    [by left | by right | done].
Qed.


(** ** The listing (lines 46-57) *)

Lemma listed_cohort_lookup (commits : list Commit) :
  forall (l : Listing) (sha label : string),
    listed_cohort (foldl list_commit l commits) !! sha = Some label ->
    listed_cohort l !! sha = Some label
    \/ exists commit, commit ∈ commits /\ hexsha commit = sha
                      /\ label = strftime (committed_date commit) cohortfm.
Proof.
  induction commits as [|c commits IH]; intros l sha label H; [by left|].
  cbn [foldl] in H. apply IH in H as [H | (commit & Hin & Hsha & Hlabel)].
  - cbn [list_commit listed_cohort] in H.
    destruct (decide (hexsha c = sha)) as [E | E].
    + rewrite E, lookup_insert_eq in H. injection H as <-.
      right. exists c. split; [apply list_elem_of_here | done].
    + rewrite lookup_insert_ne in H by done. by left.
  - right. exists commit. split; [by apply list_elem_of_further | done].
Qed.

Lemma listed_cohort_covers (commits : list Commit) :
  forall (l : Listing) (sha : string),
    is_Some (listed_cohort l !! sha) \/ (exists commit, commit ∈ commits /\ hexsha commit = sha) ->
    is_Some (listed_cohort (foldl list_commit l commits) !! sha).
Proof.
  induction commits as [|c commits IH]; intros l sha H.
  - destruct H as [H | (commit & Hin & _)]; [done|]. by apply elem_of_nil in Hin.
  - cbn [foldl]. apply IH. cbn [list_commit listed_cohort].
    destruct (decide (hexsha c = sha)) as [E | E].
    + left. rewrite E, lookup_insert_eq. by eexists.
    + rewrite lookup_insert_ne by done.
      destruct H as [H | (commit & Hin & Hsha)]; [by left|].
      apply elem_of_cons in Hin as [-> | Hin]; [done|]. right. eauto.
Qed.

(** X4.  [commit2cohort] has a cohort for every commit that
    [repo.iter_commits(branch)] lists, and for no other identifier; the
    cohort is the formatted date of a listed commit with that identifier. *)
Theorem X4_commit2cohort_is_the_listing (sha : string) :
  (is_Some (commit2cohort !! sha)
   <-> exists commit, commit ∈ iter_commits repo branch /\ hexsha commit = sha)
  /\ forall label,
      commit2cohort !! sha = Some label ->
      exists commit, commit ∈ iter_commits repo branch /\ hexsha commit = sha
                     /\ label = strftime (committed_date commit) cohortfm.
Proof.
  assert (H : forall label,
             commit2cohort !! sha = Some label ->
             exists commit, commit ∈ iter_commits repo branch /\ hexsha commit = sha
                            /\ label = strftime (committed_date commit) cohortfm).
  { intros label Hl. apply listed_cohort_lookup in Hl as [Hl | Hl]; [|done].
    cbn in Hl. by rewrite lookup_empty in Hl. }
  split; [|exact H]. split.
  - intros [label Hl]. destruct (H label Hl) as (commit & Hin & Hsha & _). eauto.
  - intros Hex. apply listed_cohort_covers. by right.
Qed.

Lemma listed_timestamp_lookup (commits : list Commit) :
  forall (l : Listing) (sha : string) (t : Z),
    listed_timestamp (foldl list_commit l commits) !! sha = Some t ->
    listed_timestamp l !! sha = Some t
    \/ exists commit, commit ∈ commits /\ hexsha commit = sha
                      /\ length (parents commit) = 1
                      /\ committed_date commit = t.
Proof.
  induction commits as [|c commits IH]; intros l sha t H; [by left|].
  cbn [foldl] in H. apply IH in H as [H | (commit & Hin & Hrest)].
  - cbn [list_commit listed_timestamp] in H.
    destruct (Nat.eqb (length (parents c)) 1) eqn:Hone; [|by left].
    apply Nat.eqb_eq in Hone.
    destruct (decide (hexsha c = sha)) as [E | E].
    + rewrite E, lookup_insert_eq in H. injection H as <-.
      right. exists c. split; [apply list_elem_of_here | done].
    + rewrite lookup_insert_ne in H by done. by left.
  - right. exists commit. split; [by apply list_elem_of_further | done].
Qed.

Lemma commit2timestamp_lookup (sha : string) (t : Z) :
  commit2timestamp !! sha = Some t ->
  exists commit, commit ∈ iter_commits repo branch /\ hexsha commit = sha
                 /\ length (parents commit) = 1
                 /\ committed_date commit = t.
Proof.
  intros H. apply listed_timestamp_lookup in H as [H | H]; [|done].
  cbn in H. by rewrite lookup_empty in H.
Qed.

Lemma listed_curves_covers (commits : list Commit) :
  forall (l : Listing) (k : key),
    k ∈ listed_curves l
    \/ (exists commit,
           commit ∈ commits
           /\ (k = ("author", VStr (author_name commit))
               \/ k = ("cohort", VStr (strftime (committed_date commit) cohortfm)))) ->
    k ∈ listed_curves (foldl list_commit l commits).
Proof.
  induction commits as [|c commits IH]; intros l k H.
  - destruct H as [H | (commit & Hin & _)]; [done|]. by apply elem_of_nil in Hin.
  - cbn [foldl]. apply IH. cbn [list_commit listed_curves].
    rewrite !elem_of_union, !elem_of_singleton.
    destruct H as [H | (commit & Hin & Hk)]; [by left; right; right|].
    apply elem_of_cons in Hin as [-> | Hin]; [|right; eauto].
    left. destruct Hk as [-> | ->]; [by left | by right; left].
Qed.

(** ** The filter and its memo (lines 72-86) *)

(** X7.  What [entry_path_ok] returns during a run, exactly: [True] when the
    base name matches a pattern of the catalog (or [all_filetypes] is set),
    the path matches every pattern of [only], and it matches no pattern of
    [ignore]; [False] otherwise.  The memo never changes the answer. *)
Theorem X7_entry_path_ok_exactly (s : State) (path : string) (ok : bool) (s' : State) :
  run_state s ->
  entry_path_ok path s = Ok ok s' ->
  (ok = true
   <-> (all_filetypes = true
        \/ exists filetype, filetype ∈ default_filetypes
                            /\ fnmatch (posixpath.basename path) filetype = true)
       /\ (forall pattern, pattern ∈ only -> fnmatch path pattern = true)
       /\ (forall pattern, pattern ∈ ignore -> fnmatch path pattern = false)).
Proof.
  intros Hs Hrun. destruct (entry_path_ok_exact s path ok s' Hs Hrun) as [-> _].
  apply path_filter_true.
Qed.

Lemma entry_path_ok_keeps (s : State) (path : string) (ok : bool) (s' : State) :
  entry_path_ok path s = Ok ok s' ->
  ok_entry_paths s' !! path = Some ok
  /\ (forall path' ok', ok_entry_paths s !! path' = Some ok' ->
                        ok_entry_paths s' !! path' = Some ok')
  /\ stderr s' = stderr s.
Proof.
  unfold entry_path_ok. destruct (ok_entry_paths s !! path) as [ok0|] eqn:E.
  - intros [= <- <-]. by repeat split.
  - intros [= <- <-]. cbn [ok_entry_paths stderr].
    rewrite lookup_insert_eq. split; [done|]. split; [|done].
    intros path' ok' H. destruct (decide (path = path')) as [<- | Hne].
    + congruence.
    + by rewrite lookup_insert_ne.
Qed.

(** X8.  The memo of [entry_path_ok]: a call stores its answer, keeps every
    answer that was stored before and prints nothing; asking again for the
    same path gives the same answer and leaves the state as it is. *)
Theorem X8_entry_path_ok_memo (s : State) (path : string) (ok : bool) (s' : State) :
  entry_path_ok path s = Ok ok s' ->
  ok_entry_paths s' !! path = Some ok
  /\ (forall path' ok', ok_entry_paths s !! path' = Some ok' ->
                        ok_entry_paths s' !! path' = Some ok')
  /\ stderr s' = stderr s
  /\ entry_path_ok path s' = Ok ok s'.
Proof.
  intros Hrun. destruct (entry_path_ok_keeps _ _ _ _ Hrun) as (Hin & Hkeep & Herr).
  repeat split; [done..|]. unfold entry_path_ok. by rewrite Hin.
Qed.

(** X9.  During a run [get_blob_entries] returns the entries of the
    traversal that are blobs and pass the filter, in the order of the
    traversal, whatever the memo holds already; it prints nothing. *)
Theorem X9_get_blob_entries_filters_the_tree (commit : Commit) (s : State) :
  run_state s ->
  exists s',
    get_blob_entries commit s
    = Ok (List.filter (fun entry => String.eqb (entry_type entry) "blob"
                                    && path_filter (entry_path entry))
                      (tree commit)) s'
    /\ stderr s' = stderr s
    /\ forall path ok, ok_entry_paths s !! path = Some ok ->
                       ok_entry_paths s' !! path = Some ok.
Proof.
  intros Hs. apply run_state_cache_ok in Hs.
  unfold get_blob_entries.
  change (List.filter _ (tree commit)) with (tracked commit).
  unfold tracked.
  set (Inv := fun (pre : list Entry) (entries : list Entry) (s1 : State) =>
                entries = List.filter
                            (fun entry => String.eqb (entry_type entry) "blob"
                                          && path_filter (entry_path entry)) pre
                /\ cache_ok s1 /\ stderr s1 = stderr s
                /\ forall path ok, ok_entry_paths s !! path = Some ok ->
                                   ok_entry_paths s1 !! path = Some ok).
  destruct (for_each_total
              (fun entries entry =>
                 if String.eqb (entry_type entry) "blob" then
                   let! ok := entry_path_ok (entry_path entry) in
                   ret (if ok then entries ++ [entry] else entries)
                 else ret entries)
              Inv (tree commit) [] s) as (entries & s' & Hrun & Hinv).
  - by repeat split.
  - intros pre entry entries s1 (-> & Hc & Herr & Hmemo). unfold Inv.
    rewrite List.filter_app. cbn [List.filter].
    destruct (String.eqb (entry_type entry) "blob"); cbn [andb].
    + destruct (entry_path_ok_spec (entry_path entry) s1 Hc)
        as (s2 & Hok & Hc2 & Herr2).
      destruct (entry_path_ok_keeps s1 (entry_path entry) _ s2 Hok)
        as (_ & Hkeep & _).
      unfold bind. rewrite Hok. cbn [ret].
      eexists _, s2. split; [reflexivity|].
      split; [by destruct (path_filter (entry_path entry)); rewrite ?app_nil_r|].
      split; [done|]. split; [congruence|]. intros path ok H. by apply Hkeep, Hmemo.
    + eexists _, s1. split; [reflexivity|]. rewrite app_nil_r. by repeat split.
  - destruct Hinv as (-> & _ & Herr & Hmemo). by exists s'.
Qed.

(** ** The histogram of a file (lines 101-121) *)

Lemma occurrences_author (a : string) (path : string) (old_commit : Commit)
      (blobs : list Entry) :
  occurrences ("author", VStr a) (blame_keys path old_commit blobs) =
  if bool_decide (author_name old_commit = a) then 1 else 0.
Proof.
  unfold occurrences, blame_keys.
  rewrite List.filter_app, length_app.
  replace (length (List.filter (fun k' : key => bool_decide (k' = ("author", VStr a)))
                     (if bool_decide (is_Some (commit2timestamp !! hexsha old_commit))
                      then [("sha", VStr (hexsha old_commit))] else [])))
    with 0.
  2:{ destruct (bool_decide (is_Some _)); cbn [List.filter]; [|done].
      case_bool_decide; congruence || reflexivity. }
  cbn [List.filter]. repeat case_bool_decide; congruence || reflexivity.
Qed.

Lemma occurrences_ext (v : value) (path : string) (old_commit : Commit)
      (blobs : list Entry) :
  occurrences ("ext", v) (blame_keys path old_commit blobs) =
  if bool_decide (v = VStr (posixpath.splitext_ext path)) then 1 else 0.
Proof.
  unfold occurrences, blame_keys.
  rewrite List.filter_app, length_app.
  replace (length (List.filter (fun k' : key => bool_decide (k' = ("ext", v)))
                     (if bool_decide (is_Some (commit2timestamp !! hexsha old_commit))
                      then [("sha", VStr (hexsha old_commit))] else [])))
    with 0.
  2:{ destruct (bool_decide (is_Some _)); cbn [List.filter]; [|done].
      case_bool_decide; congruence || reflexivity. }
  cbn [List.filter]. repeat case_bool_decide; congruence || reflexivity.
Qed.

Lemma list_sum_map_ext {A} (f g : A -> nat) (l : list A) :
  (forall x, x ∈ l -> f x = g x) -> list_sum (map f l) = list_sum (map g l).
Proof.
  induction l as [|x l IH]; intros H; [done|].
  cbn [map]. rewrite !list_sum_cons, (H x) by apply list_elem_of_here.
  rewrite IH; [done|]. intros y Hy. by apply H, list_elem_of_further.
Qed.

(** X10.  In the histogram of a file the count of an author is the number
    of lines of the hunks that [repo.blame] gives to commits of that
    author. *)
Theorem X10_author_count_is_blamed_lines (commit : Commit) (path : string)
        (hunks : list (Commit * list string)) (a : string) (s : State) :
  cache_ok s ->
  blame repo commit path = inr hunks ->
  exists h s',
    get_file_histogram commit path s = Ok h s'
    /\ default 0 (h !! ("author", VStr a))
       = list_sum (map (fun hunk : Commit * list string =>
                          if bool_decide (author_name hunk.1 = a)
                          then length hunk.2 else 0)
                       hunks).
Proof.
  intros Hs Hblame.
  pose proof (get_file_histogram_spec commit path s Hs) as Hspec.
  rewrite Hblame in Hspec. destruct Hspec as (s' & Hrun & _).
  exists (file_histogram path hunks), s'. split; [exact Hrun|].
  rewrite count_file_histogram. apply list_sum_map_ext. intros hunk _.
  rewrite occurrences_author. case_bool_decide; lia.
Qed.

(** X11.  In the histogram of a file the count under [('sha', id)] is the
    number of lines of the hunks of the commits with that identifier, when
    [commit2timestamp] has the identifier; a commit that is not in
    [commit2timestamp] (a root, a merge, a commit that the listing did not
    see) has no ['sha'] key. *)
Theorem X11_sha_count_is_blamed_lines (commit : Commit) (path : string)
        (hunks : list (Commit * list string)) (sha : string) (s : State) :
  cache_ok s ->
  blame repo commit path = inr hunks ->
  exists h s',
    get_file_histogram commit path s = Ok h s'
    /\ (commit2timestamp !! sha = None -> h !! ("sha", VStr sha) = None)
    /\ (is_Some (commit2timestamp !! sha) ->
        default 0 (h !! ("sha", VStr sha))
        = list_sum (map (fun hunk : Commit * list string =>
                           if bool_decide (hexsha hunk.1 = sha)
                           then length hunk.2 else 0)
                        hunks)).
Proof.
  intros Hs Hblame.
  pose proof (get_file_histogram_spec commit path s Hs) as Hspec.
  rewrite Hblame in Hspec. destruct Hspec as (s' & Hrun & _).
  exists (file_histogram path hunks), s'. split; [exact Hrun|]. split.
  - intros Hnone. apply lookup_file_histogram_None. intros hunk _.
    rewrite occurrences_sha.
    case_bool_decide as Hsome; [|done]. case_bool_decide as Hid; [|done].
    injection Hid as ->. rewrite Hnone in Hsome. by destruct Hsome.
  - intros Hsome. rewrite count_file_histogram. apply list_sum_map_ext.
    intros hunk _. rewrite occurrences_sha.
    destruct (decide (hexsha hunk.1 = sha)) as [E | E].
    + rewrite E. rewrite (bool_decide_eq_true_2 _ Hsome).
      rewrite !bool_decide_eq_true_2 by done. lia.
    + rewrite (bool_decide_eq_false_2 (hexsha hunk.1 = sha)) by done.
      destruct (bool_decide (is_Some _)); [|lia].
      rewrite bool_decide_eq_false_2 by congruence. lia.
Qed.

(** X12.  A file counts for one extension: every line of its blame is under
    the key of the extension of its path, and its histogram has no other
    ['ext'] key. *)
Theorem X12_one_extension_per_file (commit : Commit) (path : string)
        (hunks : list (Commit * list string)) (s : State) :
  cache_ok s ->
  blame repo commit path = inr hunks ->
  exists h s',
    get_file_histogram commit path s = Ok h s'
    /\ default 0 (h !! ("ext", VStr (posixpath.splitext_ext path))) = hunk_lines hunks
    /\ forall v, v <> VStr (posixpath.splitext_ext path) -> h !! ("ext", v) = None.
Proof.
  intros Hs Hblame.
  pose proof (get_file_histogram_spec commit path s Hs) as Hspec.
  rewrite Hblame in Hspec. destruct Hspec as (s' & Hrun & _).
  exists (file_histogram path hunks), s'. split; [exact Hrun|]. split.
  - rewrite count_file_histogram. unfold hunk_lines. apply list_sum_map_ext.
    intros hunk _. rewrite occurrences_ext, bool_decide_eq_true_2 by done. lia.
  - intros v Hv. apply lookup_file_histogram_None. intros hunk _.
    by rewrite occurrences_ext, bool_decide_eq_false_2.
Qed.

(** ** The loop over the checkpoints (lines 123-159) *)

Lemma analyze_Ok_pure (s : State) (out : Output) (s' : State) :
  cache_ok s ->
  analyze s = Ok out s' ->
  exists st,
    loop_pure curves_universe (reverse master_commits) = Some st
    /\ out = mkOutput curves_universe (curves st) (ts st) (commit_history st).
Proof.
  intros Hs Hrun.
  destruct (analyze_Ok s out s' Hs Hrun)
    as (curves_set & s1 & st & Hcount & Hs1 & Hloop & ->).
  destruct (count_entries_universe s Hs) as (s1' & Hcount' & _).
  assert (curves_set = curves_universe) as -> by congruence.
  exists st. split; [by eapply analyze_loop_Ok | done].
Qed.

(** What a checkpoint does to the variables of the loop. *)
Lemma loop_pure_step (curves_set : gset key) (checkpoints : list Commit)
      (commit : Commit) (st' : Loop) :
  loop_pure curves_set (checkpoints ++ [commit]) = Some st' ->
  exists st,
    loop_pure curves_set checkpoints = Some st
    /\ checkpoint_pure curves_set st commit = Some st'
    /\ ts st' = ts st ++ [committed_date commit]
    /\ commit_history st'
       = record_survival (committed_date commit) (histogram st') (commit_history st)
    /\ curves st' = record_curves curves_set (histogram st') (curves st)
    /\ last_commit st' = Some commit.
Proof.
  rewrite loop_pure_snoc. intros H.
  destruct (loop_pure curves_set checkpoints) as [st|]; [|done]. cbn in H.
  exists st. split; [done|]. split; [done|].
  unfold checkpoint_pure in H.
  destruct (fold_option _ _ _) as [acc|]; [|done].
  cbn in H. by injection H as <-.
Qed.

Lemma loop_pure_ts (curves_set : gset key) (checkpoints : list Commit) (st : Loop) :
  loop_pure curves_set checkpoints = Some st ->
  ts st = map committed_date checkpoints.
Proof.
  revert st. induction checkpoints as [|commit checkpoints IH] using rev_ind;
    intros st H.
  - by injection H as <-.
  - apply loop_pure_step in H as (st0 & H0 & _ & Hts & _).
    by rewrite Hts, map_app, (IH st0 H0).
Qed.

(** X14.  [ts] lists the dates of the checkpoints, oldest first: the dates
    of the sampled commits in the reverse order of the walk. *)
Theorem X14_ts_are_the_checkpoint_dates (s : State) (out : Output) (s' : State) :
  cache_ok s ->
  analyze s = Ok out s' ->
  out_ts out = map committed_date (reverse master_commits).
Proof.
  intros Hs Hrun. destruct (analyze_Ok_pure s out s' Hs Hrun) as (st & Hpure & ->).
  cbn [out_ts]. by eapply loop_pure_ts.
Qed.

Lemma loop_histogram_sha_keys (curves_set : gset key) (checkpoints : list Commit)
      (st : Loop) :
  loop_pure curves_set checkpoints = Some st -> sha_keys_listed (histogram st).
Proof.
  intros Hpure.
  destruct (loop_entries (fun _ h => sha_keys_listed h) curves_set) with
    (checkpoints := checkpoints) (st := st)
    as (_ & served & -> & Hserved); [|exact Hpure|].
  - intros c p h. apply fresh_histogram_sha_keys.
  - assert (G : forall histogram,
               sha_keys_listed histogram ->
               sha_keys_listed (merge_all served histogram)).
    { induction Hserved as [|h served [_ Hh] _ IH]; intros histogram Hhist;
        [exact Hhist|].
      cbn [merge_all foldl]. apply IH. by apply merge_file_sha_keys. }
    apply G. intros id [n Hn]. by rewrite lookup_empty in Hn.
Qed.

Lemma loop_commit_history (curves_set : gset key) (checkpoints : list Commit)
      (st : Loop) (id : value) (series : list (Z * nat)) :
  loop_pure curves_set checkpoints = Some st ->
  commit_history st !! id = Some series ->
  series <> []
  /\ sublist (map fst series) (ts st)
  /\ exists sha, id = VStr sha /\ is_Some (commit2timestamp !! sha).
Proof.
  revert st series. induction checkpoints as [|commit checkpoints IH] using rev_ind;
    intros st series H Hid.
  - injection H as <-. cbn in Hid. by rewrite lookup_empty in Hid.
  - pose proof (loop_histogram_sha_keys _ _ _ H) as Hsha.
    apply loop_pure_step in H as (st0 & H0 & _ & Hts & Hch & _).
    rewrite Hch, lookup_record_survival in Hid. rewrite Hts.
    match type of Hid with
    | match ?x with _ => _ end = _ => destruct x as [n|] eqn:E
    end.
    + injection Hid as <-. split; [by destruct (default [] _)|]. split.
      * rewrite map_app. apply sublist_app; [|done].
        destruct (commit_history st0 !! id) as [old|] eqn:Eold; cbn [default].
        -- by destruct (IH st0 old H0 Eold) as (_ & Hsub & _).
        -- apply sublist_nil_l.
      * apply Hsha. by exists n.
    + destruct (IH st0 series H0 Hid) as (Hne & Hsub & Hkey).
      split; [done|]. split; [by apply sublist_inserts_r | done].
Qed.

(** X5.  The keys of the survival document are identifiers of commits that
    [repo.iter_commits(branch)] lists and that have exactly one parent: a
    root or a merge commit has no entry. *)
Theorem X5_survival_keys_have_one_parent (s : State) (out : Output) (s' : State)
        (id : value) :
  cache_ok s ->
  analyze s = Ok out s' ->
  is_Some (out_commit_history out !! id) ->
  exists commit,
    commit ∈ iter_commits repo branch
    /\ id = VStr (hexsha commit)
    /\ length (parents commit) = 1.
Proof.
  intros Hs Hrun [series Hid].
  destruct (analyze_Ok_pure s out s' Hs Hrun) as (st & Hpure & ->).
  cbn [out_commit_history] in Hid.
  destruct (loop_commit_history _ _ _ _ _ Hpure Hid) as (_ & _ & sha & -> & [t Ht]).
  destruct (commit2timestamp_lookup sha t Ht) as (commit & Hin & <- & Hone & _).
  by exists commit.
Qed.

(** X15.  A series of the survival document is not empty, and its dates are
    dates of [ts], in the order of [ts]: a commit gets at most one pair per
    checkpoint. *)
Theorem X15_survival_dates_follow_ts (s : State) (out : Output) (s' : State)
        (id : value) (series : list (Z * nat)) :
  cache_ok s ->
  analyze s = Ok out s' ->
  out_commit_history out !! id = Some series ->
  series <> [] /\ sublist (map fst series) (out_ts out).
Proof.
  intros Hs Hrun Hid.
  destruct (analyze_Ok_pure s out s' Hs Hrun) as (st & Hpure & ->).
  cbn [out_commit_history out_ts] in *.
  destruct (loop_commit_history _ _ _ _ _ Hpure Hid) as (Hne & Hsub & _). done.
Qed.

(** ** The keys of the series (lines 52-53 and 88-99) *)

Lemma listed_curves_inv (commits : list Commit) :
  forall (l : Listing) (k : key),
    k ∈ listed_curves (foldl list_commit l commits) ->
    k ∈ listed_curves l
    \/ exists commit,
        commit ∈ commits
        /\ (k = ("author", VStr (author_name commit))
            \/ k = ("cohort", VStr (strftime (committed_date commit) cohortfm))).
Proof.
  induction commits as [|c commits IH]; intros l k H; [by left|].
  cbn [foldl] in H. apply IH in H as [H | (commit & Hin & Hk)].
  - cbn [list_commit listed_curves] in H.
    rewrite !elem_of_union, !elem_of_singleton in H.
    destruct H as [-> | [-> | H]]; [| |by left].
    + right. exists c. split; [apply list_elem_of_here | by left].
    + right. exists c. split; [apply list_elem_of_here | by right].
  - right. exists commit. split; [by apply list_elem_of_further | done].
Qed.

Lemma count_blobs_iff (blobs : list Entry) :
  forall (curves_set : gset key) (k : key),
    k ∈ foldl count_blob curves_set blobs
    <-> k ∈ curves_set
        \/ exists blob,
            blob ∈ blobs
            /\ (k = ("ext", VStr (posixpath.splitext_ext (entry_path blob)))
                \/ k = ("filesize", VInt (entry_size blob))).
Proof.
  induction blobs as [|b blobs IH]; intros curves_set k.
  - cbn [foldl]. split; [by left|].
    intros [H | (blob & Hin & _)]; [done|]. by apply elem_of_nil in Hin.
  - cbn [foldl]. rewrite IH. unfold count_blob.
    rewrite !elem_of_union, !elem_of_singleton. split.
    + intros [[-> | [-> | H]] | (blob & Hin & Hk)].
      * right. exists b. split; [apply list_elem_of_here | by right].
      * right. exists b. split; [apply list_elem_of_here | by left].
      * by left.
      * right. exists blob. split; [by apply list_elem_of_further | done].
    + intros [H | (blob & Hin & Hk)]; [by left; right; right|].
      apply elem_of_cons in Hin as [-> | Hin]; [|right; eauto].
      left. destruct Hk as [-> | ->]; [by right; left | by left].
Qed.

Lemma count_checkpoints_iff (checkpoints : list Commit) :
  forall (curves_set : gset key) (k : key),
    k ∈ foldl (fun curves_set commit => foldl count_blob curves_set (tracked commit))
              curves_set checkpoints
    <-> k ∈ curves_set
        \/ exists commit blob,
            commit ∈ checkpoints /\ blob ∈ tracked commit
            /\ (k = ("ext", VStr (posixpath.splitext_ext (entry_path blob)))
                \/ k = ("filesize", VInt (entry_size blob))).
Proof.
  induction checkpoints as [|c checkpoints IH]; intros curves_set k.
  - cbn [foldl]. split; [by left|].
    intros [H | (commit & blob & Hin & _)]; [done|]. by apply elem_of_nil in Hin.
  - cbn [foldl]. rewrite IH, count_blobs_iff. split.
    + intros [[H | (blob & Hin & Hk)] | (commit & blob & Hin & Hb & Hk)].
      * by left.
      * right. exists c, blob. split; [apply list_elem_of_here | done].
      * right. exists commit, blob. split; [by apply list_elem_of_further | done].
    + intros [H | (commit & blob & Hin & Hb & Hk)]; [by left; left|].
      apply elem_of_cons in Hin as [-> | Hin].
      * left. right. eauto.
      * right. eauto.
Qed.

Lemma curves_universe_iff (k : key) :
  k ∈ curves_universe
  <-> (exists commit,
          commit ∈ iter_commits repo branch
          /\ (k = ("author", VStr (author_name commit))
              \/ k = ("cohort", VStr (strftime (committed_date commit) cohortfm))))
      \/ (exists commit blob,
             commit ∈ master_commits /\ blob ∈ tracked commit
             /\ (k = ("ext", VStr (posixpath.splitext_ext (entry_path blob)))
                 \/ k = ("filesize", VInt (entry_size blob)))).
Proof.
  unfold curves_universe. rewrite count_checkpoints_iff. split.
  - intros [H | (commit & blob & Hin & Hrest)].
    + left. apply listed_curves_inv in H as [H | H]; [|done].
      cbn in H. by apply not_elem_of_empty in H.
    + right. exists commit, blob. split; [|done].
      exact (proj1 (elem_of_reverse _ _) Hin).
  - intros [H | (commit & blob & Hin & Hrest)].
    + left. apply listed_curves_covers. by right.
    + right. exists commit, blob. split; [|done].
      exact (proj2 (elem_of_reverse _ _) Hin).
Qed.

(** X6.  The keys that get a series are: an author key and a cohort key
    for every commit that [repo.iter_commits(branch)] lists, and an
    extension key and a size key for every tracked blob of every
    checkpoint; there is no other key. *)
Theorem X6_keys_of_the_series (s : State) (out : Output) (s' : State) (k : key) :
  cache_ok s ->
  analyze s = Ok out s' ->
  k ∈ out_curves_set out
  <-> (exists commit,
          commit ∈ iter_commits repo branch
          /\ (k = ("author", VStr (author_name commit))
              \/ k = ("cohort", VStr (strftime (committed_date commit) cohortfm))))
      \/ (exists commit blob,
             commit ∈ master_commits /\ blob ∈ tracked commit
             /\ (k = ("ext", VStr (posixpath.splitext_ext (entry_path blob)))
                 \/ k = ("filesize", VInt (entry_size blob)))).
Proof.
  intros Hs Hrun. destruct (analyze_Ok_pure s out s' Hs Hrun) as (st & _ & ->).
  cbn [out_curves_set]. apply curves_universe_iff.
Qed.

(** ** The cache of file histograms (lines 143-151) *)

Lemma checkpoint_pure_visit (curves_set : gset key) (st : Loop) (commit : Commit)
      (st' : Loop) :
  checkpoint_pure curves_set st commit = Some st' ->
  fold_option (visit_pure commit (changed_since (last_commit st) commit))
              (tracked commit) (file_histograms st, ∅)
  = Some (file_histograms st', histogram st').
Proof.
  unfold checkpoint_pure, changed_since.
  destruct (fold_option _ _ _) as [[fh h]|]; [|done].
  cbn. by intros [= <-].
Qed.

Lemma loop_cache_domain (curves_set : gset key) (checkpoints : list Commit)
      (st : Loop) (path : string) :
  loop_pure curves_set checkpoints = Some st ->
  is_Some (file_histograms st !! path)
  <-> exists commit, commit ∈ checkpoints /\ path ∈ paths_of (tracked commit).
Proof.
  revert st. induction checkpoints as [|commit checkpoints IH] using rev_ind;
    intros st H.
  - injection H as <-. cbn. rewrite lookup_empty. split; [by intros [? ?]|].
    intros (commit & Hin & _). by apply elem_of_nil in Hin.
  - apply loop_pure_step in H as (st0 & H0 & Hstep & _).
    apply checkpoint_pure_visit in Hstep.
    destruct (visit_serves (fun _ _ => True) commit _ _ _ _
                (fun _ _ _ _ => I) (fun _ _ _ _ _ => I) _ Hstep)
      as (Hin & Hout & _).
    cbn [fst] in Hin, Hout.
    destruct (decide (path ∈ paths_of (tracked commit))) as [Hp | Hp].
    + split.
      * intros _. exists commit. split; [|done]. apply elem_of_app. right.
        apply list_elem_of_here.
      * intros _. destruct (Hin path Hp) as (h & Hh & _). by exists h.
    + rewrite (Hout path Hp), (IH st0 H0). split.
      * intros (c & Hc & Hpc). exists c. split; [|done]. apply elem_of_app. by left.
      * intros (c & Hc & Hpc). apply elem_of_app in Hc as [Hc | Hc]; [eauto|].
        apply list_elem_of_singleton in Hc. by subst c.
Qed.

(** X17.  The cache of file histograms is never pruned: after the loop has
    processed some checkpoints, the cache has a histogram for exactly the
    paths that were tracked at one of them, the paths of files that are gone
    since included. *)
Theorem X17_cache_keeps_every_tracked_path (curves_set : gset key)
        (checkpoints : list Commit) (s : State) (st : Loop) (s' : State)
        (path : string) :
  cache_ok s ->
  analyze_loop curves_set checkpoints s = Ok st s' ->
  is_Some (file_histograms st !! path)
  <-> exists commit, commit ∈ checkpoints /\ path ∈ paths_of (tracked commit).
Proof.
  intros Hs Hrun. apply (loop_cache_domain curves_set).
  by eapply analyze_loop_Ok.
Qed.

Lemma visit_pure_step (commit : Commit) (changed_files : gset string)
      (fh : gmap string hist) (h : hist) (blob : Entry)
      (acc : gmap string hist * hist) :
  visit_pure commit changed_files (fh, h) blob = Some acc ->
  exists hb,
    acc.1 !! entry_path blob = Some hb
    /\ acc.2 = merge_file hb h
    /\ (entry_path blob ∈ changed_files ->
        fresh_histogram commit (entry_path blob) = Some hb)
    /\ forall path, path <> entry_path blob -> acc.1 !! path = fh !! path.
Proof.
  unfold visit_pure. cbn [fst snd].
  destruct (recomputed changed_files fh (entry_path blob)) eqn:Hre.
  - destruct (fresh_histogram commit (entry_path blob)) as [hb|] eqn:Hf; [|done].
    cbn. rewrite lookup_insert_eq. intros [= <-]. cbn [fst snd].
    exists hb. rewrite lookup_insert_eq.
    split; [done|]. split; [done|]. split; [done|].
    intros path Hne. by rewrite lookup_insert_ne.
  - cbn. intros [= <-]. cbn [fst snd].
    unfold recomputed in Hre. apply orb_false_iff in Hre as [Hch Hnone].
    apply bool_decide_eq_false in Hch, Hnone.
    destruct (fh !! entry_path blob) as [hb|] eqn:Hh; [|done].
    exists hb. by repeat split.
Qed.

(** An entry that is what a new computation would give stays as it is to
    the end of the checkpoint. *)
Lemma visit_stable (commit : Commit) (changed_files : gset string)
      (blobs : list Entry) :
  forall (fh : gmap string hist) (h : hist) (acc : gmap string hist * hist)
         (path : string) (hp : hist),
    fold_option (visit_pure commit changed_files) blobs (fh, h) = Some acc ->
    fh !! path = Some hp ->
    (path ∈ changed_files -> fresh_histogram commit path = Some hp) ->
    acc.1 !! path = Some hp.
Proof.
  induction blobs as [|blob blobs IH]; intros fh h acc path hp Hrun Hp Hfresh.
  - cbn in Hrun. by injection Hrun as <-.
  - cbn [fold_option] in Hrun.
    destruct (visit_pure commit changed_files (fh, h) blob) as [[fh1 h1]|] eqn:Hv;
      [|done].
    cbn in Hrun.
    destruct (visit_pure_step _ _ _ _ _ _ Hv) as (hb & Hb & _ & Hbf & Hother).
    cbn [fst snd] in Hb, Hother.
    apply (IH fh1 h1 acc path hp Hrun); [|exact Hfresh].
    destruct (decide (path = entry_path blob)) as [-> | Hne].
    + rewrite Hb. f_equal.
      destruct (decide (entry_path blob ∈ changed_files)) as [Hch | Hch].
      * specialize (Hbf Hch). specialize (Hfresh Hch). congruence.
      * unfold visit_pure in Hv. cbn [fst snd] in Hv.
        unfold recomputed in Hv.
        rewrite (bool_decide_eq_false_2 _ Hch) in Hv.
        rewrite (bool_decide_eq_false_2 (fh !! entry_path blob = None)) in Hv
          by congruence.
        cbn in Hv. injection Hv as <- _. congruence.
    + by rewrite Hother.
Qed.

Lemma count_merge_file (h histogram : hist) (k : key) :
  default 0 (merge_file h histogram !! k)
  = default 0 (histogram !! k) + default 0 (h !! k).
Proof.
  rewrite lookup_merge_file. destruct (h !! k) as [n|]; cbn [default]; [done|lia].
Qed.

Lemma visit_sum (commit : Commit) (changed_files : gset string)
      (blobs : list Entry) (k : key) :
  forall (fh : gmap string hist) (h : hist) (acc : gmap string hist * hist),
    fold_option (visit_pure commit changed_files) blobs (fh, h) = Some acc ->
    default 0 (acc.2 !! k)
    = default 0 (h !! k)
      + list_sum (map (fun blob =>
                         default 0 (default ∅ (acc.1 !! entry_path blob) !! k))
                      blobs).
Proof.
  induction blobs as [|blob blobs IH]; intros fh h acc Hrun.
  - cbn in Hrun. injection Hrun as <-. cbn. lia.
  - cbn [fold_option] in Hrun.
    destruct (visit_pure commit changed_files (fh, h) blob) as [[fh1 h1]|] eqn:Hv;
      [|done].
    cbn in Hrun.
    destruct (visit_pure_step _ _ _ _ _ _ Hv) as (hb & Hb & Hh1 & Hbf & _).
    cbn [fst snd] in Hb, Hh1.
    rewrite (IH fh1 h1 acc Hrun). cbn [map]. rewrite list_sum_cons.
    rewrite (visit_stable _ _ _ _ _ _ _ hb Hrun Hb Hbf). cbn [default].
    rewrite Hh1, count_merge_file. unfold id. lia.
Qed.

(** X16.  The histogram of a checkpoint is the sum of the histograms that
    the cache holds for its tracked blobs when the checkpoint is done: the
    count of a key is the sum of its counts in those histograms. *)
Theorem X16_histogram_is_the_sum_of_the_files (curves_set : gset key)
        (checkpoints : list Commit) (commit : Commit) (s : State)
        (st : Loop) (s' : State) (k : key) :
  cache_ok s ->
  analyze_loop curves_set (checkpoints ++ [commit]) s = Ok st s' ->
  default 0 (histogram st !! k)
  = list_sum (map (fun blob =>
                     default 0 (default ∅ (file_histograms st !! entry_path blob) !! k))
                  (tracked commit)).
Proof.
  intros Hs Hrun. pose proof (analyze_loop_Ok _ _ _ _ _ Hs Hrun) as Hpure.
  apply loop_pure_step in Hpure as (st0 & _ & Hstep & _).
  apply checkpoint_pure_visit in Hstep.
  pose proof (visit_sum _ _ _ k _ _ _ Hstep) as Hsum. cbn [fst snd] in Hsum.
  by rewrite Hsum, lookup_empty.
Qed.

(** The entry of the path of a blob, when the blob has been visited. *)
Lemma visit_pure_entry (commit : Commit) (changed_files : gset string)
      (fh : gmap string hist) (h : hist) (blob : Entry)
      (acc : gmap string hist * hist) :
  visit_pure commit changed_files (fh, h) blob = Some acc ->
  acc.1 !! entry_path blob
  = if recomputed changed_files fh (entry_path blob)
    then fresh_histogram commit (entry_path blob)
    else fh !! entry_path blob.
Proof.
  unfold visit_pure. cbn [fst snd].
  destruct (recomputed changed_files fh (entry_path blob)).
  - destruct (fresh_histogram commit (entry_path blob)) as [hb|]; [|done].
    cbn. intros [= <-]. cbn [fst]. by rewrite lookup_insert_eq.
  - cbn. by intros [= <-].
Qed.

Lemma visit_cache (commit : Commit) (changed_files : gset string)
      (blobs : list Entry) (path : string) :
  forall (fh : gmap string hist) (h : hist) (acc : gmap string hist * hist),
    fold_option (visit_pure commit changed_files) blobs (fh, h) = Some acc ->
    acc.1 !! path
    = if decide (path ∈ paths_of blobs)
      then if recomputed changed_files fh path
           then fresh_histogram commit path
           else fh !! path
      else fh !! path.
Proof.
  induction blobs as [|blob blobs IH]; intros fh h acc Hrun.
  - cbn in Hrun. injection Hrun as <-. cbn [fst].
    rewrite decide_False; [done|]. apply not_elem_of_nil.
  - cbn [fold_option] in Hrun.
    destruct (visit_pure commit changed_files (fh, h) blob) as [[fh1 h1]|] eqn:Hv;
      [|done].
    cbn in Hrun.
    pose proof (visit_pure_entry _ _ _ _ _ _ Hv) as Hentry.
    destruct (visit_pure_step _ _ _ _ _ _ Hv) as (hb & Hb & _ & Hbf & Hother).
    cbn [fst snd] in Hentry, Hb, Hother.
    destruct (decide (path = entry_path blob)) as [-> | Hne].
    + rewrite decide_True by (apply list_elem_of_here).
      rewrite <- Hentry, Hb.
      exact (visit_stable _ _ _ _ _ _ _ hb Hrun Hb Hbf).
    + rewrite (IH fh1 h1 acc Hrun), (Hother path Hne).
      assert (Hre : recomputed changed_files fh1 path = recomputed changed_files fh path).
      { unfold recomputed. by rewrite (Hother path Hne). }
      rewrite Hre.
      destruct (decide (path ∈ paths_of blobs)) as [Hin | Hnin].
      * rewrite decide_True; [done|]. by apply list_elem_of_further.
      * rewrite decide_False; [done|]. intros Hin.
        apply elem_of_cons in Hin as [E | Hin]; [by apply Hne | by apply Hnin].
Qed.

Lemma loop_pure_last_commit (curves_set : gset key) (checkpoints : list Commit)
      (st : Loop) :
  loop_pure curves_set checkpoints = Some st ->
  last_commit st = last checkpoints.
Proof.
  destruct checkpoints as [|c checkpoints _] using rev_ind; intros H.
  - by injection H as <-.
  - apply loop_pure_step in H as (st0 & _ & _ & _ & _ & _ & Hlast).
    by rewrite last_snoc.
Qed.

(** X25.  What a checkpoint does to the cache.  The histogram of a tracked
    path is computed anew when the diff with the checkpoint before reports
    the path, or when the cache has no histogram for it; otherwise it stays
    the one of an earlier checkpoint.  The histograms of all other paths
    stay as they are. *)
Theorem X25_cache_update_rule (curves_set : gset key) (checkpoints : list Commit)
        (commit : Commit) (s : State) (st : Loop) (s1 : State)
        (st' : Loop) (s2 : State) (path : string) :
  cache_ok s ->
  analyze_loop curves_set checkpoints s = Ok st s1 ->
  analyze_loop curves_set (checkpoints ++ [commit]) s = Ok st' s2 ->
  file_histograms st' !! path
  = if decide (path ∈ paths_of (tracked commit))
    then if bool_decide (path ∈ changed_since (last checkpoints) commit)
            || bool_decide (file_histograms st !! path = None)
         then fresh_histogram commit path
         else file_histograms st !! path
    else file_histograms st !! path.
Proof.
  intros Hs Hrun Hrun'.
  pose proof (analyze_loop_Ok _ _ _ _ _ Hs Hrun) as Hpure.
  pose proof (analyze_loop_Ok _ _ _ _ _ Hs Hrun') as Hpure'.
  apply loop_pure_step in Hpure' as (st0 & H0 & Hstep & _).
  assert (st0 = st) as -> by congruence.
  apply checkpoint_pure_visit in Hstep.
  rewrite (loop_pure_last_commit _ _ _ Hpure) in Hstep.
  exact (visit_cache _ _ _ path _ _ _ Hstep).
Qed.

Lemma changed_paths_acc (diffs : list Diff) (path : string) :
  forall changed_files : gset string,
    path ∈ foldl
             (fun changed_files d =>
                let changed_files :=
                  match a_blob d with
                  | Some b => {[entry_path b]} ∪ changed_files
                  | None => changed_files
                  end in
                match b_blob d with
                | Some b => {[entry_path b]} ∪ changed_files
                | None => changed_files
                end)
             changed_files diffs
    <-> path ∈ changed_files
        \/ exists d blob, d ∈ diffs
                          /\ (a_blob d = Some blob \/ b_blob d = Some blob)
                          /\ entry_path blob = path.
Proof.
  induction diffs as [|d diffs IH]; intros changed_files.
  - cbn [foldl]. split; [by left|].
    intros [H | (d & blob & Hd & _)]; [done|]. by apply elem_of_nil in Hd.
  - cbn [foldl]. rewrite IH. split.
    + intros [H | (d' & blob & Hd & Hrest)].
      * destruct (b_blob d) as [b|] eqn:Eb.
        -- apply elem_of_union in H as [H | H].
           ++ apply elem_of_singleton in H. right. exists d, b.
              split; [apply list_elem_of_here | by split; [right|]].
           ++ destruct (a_blob d) as [a|] eqn:Ea; [|by left].
              apply elem_of_union in H as [H | H]; [|by left].
              apply elem_of_singleton in H. right. exists d, a.
              split; [apply list_elem_of_here | by split; [left|]].
        -- destruct (a_blob d) as [a|] eqn:Ea; [|by left].
           apply elem_of_union in H as [H | H]; [|by left].
           apply elem_of_singleton in H. right. exists d, a.
           split; [apply list_elem_of_here | by split; [left|]].
      * right. exists d', blob. split; [by apply list_elem_of_further | done].
    + intros [H | (d' & blob & Hd & Hblob & Hpath)].
      * left. destruct (b_blob d); [apply elem_of_union_r|];
          (destruct (a_blob d); [by apply elem_of_union_r | done]).
      * apply elem_of_cons in Hd as [-> | Hd]; [|right; eauto].
        left. destruct Hblob as [Ha | Hb].
        -- rewrite Ha. destruct (b_blob d); [apply elem_of_union_r|];
             apply elem_of_union_l; by apply elem_of_singleton.
        -- rewrite Hb. apply elem_of_union_l. by apply elem_of_singleton.
Qed.

(** X24.  The changed files of a checkpoint are the paths of the blobs on
    either side of the entries of the diff: both names of a renamed file,
    the path of an added or a deleted file; an entry without blobs adds
    nothing. *)
Theorem X24_changed_files_are_both_sides_of_the_diff (prev : option Commit)
        (cur : Commit) (path : string) :
  path ∈ changed_since prev cur
  <-> exists d blob, d ∈ diff repo cur prev
                     /\ (a_blob d = Some blob \/ b_blob d = Some blob)
                     /\ entry_path blob = path.
Proof.
  unfold changed_since, changed_paths. rewrite changed_paths_acc. split.
  - intros [H | H]; [by apply not_elem_of_empty in H | done].
  - by right.
Qed.

(** ** What the series count (lines 158-159) *)

Lemma key_sum_le_total (key_type : string) (h : hist) (X : gset key) :
  key_sum key_type (fun k => default 0 (h !! k)) X <= total key_type h.
Proof.
  induction h as [|k0 n m Hk0 IH] using map_ind.
  - rewrite key_sum_total; [done|].
    intros k _ [x Hx]. by rewrite lookup_empty in Hx.
  - rewrite total_insert by exact Hk0.
    rewrite !key_sum_elements in *.
    set (g := fun k : key =>
                if String.eqb k.1 key_type then default 0 (m !! k) else 0) in *.
    set (g' := fun k : key =>
                 if String.eqb k.1 key_type
                 then default 0 (<[k0 := n]> m !! k) else 0).
    assert (Hg0 : g k0 = 0).
    { unfold g. rewrite Hk0. by destruct (String.eqb k0.1 key_type). }
    assert (Hg'0 : g' k0 = weight key_type k0 n).
    { unfold g', weight. by rewrite lookup_insert_eq. }
    assert (Hother : forall k, k <> k0 -> g' k = g k).
    { intros k Hne. unfold g, g'. by rewrite lookup_insert_ne. }
    pose proof (list_sum_update (elements X) g g' k0 (NoDup_elements X) Hother)
      as Hup.
    rewrite Hg0, Hg'0 in Hup.
    change (list_sum (map g' (elements X))
            <= weight key_type k0 n + total key_type m).
    change (list_sum (map g (elements X)) <= total key_type m) in IH.
    destruct (decide (k0 ∈ elements X)); lia.
Qed.

Lemma series_totals_lookup (key_type : string) (out : Output) (i : nat) :
  i < length (out_ts out) ->
  series_totals key_type out !! i
  = Some (key_sum key_type
                  (fun k => default 0 (default [] (out_curves out !! k) !! i))
                  (out_curves_set out)).
Proof.
  intros Hi. unfold series_totals.
  by rewrite list_lookup_fmap, lookup_seq_lt.
Qed.

Lemma loop_pure_prefix (curves_set : gset key) (pre post : list Commit) (st : Loop) :
  loop_pure curves_set (pre ++ post) = Some st ->
  exists sti, loop_pure curves_set pre = Some sti.
Proof.
  unfold loop_pure. rewrite fold_option_app.
  destruct (fold_option _ pre _) as [sti|]; [eauto | done].
Qed.

(** The states of a run at one of its checkpoints. *)
Lemma analyze_checkpoint (s : State) (out : Output) (s' : State)
      (pre post : list Commit) (commit : Commit) :
  cache_ok s ->
  analyze s = Ok out s' ->
  reverse master_commits = pre ++ commit :: post ->
  exists s1 st sti si,
    count_entries (listed_curves listing) s = Ok curves_universe s1
    /\ loop_pure curves_universe (reverse master_commits) = Some st
    /\ out = mkOutput curves_universe (curves st) (ts st) (commit_history st)
    /\ loop_pure curves_universe (pre ++ [commit]) = Some sti
    /\ analyze_loop curves_universe (pre ++ [commit]) s1 = Ok sti si.
Proof.
  intros Hs Hrun E.
  destruct (analyze_Ok_pure s out s' Hs Hrun) as (st & Hpure & ->).
  destruct (count_entries_universe s Hs) as (s1 & Hcount & Hs1).
  assert (Hpre : exists sti, loop_pure curves_universe (pre ++ [commit]) = Some sti).
  { apply (loop_pure_prefix _ _ post st). rewrite <- app_assoc. cbn [app].
    by rewrite <- E. }
  destruct Hpre as (sti & Hsti).
  pose proof (simulates_analyze_loop curves_universe (pre ++ [commit]) s1 Hs1) as Hsim.
  rewrite Hsti in Hsim. destruct Hsim as (si & Hloop & _).
  by exists s1, st, sti, si.
Qed.

(** The column of a checkpoint in the series. *)
Lemma series_column (key_type : string) (st sti : Loop)
      (pre post : list Commit) (commit : Commit) :
  loop_pure curves_universe (reverse master_commits) = Some st ->
  reverse master_commits = pre ++ commit :: post ->
  loop_pure curves_universe (pre ++ [commit]) = Some sti ->
  series_totals key_type
                (mkOutput curves_universe (curves st) (ts st) (commit_history st))
  !! length pre
  = Some (key_sum key_type (fun k => default 0 (histogram sti !! k)) curves_universe).
Proof.
  intros Hpure E Hsti.
  rewrite series_totals_lookup.
  2:{ cbn [out_ts]. rewrite (loop_pure_ts _ _ _ Hpure), length_map, E, length_app.
      cbn [length]. lia. }
  cbn [out_curves out_curves_set]. f_equal. apply key_sum_ext. intros k Hk.
  destruct (proj2 (loop_pure_curves _ _ _ k Hpure) Hk) as (_ & _ & Hval).
  by rewrite (Hval pre commit post sti E Hsti).
Qed.

(** X19.  A document never counts more than the histogram of the
    checkpoint: the sum of a column of the series of one dimension is at
    most the sum of the counts of that dimension in the histogram.  (It is
    less when the histogram has a key that is not among the keys of the
    series: the lines under such a key are in no series.) *)
Theorem X19_series_count_no_more_than_the_histogram (key_type : string)
        (s : State) (out : Output) (s' : State)
        (pre post : list Commit) (commit : Commit) :
  cache_ok s ->
  analyze s = Ok out s' ->
  reverse master_commits = pre ++ commit :: post ->
  exists s1 sti si n,
    count_entries (listed_curves listing) s = Ok curves_universe s1
    /\ analyze_loop curves_universe (pre ++ [commit]) s1 = Ok sti si
    /\ series_totals key_type out !! length pre = Some n
    /\ n <= total key_type (histogram sti).
Proof.
  intros Hs Hrun E.
  destruct (analyze_checkpoint s out s' pre post commit Hs Hrun E)
    as (s1 & st & sti & si & Hcount & Hpure & -> & Hsti & Hloop).
  eexists s1, sti, si, _. split; [exact Hcount|]. split; [exact Hloop|].
  split; [exact (series_column key_type st sti pre post commit Hpure E Hsti)|].
  apply key_sum_le_total.
Qed.

Lemma fresh_histogram_ext_keys (commit : Commit) (path : string) (h : hist)
      (v : value) :
  fresh_histogram commit path = Some h ->
  is_Some (h !! ("ext", v)) -> v = VStr (posixpath.splitext_ext path).
Proof.
  unfold fresh_histogram.
  destruct (blame repo commit path) as [[|what]|hunks]; [done|..].
  - intros [= <-] [n Hn]. by rewrite lookup_empty in Hn.
  - intros [= <-] [n Hn].
    destruct (decide (v = VStr (posixpath.splitext_ext path))) as [E | E]; [done|].
    rewrite lookup_file_histogram_None in Hn; [done|].
    intros hunk _. by rewrite occurrences_ext, bool_decide_eq_false_2.
Qed.

Lemma merge_all_keys (served : list hist) (k : key) :
  forall histogram,
    is_Some (merge_all served histogram !! k) ->
    is_Some (histogram !! k) \/ Exists (fun h => is_Some (h !! k)) served.
Proof.
  induction served as [|h served IH]; intros histogram H; [by left|].
  cbn [merge_all foldl] in H. fold (merge_all served (merge_file h histogram)) in H.
  apply IH in H as [H | H].
  - rewrite lookup_merge_file in H.
    destruct (h !! k) as [n|] eqn:E; [|by left].
    right. apply Exists_cons_hd. rewrite E. by eexists.
  - right. by apply Exists_cons_tl.
Qed.

Lemma loop_histogram_ext_keys (curves_set : gset key) (checkpoints : list Commit)
      (commit : Commit) (st : Loop) (v : value) :
  loop_pure curves_set (checkpoints ++ [commit]) = Some st ->
  is_Some (histogram st !! ("ext", v)) ->
  exists blob, blob ∈ tracked commit
               /\ v = VStr (posixpath.splitext_ext (entry_path blob)).
Proof.
  intros Hpure Hv.
  set (P := fun (path : string) (h : hist) =>
              forall v, is_Some (h !! ("ext", v)) ->
                        v = VStr (posixpath.splitext_ext path)).
  apply loop_pure_step in Hpure as (st0 & H0 & Hstep & _).
  apply checkpoint_pure_visit in Hstep.
  destruct (loop_entries P curves_set) with (checkpoints := checkpoints) (st := st0)
    as (Hcache & _); [|exact H0|].
  { intros c p h Hf v'. by apply (fresh_histogram_ext_keys c). }
  destruct (visit_serves P commit _ _ _ _
              (fun blob h _ Hf v' => fresh_histogram_ext_keys commit _ h v' Hf)
              (fun blob h _ _ Hc => Hcache _ h Hc) _ Hstep)
    as (_ & _ & served & Hsum & Hserved).
  cbn [snd] in Hsum. rewrite Hsum in Hv.
  apply merge_all_keys in Hv as [Hv | Hv].
  { rewrite lookup_empty in Hv. by destruct Hv. }
  clear Hsum Hstep. induction Hserved as [|blob h blobs served HP _ IH].
  - by apply Exists_nil in Hv.
  - apply Exists_cons in Hv as [Hv | Hv].
    + exists blob. split; [apply list_elem_of_here | by apply HP].
    + destruct (IH Hv) as (b & Hb & Hvb). exists b.
      split; [by apply list_elem_of_further | done].
Qed.

Lemma loop_ext_total_live_lines (curves_set : gset key) (checkpoints : list Commit)
      (commit : Commit) (st : Loop) :
  consecutive lines_carried (checkpoints ++ [commit]) ->
  loop_pure curves_set (checkpoints ++ [commit]) = Some st ->
  total "ext" (histogram st) = live_lines commit.
Proof.
  intros Hcons Hpure.
  destruct (loop_serves (fun c p h => total "ext" h = blamed_lines c p)
                        curves_set) with
    (checkpoints := checkpoints) (commit := commit) (st := st)
    as (_ & _ & served & -> & Hserved); [..|exact Hpure|].
  - intros c p h Hf. apply fresh_histogram_total; [repeat constructor | exact Hf].
  - intros pre prev cur post E blob Hb Hch.
    destruct (Hcons pre prev cur post E blob Hb Hch) as [Hp Hl].
    split; [exact Hp|]. intros h. by rewrite Hl.
  - rewrite total_merge_all, total_empty. cbn [Nat.add]. unfold live_lines.
    induction Hserved as [|blob h blobs served Hh _ IH]; [done|].
    cbn [map]. rewrite !list_sum_cons. lia.
Qed.

(** X18.  The extension document loses no line: at every checkpoint its
    column adds up to the sum of the ['ext'] counts of the histogram of the
    checkpoint, since the extension of every tracked blob of a checkpoint is
    a key of the series; and that sum is the number of lines that blame
    gives for the tracked blobs of the checkpoint, when between two
    checkpoints in a row a path that the diff does not report keeps its
    lines. *)
Theorem X18_extension_series_lose_no_line (s : State) (out : Output) (s' : State)
        (pre post : list Commit) (commit : Commit) :
  cache_ok s ->
  analyze s = Ok out s' ->
  reverse master_commits = pre ++ commit :: post ->
  exists s1 sti si,
    count_entries (listed_curves listing) s = Ok curves_universe s1
    /\ analyze_loop curves_universe (pre ++ [commit]) s1 = Ok sti si
    /\ series_totals "ext" out !! length pre = Some (total "ext" (histogram sti))
    /\ (consecutive lines_carried (pre ++ [commit]) ->
        series_totals "ext" out !! length pre = Some (live_lines commit)).
Proof.
  intros Hs Hrun E.
  destruct (analyze_checkpoint s out s' pre post commit Hs Hrun E)
    as (s1 & st & sti & si & Hcount & Hpure & -> & Hsti & Hloop).
  exists s1, sti, si. split; [exact Hcount|]. split; [exact Hloop|].
  assert (Hcol : series_totals "ext"
                   (mkOutput curves_universe (curves st) (ts st) (commit_history st))
                 !! length pre
                 = Some (total "ext" (histogram sti))).
  { rewrite (series_column "ext" st sti pre post commit Hpure E Hsti). f_equal.
    apply key_sum_total. intros [kt v] Hkt Hsome. cbn in Hkt. subst kt.
    destruct (loop_histogram_ext_keys _ _ _ _ _ Hsti Hsome) as (blob & Hb & ->).
    apply curves_universe_iff. right. exists commit, blob.
    split; [|split; [done | by left]].
    apply elem_of_reverse. rewrite E. apply elem_of_app. right.
    apply list_elem_of_here. }
  split; [exact Hcol|]. intros Hcons.
  by rewrite Hcol, (loop_ext_total_live_lines _ _ _ _ Hcons Hsti).
Qed.

(** ** The documents (lines 161-183) *)

Section documents.

Variable isoformat : Z -> string.

Lemma value_le_total : Total value_le.
Proof.
  intros [a|m] [b|n]; cbn; [apply String.leb_total | auto | auto | lia].
Qed.

Lemma series_of_inr (curves : gmap key (list nat)) (key_type : string)
      (items : list value) (y : list (list nat)) :
  series_of curves key_type items = inr y
  <-> Forall2 (fun item row => curves !! (key_type, item) = Some row) items y.
Proof.
  revert y. induction items as [|item items IH]; intros y; cbn [series_of].
  - split; [intros [= <-]; constructor | intros H; by inversion H].
  - destruct (curves !! (key_type, item)) as [series|] eqn:E.
    + destruct (series_of curves key_type items) as [e|y'] eqn:Ey.
      * split; [done|]. intros H. inversion H as [|? row ? rows Hrow Hrest]; subst.
        apply IH in Hrest. discriminate Hrest.
      * split.
        -- intros [= <-]. constructor; [exact E | by apply IH].
        -- intros H. inversion H as [|? row ? rows Hrow Hrest]; subst.
           apply IH in Hrest. congruence.
    + split; [done|]. intros H. inversion H; subst. congruence.
Qed.

Lemma series_of_inl (curves : gmap key (list nat)) (key_type : string)
      (items : list value) (e : exn) :
  series_of curves key_type items = inl e ->
  e = Fault "KeyError"
  /\ exists item, item ∈ items /\ curves !! (key_type, item) = None.
Proof.
  induction items as [|item items IH]; cbn [series_of]; [done|].
  destruct (curves !! (key_type, item)) as [series|] eqn:E.
  - destruct (series_of curves key_type items) as [e'|y']; [|done].
    intros [= <-]. destruct (IH eq_refl) as (He & item' & Hin & Hnone).
    split; [done|]. exists item'. split; [by apply list_elem_of_further | done].
  - intros [= <-]. split; [done|]. exists item. split; [apply list_elem_of_here | done].
Qed.

Lemma series_of_total (curves : gmap key (list nat)) (key_type : string)
      (items : list value) :
  (forall item, item ∈ items -> is_Some (curves !! (key_type, item))) ->
  exists y, series_of curves key_type items = inr y.
Proof.
  intros H. destruct (series_of curves key_type items) as [e|y] eqn:E; [|eauto].
  apply series_of_inl in E as (_ & item & Hin & Hnone).
  destruct (H item Hin) as [row Hrow]. congruence.
Qed.

(** The items of the keys of one type, before they are sorted. *)
Lemma elem_of_items (X : gset key) (key_type : string) (v : value) :
  v ∈ map snd (List.filter (fun k : key => String.eqb k.1 key_type) (elements X))
  <-> (key_type, v) ∈ X.
Proof.
  rewrite <- elem_of_elements. split.
  - intros H. apply (list_elem_of_fmap snd) in H as ([kt v'] & -> & H).
    apply list_elem_of_In, List.filter_In in H as [H E].
    apply String.eqb_eq in E. cbn in E. subst kt. by apply list_elem_of_In.
  - intros H. apply (list_elem_of_fmap snd). exists (key_type, v). split; [done|].
    apply list_elem_of_In, List.filter_In. split; [by apply list_elem_of_In|].
    apply String.eqb_refl.
Qed.

Lemma NoDup_items (X : gset key) (key_type : string) :
  NoDup (map snd (List.filter (fun k : key => String.eqb k.1 key_type) (elements X))).
Proof.
  apply (NoDup_fmap_2_strong snd).
  - intros [kt1 v1] [kt2 v2] H1 H2 E. cbn in E. subst v2.
    apply list_elem_of_In, List.filter_In in H1 as [_ E1].
    apply list_elem_of_In, List.filter_In in H2 as [_ E2].
    apply String.eqb_eq in E1, E2. cbn in E1, E2. congruence.
  - apply NoDup_ListNoDup, List.NoDup_filter, NoDup_ListNoDup, NoDup_elements.
Qed.

(** The items of the keys of one type are all strings, or all integers. *)
Lemma curves_universe_typed (k : key) :
  k ∈ curves_universe -> is_str k.2 = negb (String.eqb k.1 "filesize").
Proof.
  intros H. apply curves_universe_iff in H
    as [(commit & _ & [-> | ->]) | (commit & blob & _ & _ & [-> | ->])];
    reflexivity.
Qed.

Lemma curves_universe_comparable (key_type : string) :
  comparable (map snd (List.filter (fun k : key => String.eqb k.1 key_type)
                                   (elements curves_universe))) = true.
Proof.
  assert (H : forall v,
             v ∈ map snd (List.filter (fun k : key => String.eqb k.1 key_type)
                                      (elements curves_universe)) ->
             is_str v = negb (String.eqb key_type "filesize")).
  { intros v Hv. apply elem_of_items in Hv.
    exact (curves_universe_typed _ Hv). }
  unfold comparable. apply orb_true_iff.
  destruct (String.eqb key_type "filesize").
  - right. apply forallb_forall. intros v Hv. apply list_elem_of_In in Hv.
    by rewrite (H v Hv).
  - left. apply forallb_forall. intros v Hv. apply list_elem_of_In in Hv.
    by rewrite (H v Hv).
Qed.

Lemma key_items_universe (key_type : string) :
  exists items,
    key_items curves_universe key_type = inr items
    /\ Sorted value_le items
    /\ NoDup items
    /\ (forall v, v ∈ items <-> (key_type, v) ∈ curves_universe)
    /\ items ≡ₚ map snd (List.filter (fun k : key => String.eqb k.1 key_type)
                                     (elements curves_universe)).
Proof.
  unfold key_items, sorted. rewrite curves_universe_comparable.
  eexists. split; [reflexivity|].
  pose proof (merge_sort_Permutation value_le
                (map snd (List.filter (fun k : key => String.eqb k.1 key_type)
                                      (elements curves_universe)))) as Hperm.
  split; [apply (@Sorted_merge_sort _ value_le _ value_le_total)|].
  split; [rewrite Hperm; apply NoDup_items|].
  split; [|exact Hperm].
  intros v. rewrite Hperm. apply elem_of_items.
Qed.

(** What [dump_json] returns after a run: the state is the one it was
    called in. *)
Lemma dump_json_spec (s : State) (out : Output) (s' : State)
      (key_type : string) (label_fmt : value -> value) :
  cache_ok s ->
  analyze s = Ok out s' ->
  exists items,
    key_items (out_curves_set out) key_type = inr items
    /\ Sorted value_le items
    /\ NoDup items
    /\ (forall v, v ∈ items <-> (key_type, v) ∈ out_curves_set out)
    /\ items ≡ₚ map snd (List.filter (fun k : key => String.eqb k.1 key_type)
                                     (elements (out_curves_set out)))
    /\ forall s0,
        match series_of (out_curves out) key_type items with
        | inr y =>
            dump_json isoformat out key_type label_fmt s0
            = Ok (mkDocument y (map isoformat (out_ts out)) (map label_fmt items)) s0
        | inl e => dump_json isoformat out key_type label_fmt s0 = Raise e
        end.
Proof.
  intros Hs Hrun. destruct (analyze_Ok_pure s out s' Hs Hrun) as (st & _ & ->).
  cbn [out_curves_set out_curves out_ts].
  destruct (key_items_universe key_type) as (items & Hitems & Hsorted & Hnodup & Hin & Hperm).
  exists items. repeat (split; [done|]).
  intros s0. unfold dump_json, bind, lift. cbn [out_curves_set out_curves out_ts].
  rewrite Hitems.
  by destruct (series_of (curves st) key_type items).
Qed.

(** After at least one checkpoint every key of the series has a series. *)
Lemma loop_pure_curves_Some (checkpoints : list Commit) (st : Loop) (k : key) :
  checkpoints <> [] ->
  loop_pure curves_universe checkpoints = Some st ->
  k ∈ curves_universe ->
  exists row, curves st !! k = Some row /\ length row = length checkpoints.
Proof.
  intros Hne Hpure Hk.
  destruct (proj2 (loop_pure_curves _ _ _ k Hpure) Hk) as (Hlen & _).
  destruct (curves st !! k) as [row|]; [by exists row|].
  cbn in Hlen. destruct checkpoints; [done | discriminate Hlen].
Qed.

(** X20.  When the head commit has no parent there is no checkpoint and
    [curves] stays empty, while the listing has given [curves_set] the
    cohort of every listed commit: unless the listing is empty, the first
    [dump_json] raises [KeyError], and [analyze] ends with it. *)
Theorem X20_no_checkpoint_raises_KeyError (s : State) :
  cache_ok s ->
  parents (head_commit repo) = [] ->
  iter_commits repo branch <> [] ->
  analyze_and_dump isoformat s = Raise (Fault "KeyError").
Proof.
  intros Hs Hroot Hlisted.
  assert (Hmc : reverse master_commits = []).
  { unfold master_commits. by rewrite backtrack_root. }
  destruct (analyze_pure s initial_loop Hs) as (s' & Hrun).
  { by rewrite Hmc. }
  unfold analyze_and_dump, bind. rewrite Hrun.
  unfold dump_all, bind.
  destruct (dump_json_spec s _ s' "cohort" code_added_in Hs Hrun)
    as (items & _ & _ & _ & Hin & _ & Hdump).
  specialize (Hdump s'). cbn [out_curves_set out_curves initial_loop curves] in *.
  destruct items as [|item items].
  - exfalso. destruct (iter_commits repo branch) as [|commit commits] eqn:E; [done|].
    apply (elem_of_nil (VStr (strftime (committed_date commit) cohortfm))).
    apply Hin, curves_universe_iff. left. exists commit. rewrite E.
    split; [apply list_elem_of_here | by right].
  - cbn [series_of] in Hdump. rewrite lookup_empty in Hdump. by rewrite Hdump.
Qed.

(** X21.  When the head commit has a parent and the run is not
    interrupted, the five documents are written; in each of the four
    documents of series, [y] has one row for each label, each row has one
    count for each item of [ts], and [ts] has the formatted dates of the
    checkpoints, oldest first. *)
Theorem X21_documents_are_rectangular (s : State) (out : Output) (s' : State) :
  cache_ok s ->
  parents (head_commit repo) <> [] ->
  analyze s = Ok out s' ->
  exists docs,
    analyze_and_dump isoformat s = Ok docs s'
    /\ survival_json docs = out_commit_history out
    /\ Forall (fun doc =>
                 length (doc_y doc) = length (doc_labels doc)
                 /\ Forall (fun row => length row = length (doc_ts doc)) (doc_y doc)
                 /\ doc_ts doc
                    = map isoformat (map committed_date (reverse master_commits)))
              [cohorts_json docs; exts_json docs; authors_json docs;
               filesizes_json docs].
Proof.
  intros Hs Hhead Hrun.
  assert (Hne : reverse master_commits <> []).
  { unfold master_commits.
    destruct (parents (head_commit repo)) as [|parent0 others] eqn:Hp; [done|].
    rewrite (backtrack_step _ _ _ _ Hp), reverse_cons. by destruct (reverse _). }
  destruct (analyze_Ok_pure s out s' Hs Hrun) as (st & Hpure & Hout).
  assert (Hdoc : forall key_type label_fmt s0,
             exists doc,
               dump_json isoformat out key_type label_fmt s0 = Ok doc s0
               /\ length (doc_y doc) = length (doc_labels doc)
               /\ Forall (fun row => length row = length (doc_ts doc)) (doc_y doc)
               /\ doc_ts doc
                  = map isoformat (map committed_date (reverse master_commits))).
  { intros key_type label_fmt s0.
    destruct (dump_json_spec s out s' key_type label_fmt Hs Hrun)
      as (items & _ & _ & _ & Hin & _ & Hdump).
    specialize (Hdump s0). subst out.
    cbn [out_curves_set out_curves out_ts] in *.
    destruct (series_of_total (curves st) key_type items) as (y & Hy).
    { intros item Hitem. apply Hin in Hitem.
      destruct (loop_pure_curves_Some _ _ _ Hne Hpure Hitem) as (row & Hrow & _).
      by exists row. }
    rewrite Hy in Hdump. eexists. split; [exact Hdump|].
    cbn [doc_y doc_ts doc_labels]. apply series_of_inr in Hy.
    split; [by rewrite length_map, (Forall2_length _ _ _ Hy)|].
    split; [|by rewrite (loop_pure_ts _ _ _ Hpure)].
    rewrite length_map, (loop_pure_ts _ _ _ Hpure), length_map.
    apply Forall_lookup. intros i row Hi.
    destruct (Forall2_lookup_r _ _ _ _ _ Hy Hi) as (item & Hitem & Hrow).
    assert (Hk : (key_type, item) ∈ curves_universe).
    { apply Hin. by eapply list_elem_of_lookup_2. }
    destruct (loop_pure_curves_Some _ _ _ Hne Hpure Hk) as (row' & Hrow' & Hlen).
    pose proof (eq_trans (eq_sym Hrow') Hrow) as Heq. by injection Heq as ->. }
  destruct (Hdoc "cohort" code_added_in s') as (d1 & H1 & P1).
  destruct (Hdoc "ext" id s') as (d2 & H2 & P2).
  destruct (Hdoc "author" id s') as (d3 & H3 & P3).
  destruct (Hdoc "filesize" id s') as (d4 & H4 & P4).
  exists (mkDocuments d1 d2 d3 d4 (out_commit_history out)).
  split.
  - unfold analyze_and_dump, bind. rewrite Hrun. unfold dump_all, bind.
    by rewrite H1, H2, H3, H4.
  - split; [done|]. cbn [cohorts_json exts_json authors_json filesizes_json].
    repeat (apply Forall_cons_2; [assumption|]). apply Forall_nil_2.
Qed.

(** X22.  In a document the labels are the formatted items of the keys of
    its type that have a series, each once, in ascending order; and the
    rows of [y] are the series of those keys, in the order of the labels. *)
Theorem X22_rows_follow_the_sorted_labels (s : State) (out : Output) (s' : State)
        (key_type : string) (label_fmt : value -> value)
        (s0 : State) (doc : Document) (s1 : State) :
  cache_ok s ->
  analyze s = Ok out s' ->
  dump_json isoformat out key_type label_fmt s0 = Ok doc s1 ->
  exists items,
    doc_labels doc = map label_fmt items
    /\ Sorted value_le items
    /\ NoDup items
    /\ (forall v, v ∈ items <-> (key_type, v) ∈ out_curves_set out)
    /\ Forall2 (fun item row => out_curves out !! (key_type, item) = Some row)
               items (doc_y doc).
Proof.
  intros Hs Hrun Hdoc.
  destruct (dump_json_spec s out s' key_type label_fmt Hs Hrun)
    as (items & _ & Hsorted & Hnodup & Hin & _ & Hdump).
  specialize (Hdump s0). exists items.
  destruct (series_of (out_curves out) key_type items) as [e|y] eqn:Hy;
    [congruence|].
  rewrite Hdump in Hdoc. injection Hdoc as <- _. cbn [doc_labels doc_y].
  repeat (split; [done|]). by apply series_of_inr.
Qed.

Lemma list_sum_map_Permutation {A} (g : A -> nat) (l l' : list A) :
  l ≡ₚ l' -> list_sum (map g l) = list_sum (map g l').
Proof.
  induction 1 as [|x l l' _ IH|x y l|l l' l'' _ IH1 _ IH2]; cbn [map].
  - done.
  - by rewrite !list_sum_cons, IH.
  - rewrite !list_sum_cons. lia.
  - congruence.
Qed.

Lemma list_sum_map_filter {A} (p : A -> bool) (g : A -> nat) (l : list A) :
  list_sum (map (fun x => if p x then g x else 0) l)
  = list_sum (map g (List.filter p l)).
Proof.
  induction l as [|x l IH]; [done|].
  cbn [map List.filter]. rewrite list_sum_cons, IH.
  destruct (p x); cbn [map]; [by rewrite list_sum_cons | done].
Qed.

(** X23.  The sum of a column of [y] in the document of a dimension is the
    sum of the series of that dimension at that checkpoint. *)
Theorem X23_columns_of_y_add_up_to_the_series (s : State) (out : Output) (s' : State)
        (key_type : string) (label_fmt : value -> value)
        (s0 : State) (doc : Document) (s1 : State) (j : nat) :
  cache_ok s ->
  analyze s = Ok out s' ->
  dump_json isoformat out key_type label_fmt s0 = Ok doc s1 ->
  j < length (out_ts out) ->
  series_totals key_type out !! j
  = Some (list_sum (map (fun row => default 0 (row !! j)) (doc_y doc))).
Proof.
  intros Hs Hrun Hdoc Hj.
  destruct (dump_json_spec s out s' key_type label_fmt Hs Hrun)
    as (items & _ & _ & _ & _ & Hperm & Hdump).
  specialize (Hdump s0).
  destruct (series_of (out_curves out) key_type items) as [e|y] eqn:Hy;
    [congruence|].
  rewrite Hdump in Hdoc. injection Hdoc as <- _. cbn [doc_y].
  apply series_of_inr in Hy.
  rewrite series_totals_lookup by done. f_equal.
  rewrite key_sum_elements.
  set (f := fun k : key => default 0 (default [] (out_curves out !! k) !! j)).
  rewrite (list_sum_map_filter (fun k : key => String.eqb k.1 key_type) f).
  transitivity (list_sum (map (fun v => f (key_type, v)) items)).
  - rewrite (list_sum_map_Permutation _ _ _ Hperm), map_map.
    apply list_sum_map_ext. intros [kt v] Hk.
    apply list_elem_of_In, List.filter_In in Hk as [_ E].
    apply String.eqb_eq in E. cbn in E. by subst kt.
  - clear Hdump Hperm. induction Hy as [|item row items y Hrow _ IH]; [done|].
    cbn [map]. rewrite !list_sum_cons, IH. f_equal.
    assert (Hr : out_curves out !! ((key_type, item) : key) = Some row)
      by exact Hrow.
    unfold f. by rewrite Hr.
Qed.

End documents.


End analyze.

(** * The histories, run *)

Local Abbreviation run_analyze repo interval branch :=
  (analyze posix.fnmatch posix.filetypes posix.strftime repo "%Y" interval
           [] [] branch false).

Local Abbreviation run_loop repo branch curves_set checkpoints :=
  (analyze_loop posix.fnmatch posix.filetypes posix.strftime repo "%Y"
                [] [] branch false curves_set checkpoints).

Local Abbreviation run_get_file_histogram repo branch commit path :=
  (get_file_histogram posix.fnmatch posix.filetypes posix.strftime repo "%Y"
                      [] [] branch false commit path).

(* [analyze] up to the end of its last loop, with the local variables of the
   loop as they are then. *)
Local Abbreviation run_checkpoints repo interval branch :=
  (bind (count_entries posix.fnmatch posix.filetypes repo interval [] [] false
                       (listed_curves (listing posix.strftime repo "%Y" branch)))
        (fun curves_set =>
           analyze_loop posix.fnmatch posix.filetypes posix.strftime repo "%Y"
                        [] [] branch false curves_set
                        (reverse (master_commits repo interval)))).

Local Abbreviation cache_ok0 := (cache_ok posix.fnmatch posix.filetypes [] [] false).
Local Abbreviation tracked0 := (tracked posix.fnmatch posix.filetypes [] [] false).

Lemma returned_Ok {A} (r : result A) (P : A -> State -> Prop) :
  returned r P -> exists a s, r = Ok a s /\ P a s.
Proof. destruct r as [a s|e]; [eauto | done]. Qed.

Lemma returned_intro {A} (r : result A) (P : A -> State -> Prop) :
  is_Ok r = true -> (forall a s, r = Ok a s -> P a s) -> returned r P.
Proof. destruct r as [a s|e]; [intros _ H; by apply H | discriminate]. Defined.

Lemma returned_impl {A} (r : result A) (P Q : A -> State -> Prop) :
  returned r P -> (forall a s, P a s -> Q a s) -> returned r Q.
Proof. destruct r as [a s|e]; [intros H HPQ; by apply HPQ | done]. Qed.

(** ** C1: three commits *)

(** C1 as stated does not hold of the three-commit history: the run has two
    checkpoints, not three; the cohort totals are not [1; 2; 3]; the
    survival document has two entries, not three. *)
Lemma C1_three_checkpoints_refuted :
  returned (run_analyze three.repo 0 "main" initial_state)
           (fun out _ =>
              length (out_ts out) <> 3
              /\ series_totals "cohort" out <> [1; 2; 3]
              /\ size (out_commit_history out) <> 3).
Proof. vm_compute. repeat split; discriminate. Qed.

(** The general statement at the history [three]. *)
Lemma C1_witness :
  exists out s',
    run_analyze three.repo 0 "main" initial_state = Ok out s'
    /\ reverse (master_commits three.repo 0) = [three.c2; three.c3]
    /\ out_ts out = [three.t2; three.t3]
    /\ series_totals "cohort" out = [2; 3]
    /\ out_commit_history out
       = <[VStr "c2" := [(three.t2, 1); (three.t3, 1)]]>
           (<[VStr "c3" := [(three.t3, 1)]]> ∅).
Proof.
  refine (C1_three_commits_two_checkpoints
            posix.fnmatch posix.filetypes posix.strftime three.repo "%Y" 0%Z
            [] [] "main" false
            "c1" "c2" "c3" "alice" "alice" "alice" "a.py"
            "x = 1" "y = 2" "z = 3" three.t1 three.t2 three.t3 6 12 18
            _ _ _ _ _ _ _ _ _ initial_state _).
  - reflexivity.
  - vm_compute. reflexivity.
  - repeat split; discriminate.
  - vm_compute. reflexivity.
  - reflexivity.
  - reflexivity.
  - vm_compute. reflexivity.
  - vm_compute. reflexivity.
  - apply (bool_decide_unpack _). vm_compute. exact I.
  - apply cache_ok_initial.
Defined.

(** The root of [three] has no entry in the survival document, and the
    documents of the other dimensions have two columns as well. *)
Example three_run :
  returned (run_analyze three.repo 0 "main" initial_state)
           (fun out _ =>
              out_commit_history out !! VStr "c1" = None
              /\ size (out_commit_history out) = 2
              /\ series_totals "author" out = [2; 3]
              /\ series_totals "ext" out = [2; 3]).
Proof. vm_compute. repeat split. Qed.

(** ** C2: the filter *)

(** The filter of the scenario [only=['*.py']], [ignore=['test_*.py']]:
    of [a.py], [test_a.py] and [b.txt] only [a.py] passes. *)
Example path_filter_scenario :
  map (path_filter posix.fnmatch posix.filetypes ["test_*.py"] ["*.py"] false)
      ["a.py"; "test_a.py"; "b.txt"]
  = [true; false; false].
Proof. vm_compute. reflexivity. Qed.

(** With two patterns in [only] a path has to match both: matching one of
    them is needed, and is not enough. *)
Example path_filter_two_patterns :
  path_filter posix.fnmatch posix.filetypes [] ["*.py"; "src/*"] false "a.py" = false
  /\ path_filter posix.fnmatch posix.filetypes [] ["*.py"; "src/*"] false "src/a.py"
     = true.
Proof. vm_compute. by split. Qed.

Lemma C2_witness :
  (false = true
   \/ exists filetype, filetype ∈ posix.filetypes
                       /\ posix.fnmatch (posixpath.basename "a.py") filetype = true)
  /\ (["*.py"] <> [] ->
      exists pattern, pattern ∈ ["*.py"] /\ posix.fnmatch "a.py" pattern = true)
  /\ (forall pattern, pattern ∈ ["test_*.py"] -> posix.fnmatch "a.py" pattern = false).
Proof.
  refine (C2_entry_path_ok_only_if posix.fnmatch posix.filetypes ["test_*.py"]
            ["*.py"] false initial_state "a.py"
            (mkState (<["a.py" := true]> ∅) []) _ _).
  - apply run_initial.
  - vm_compute. reflexivity.
Defined.

(** ** C3: a fault of blame *)

Lemma C3_witness :
  blame steady.repo steady.c1 "bad.py" = inl (Fault "UnicodeDecodeError")
  /\ run_get_file_histogram steady.repo "master" steady.c1 "bad.py" initial_state
     = Ok ∅ (print_exc (Fault "UnicodeDecodeError") initial_state).
Proof.
  split; [vm_compute; reflexivity|].
  refine (proj1 (C3_blame_fault_is_caught posix.fnmatch posix.filetypes
                   posix.strftime steady.repo "%Y" [] [] "master" false
                   steady.c1 "bad.py" "UnicodeDecodeError" initial_state _)).
  vm_compute. reflexivity.
Defined.

(** The run of [steady] goes on after the fault, which it prints once: at the
    second checkpoint [bad.py] has not changed and its empty histogram is in
    the cache. *)
Example steady_run_reports_fault :
  returned (run_analyze steady.repo 0 "master" initial_state)
           (fun out s =>
              stderr s = [Fault "UnicodeDecodeError"]
              /\ series_totals "ext" out = [5; 6]).
Proof. vm_compute. by split. Qed.

(** ** C8: the sampler *)

(** C8 as stated does not hold: in [skewed], with the interval -60000, both
    [h] and its parent [p] are checkpoints, and [p], which is processed
    first, has the later date. *)
Lemma C8_negative_interval_refuted :
  reverse (master_commits skewed.repo skewed.interval) = [skewed.p; skewed.h]
  /\ ~ (committed_date skewed.p < committed_date skewed.h)%Z.
Proof. split; [vm_compute; reflexivity | vm_compute; discriminate]. Qed.

Lemma C8_witness :
  reverse (master_commits reverted.repo reverted.interval)
  = [] ++ reverted.a :: reverted.c :: []
  /\ (0 <= reverted.interval)%Z
  /\ (committed_date reverted.c - committed_date reverted.a > reverted.interval)%Z
  /\ (committed_date reverted.c - committed_date reverted.a >= reverted.interval)%Z
  /\ (committed_date reverted.a < committed_date reverted.c)%Z.
Proof.
  assert (E : reverse (master_commits reverted.repo reverted.interval)
              = [] ++ reverted.a :: reverted.c :: [])
    by (vm_compute; reflexivity).
  assert (Hi : (0 <= reverted.interval)%Z) by (vm_compute; discriminate).
  destruct (C8_checkpoints_ascending_and_spaced reverted.repo reverted.interval
              [] [] reverted.a reverted.c E) as (H1 & H2 & H3).
  split; [exact E|]. split; [exact Hi|]. split; [exact H1|]. split; [exact H2|].
  exact (H3 Hi).
Defined.

(** With an interval of two days the commit one day before the tip is
    skipped. *)
Example reverted_checkpoints :
  reverse (master_commits reverted.repo reverted.interval) = [reverted.a; reverted.c].
Proof. vm_compute. reflexivity. Qed.

(** ** C9: a commit that the listing did not see *)

(** C9 as stated does not hold: at the head [f], which
    [iter_commits('master')] does not list, the two lines of [f] are not
    under [('cohort', 'unresolved')]; they are under [('cohort', 'MISSING')]. *)
Lemma C9_unresolved_label_refuted :
  commit2cohort posix.strftime ahead.repo "%Y" "master" !! "f" = None
  /\ returned (run_get_file_histogram ahead.repo "master" ahead.f "a.py" initial_state)
              (fun h _ =>
                 h !! ("cohort", VStr "unresolved") = None
                 /\ h !! ("cohort", VStr "MISSING") = Some 2).
Proof. vm_compute. by repeat split. Qed.

Lemma C9_witness :
  cache_ok0 initial_state
  /\ blame ahead.repo ahead.f "a.py"
     = inr [(ahead.m, ["x = 1"]); (ahead.f, ["y = 2"; "z = 3"])]
  /\ exists h s',
      run_get_file_histogram ahead.repo "master" ahead.f "a.py" initial_state
      = Ok h s'
      /\ missing_lines posix.strftime ahead.repo "%Y" "master"
                       [(ahead.m, ["x = 1"]); (ahead.f, ["y = 2"; "z = 3"])]
         <= default 0 (h !! ("cohort", VStr "MISSING"))
      /\ total "cohort" h
         = hunk_lines [(ahead.m, ["x = 1"]); (ahead.f, ["y = 2"; "z = 3"])]
      /\ total "ext" h
         = hunk_lines [(ahead.m, ["x = 1"]); (ahead.f, ["y = 2"; "z = 3"])]
      /\ total "author" h
         = hunk_lines [(ahead.m, ["x = 1"]); (ahead.f, ["y = 2"; "z = 3"])].
Proof.
  split; [apply cache_ok_initial|]. split; [vm_compute; reflexivity|].
  refine (proj1 (C9_missing_cohort_is_counted posix.fnmatch posix.filetypes posix.strftime
           ahead.repo "%Y" [] [] "master" false ahead.f "a.py"
           [(ahead.m, ["x = 1"]); (ahead.f, ["y = 2"; "z = 3"])] initial_state
           _ _)).
  - apply cache_ok_initial.
  - vm_compute. reflexivity.
Defined.

(** ** C10: a file in a directory *)

Lemma C10_witness :
  cache_ok0 initial_state
  /\ posixpath.basename "lib/c.py" <> "lib/c.py"
  /\ blame steady.repo steady.c2 "lib/c.py" = inr [(steady.r, ["c = 0"; "d = 0"])]
  /\ exists h s',
      run_get_file_histogram steady.repo "master" steady.c2 "lib/c.py" initial_state
      = Ok h s'
      /\ default 0 (h !! ("filesize", VInt 0))
         = hunk_lines [(steady.r, ["c = 0"; "d = 0"])]
      /\ forall v, v <> VInt 0 -> h !! ("filesize", v) = None.
Proof.
  split; [apply cache_ok_initial|].
  split; [vm_compute; discriminate|]. split; [vm_compute; reflexivity|].
  apply (C10_filesize_zero_in_subdirectory posix.fnmatch posix.filetypes
           posix.strftime steady.repo "%Y" [] [] "master" false steady.c2
           "lib/c.py" [(steady.r, ["c = 0"; "d = 0"])] initial_state).
  - apply cache_ok_initial.
  - vm_compute. discriminate.
  - vm_compute. reflexivity.
Defined.

(** For a file at the top of the tree the blob is found, in the tree of the
    commit that blame names: the line of the root is counted under the size
    that [a.py] has in the root. *)
Example filesize_at_top :
  returned (run_get_file_histogram steady.repo "master" steady.c2 "a.py" initial_state)
           (fun h _ =>
              h !! ("filesize", VInt 6) = Some 1
              /\ h !! ("filesize", VInt 12) = Some 1
              /\ h !! ("filesize", VInt 18) = Some 1).
Proof. vm_compute. by repeat split. Qed.

(** ** C4: the cache *)

(** C4 as stated does not hold.  In [reverted] the checkpoints are [a] and
    [c]; [f.py] is in the tree of [c] and the diff of [c] with [a] does not
    report it; the histogram served at [c] is the one computed at [a], and it
    is not the one that [get_file_histogram] returns at [c]. *)
Lemma C4_cached_histogram_refuted :
  reverse (master_commits reverted.repo reverted.interval) = [reverted.a; reverted.c]
  /\ "f.py" ∈ paths_of (tracked0 reverted.c)
  /\ ("f.py" ∉ changed_since reverted.repo (Some reverted.a) reverted.c)
  /\ returned
       (run_checkpoints reverted.repo reverted.interval "master" initial_state)
       (fun st s =>
          returned
            (run_get_file_histogram reverted.repo "master" reverted.c "f.py" s)
            (fun fresh _ =>
               file_histograms st !! "f.py" <> Some fresh
               /\ file_histograms st !! "f.py" ≫= (.!! ("sha", VStr "a")) = Some 1
               /\ fresh !! ("sha", VStr "a") = None
               /\ fresh !! ("sha", VStr "c") = Some 1)).
Proof.
  split; [vm_compute; reflexivity|].
  split; [vm_compute; by left|].
  split; [vm_compute; discriminate|].
  apply (returned_impl _
           (fun st s =>
              returned
                (run_get_file_histogram reverted.repo "master" reverted.c "f.py" s)
                (fun fresh _ =>
                   file_histograms st !! "f.py" ≫= (.!! ("sha", VStr "a")) = Some 1
                   /\ fresh !! ("sha", VStr "a") = None
                   /\ fresh !! ("sha", VStr "c") = Some 1))).
  - vm_compute. by repeat split.
  - intros st s H. apply (returned_impl _ _ _ H). clear H.
    intros fresh _ (H1 & H2 & H3). split; [|done].
    intros E. rewrite E in H1. cbn in H1. congruence.
Qed.

Local Ltac each_blob Hb :=
  vm_compute in Hb;
  repeat (apply elem_of_cons in Hb as [->|Hb]);
  [..|by apply elem_of_nil in Hb].

Lemma steady_blame_carried :
  blame_carried posix.fnmatch posix.filetypes steady.repo [] [] false
                steady.c1 steady.c2.
Proof.
  intros blob Hb Hch. each_blob Hb.
  - exfalso. apply Hch. vm_compute. reflexivity.
  - split; [vm_compute; set_solver | vm_compute; reflexivity].
  - split; [vm_compute; set_solver | vm_compute; reflexivity].
  - split; [vm_compute; set_solver | vm_compute; reflexivity].
Defined.

Lemma C4_witness :
  cache_ok0 initial_state
  /\ consecutive
       (blame_carried posix.fnmatch posix.filetypes steady.repo [] [] false)
       ([steady.c1] ++ [steady.c2])
  /\ returned
       (run_loop steady.repo "master" ∅ ([steady.c1] ++ [steady.c2]) initial_state)
       (fun st s' =>
          (forall blob,
              blob ∈ tracked0 steady.c2 ->
              exists h s'',
                file_histograms st !! entry_path blob = Some h
                /\ run_get_file_histogram steady.repo "master" steady.c2
                                          (entry_path blob) s' = Ok h s'')
          /\ exists served,
              histogram st = merge_all served ∅
              /\ Forall2 (fun blob h =>
                            exists s'',
                              run_get_file_histogram steady.repo "master" steady.c2
                                                     (entry_path blob) s' = Ok h s'')
                         (tracked0 steady.c2) served).
Proof.
  split; [apply cache_ok_initial|].
  split; [apply consecutive_two, steady_blame_carried|].
  apply returned_intro; [vm_compute; reflexivity|]. intros st s' E.
  exact (C4_cache_serves_fresh_histogram posix.fnmatch posix.filetypes posix.strftime
           steady.repo "%Y" [] [] "master" false ∅ [steady.c1] steady.c2
           initial_state st s'
           (cache_ok_initial _ _ _ _ _)
           (consecutive_two _ _ _ steady_blame_carried) E).
Defined.

(** ** C5: the survival series *)



(** ** C6: the totals *)

Lemma steady_lines_carried :
  lines_carried posix.fnmatch posix.filetypes steady.repo [] [] false
                steady.c1 steady.c2.
Proof.
  intros blob Hb Hch. each_blob Hb.
  - exfalso. apply Hch. vm_compute. reflexivity.
  - split; [vm_compute; set_solver | vm_compute; reflexivity].
  - split; [vm_compute; set_solver | vm_compute; reflexivity].
  - split; [vm_compute; set_solver | vm_compute; reflexivity].
Defined.

Example steady_live_lines :
  live_lines posix.fnmatch posix.filetypes steady.repo [] [] false steady.c2 = 6.
Proof. vm_compute. reflexivity. Qed.

(** C6 as stated does not hold.  In [steady] the tracked file [bad.py] has
    a line, and [repo.blame] raises on it: at the last checkpoint the three
    sums are 6, and the tracked files have 7 lines. *)
Lemma C6_live_lines_refuted :
  "bad.py" ∈ paths_of (tracked0 steady.c2)
  /\ blame steady.repo steady.c2 "bad.py" = inl (Fault "UnicodeDecodeError")
  /\ steady.line_count steady.c2 "bad.py" = 1
  /\ Forall (fun blob =>
               match blame steady.repo steady.c2 (entry_path blob) with
               | inr hunks =>
                   hunk_lines hunks = steady.line_count steady.c2 (entry_path blob)
               | inl _ => True
               end)
            (tracked0 steady.c2)
  /\ trackable_lines posix.fnmatch posix.filetypes [] [] false
                     steady.line_count steady.c2 = 7
  /\ returned
       (run_checkpoints steady.repo 0 "master" initial_state)
       (fun st _ =>
          last_commit st = Some steady.c2
          /\ total "cohort" (histogram st) = 6
          /\ total "ext" (histogram st) = 6
          /\ total "author" (histogram st) = 6
          /\ total "cohort" (histogram st)
             <> trackable_lines posix.fnmatch posix.filetypes [] [] false
                                steady.line_count steady.c2).
Proof.
  split; [vm_compute; set_solver|]. split; [vm_compute; reflexivity|].
  split; [vm_compute; reflexivity|].
  split; [vm_compute; by repeat constructor|].
  split; [vm_compute; reflexivity|].
  vm_compute. repeat split. discriminate.
Qed.

(** With [bad.py] ignored, [repo.blame] returns for every tracked file of
    [steady], with all its lines. *)
Lemma steady_blame_complete :
  Forall (blame_complete posix.fnmatch posix.filetypes steady.repo ["bad.py"] []
                         false steady.line_count)
         ([steady.c1] ++ [steady.c2]).
Proof.
  repeat apply Forall_cons_2; [| |apply Forall_nil_2];
    intros blob Hb; each_blob Hb; eexists; split; vm_compute; reflexivity.
Defined.

Lemma steady_lines_kept :
  lines_kept posix.fnmatch posix.filetypes steady.repo ["bad.py"] [] false
             steady.line_count steady.c1 steady.c2.
Proof.
  intros blob Hb Hch. each_blob Hb.
  - exfalso. apply Hch. vm_compute. reflexivity.
  - split; [vm_compute; set_solver | vm_compute; reflexivity].
  - split; [vm_compute; set_solver | vm_compute; reflexivity].
Defined.

Lemma C6_witness :
  cache_ok posix.fnmatch posix.filetypes ["bad.py"] [] false initial_state
  /\ Forall (blame_complete posix.fnmatch posix.filetypes steady.repo ["bad.py"] []
                            false steady.line_count)
            ([steady.c1] ++ [steady.c2])
  /\ consecutive
       (lines_kept posix.fnmatch posix.filetypes steady.repo ["bad.py"] [] false
                   steady.line_count)
       ([steady.c1] ++ [steady.c2])
  /\ returned
       (analyze_loop posix.fnmatch posix.filetypes posix.strftime steady.repo "%Y"
                     ["bad.py"] [] "master" false ∅ ([steady.c1] ++ [steady.c2])
                     initial_state)
       (fun st _ =>
          total "cohort" (histogram st) = total "ext" (histogram st)
          /\ total "ext" (histogram st) = total "author" (histogram st)
          /\ total "cohort" (histogram st)
             = trackable_lines posix.fnmatch posix.filetypes ["bad.py"] [] false
                               steady.line_count steady.c2).
Proof.
  split; [apply cache_ok_initial|].
  split; [exact steady_blame_complete|].
  split; [apply consecutive_two, steady_lines_kept|].
  apply returned_intro; [vm_compute; reflexivity|]. intros st s' E.
  destruct (C6_dimension_totals_agree posix.fnmatch posix.filetypes posix.strftime
              steady.repo "%Y" ["bad.py"] [] "master" false ∅ [steady.c1] steady.c2
              steady.line_count initial_state st s' (cache_ok_initial _ _ _ _ _) E)
    as (H1 & H2 & _ & H4).
  split; [exact H1|]. split; [exact H2|].
  exact (H4 steady_blame_complete (consecutive_two _ _ _ steady_lines_kept)).
Defined.

(** With [bad.py] among the tracked files the sum is still the number of
    lines that blame gives, [bad.py] giving none. *)
Example steady_blamed_lines :
  consecutive
    (lines_carried posix.fnmatch posix.filetypes steady.repo [] [] false)
    [steady.c1; steady.c2]
  /\ returned
       (run_loop steady.repo "master" ∅ [steady.c1; steady.c2] initial_state)
       (fun st _ =>
          total "cohort" (histogram st)
          = live_lines posix.fnmatch posix.filetypes steady.repo [] [] false
                       steady.c2).
Proof.
  split; [apply consecutive_two, steady_lines_carried|].
  vm_compute. reflexivity.
Qed.

(** In [ahead] the lines of the commit that the listing did not see are in
    the histogram of the checkpoint, under ['MISSING'] and under an author
    that has no series: the totals of the histogram agree, the series of the
    cohorts and of the authors leave the lines out. *)
Example ahead_histogram_and_series :
  returned (run_checkpoints ahead.repo 0 "master" initial_state)
           (fun st _ =>
              total "cohort" (histogram st) = 3
              /\ total "ext" (histogram st) = 3
              /\ total "author" (histogram st) = 3)
  /\ returned (run_analyze ahead.repo 0 "master" initial_state)
              (fun out _ =>
                 series_totals "cohort" out = [1; 1]
                 /\ series_totals "ext" out = [1; 3]
                 /\ series_totals "author" out = [1; 1]).
Proof. vm_compute. by repeat split. Qed.

(** ** C7: the series *)

Lemma C7_witness :
  cache_ok0 initial_state
  /\ returned
       (run_analyze steady.repo 0 "master" initial_state)
       (fun out _ =>
          length (out_ts out) = length (master_commits steady.repo 0)
          /\ (forall k, k ∈ out_curves_set out ->
                        k.1 ∈ ["cohort"; "author"; "ext"; "filesize"])
          /\ forall k, k ∈ out_curves_set out ->
                       length (default [] (out_curves out !! k))
                       = length (master_commits steady.repo 0)).
Proof.
  split; [apply cache_ok_initial|].
  apply returned_intro; [vm_compute; reflexivity|]. intros out s' E.
  destruct (C7_series_are_aligned posix.fnmatch posix.filetypes posix.strftime
              steady.repo "%Y" 0%Z [] [] "master" false initial_state out s'
              (cache_ok_initial _ _ _ _ _) E)
    as (s1 & _ & -> & Hkinds & _ & Hts & Hlen & _).
  by repeat split.
Defined.

(** The series of the run of [steady]. *)
Example steady_series :
  returned (run_analyze steady.repo 0 "master" initial_state)
           (fun out _ =>
              out_ts out = [(steady.t0 + 86400)%Z; (steady.t0 + 2 * 86400)%Z]
              /\ out_curves out !! ("author", VStr "alice") = Some [4; 4]
              /\ out_curves out !! ("author", VStr "bob") = Some [1; 2]
              /\ out_curves out !! ("filesize", VInt 8) = Some [0; 0]).
Proof. vm_compute. by repeat split. Qed.

(** * More of [analyze], run *)

Local Abbreviation run_get_blob_entries commit :=
  (get_blob_entries posix.fnmatch posix.filetypes [] [] false commit).

Local Abbreviation run_dump repo interval branch key_type label_fmt :=
  (bind (run_analyze repo interval branch)
        (fun out => dump_json posix.isoformat out key_type label_fmt)).

Local Abbreviation run_analyze_and_dump repo interval branch :=
  (analyze_and_dump posix.fnmatch posix.filetypes posix.strftime repo "%Y"
                    interval [] [] branch false posix.isoformat).

Lemma returned_with {A} (r : result A) (P Q : A -> State -> Prop) :
  returned r P -> (forall a s, r = Ok a s -> P a s -> Q a s) -> returned r Q.
Proof. destruct r as [a s|e]; [intros H HPQ; by apply HPQ | done]. Defined.

(** ** The sampler *)

Lemma X2_witness :
  parents (head_commit three.repo) <> []
  /\ last (reverse (master_commits three.repo 0)) = Some (head_commit three.repo).
Proof.
  split; [discriminate|].
  apply (proj2 (X2_head_is_sampled_first three.repo 0)). discriminate.
Defined.

(** In [reverted] the commit [b], one day before the head, is skipped for
    an interval of two days. *)
Lemma X3_witness :
  reverted.b ∈ master_commits reverted.repo reverted.interval
  \/ exists k, k ∈ master_commits reverted.repo reverted.interval
               /\ (committed_date k - reverted.interval
                   <= committed_date reverted.b)%Z.
Proof.
  apply (X3_skipped_commits_are_close reverted.repo reverted.interval reverted.b).
  - apply list_elem_of_further, list_elem_of_here.
  - discriminate.
Defined.

(** ** The listing and the keys *)

Lemma X4_witness :
  commit2cohort posix.strftime ahead.repo "%Y" "master" !! "m" = Some "2016"
  /\ exists commit,
      commit ∈ iter_commits ahead.repo "master"
      /\ hexsha commit = "m"
      /\ "2016" = posix.strftime (committed_date commit) "%Y".
Proof.
  split; [vm_compute; reflexivity|].
  apply (proj2 (X4_commit2cohort_is_the_listing posix.strftime ahead.repo "%Y"
                  "master" "m")).
  vm_compute. reflexivity.
Defined.

Lemma X5_witness :
  cache_ok0 initial_state
  /\ returned (run_analyze three.repo 0 "main" initial_state)
              (fun out _ =>
                 is_Some (out_commit_history out !! VStr "c2")
                 /\ exists commit,
                     commit ∈ iter_commits three.repo "main"
                     /\ VStr "c2" = VStr (hexsha commit)
                     /\ length (parents commit) = 1).
Proof.
  split; [apply cache_ok_initial|].
  apply (returned_with _ (fun out _ => is_Some (out_commit_history out !! VStr "c2"))).
  - vm_compute. by eexists.
  - intros out s' E H. split; [exact H|].
    exact (X5_survival_keys_have_one_parent
             posix.fnmatch posix.filetypes posix.strftime three.repo "%Y" 0%Z
             [] [] "main" false initial_state out s' (VStr "c2")
             (cache_ok_initial _ _ _ _ _) E H).
Defined.

Lemma X6_witness :
  cache_ok0 initial_state
  /\ returned (run_analyze steady.repo 0 "master" initial_state)
              (fun out _ =>
                 ("ext", VStr ".py") ∈ out_curves_set out
                 <-> (exists commit,
                         commit ∈ iter_commits steady.repo "master"
                         /\ (("ext", VStr ".py") = ("author", VStr (author_name commit))
                             \/ ("ext", VStr ".py")
                                = ("cohort",
                                   VStr (posix.strftime (committed_date commit) "%Y"))))
                     \/ (exists commit blob,
                            commit ∈ master_commits steady.repo 0
                            /\ blob ∈ tracked0 commit
                            /\ (("ext", VStr ".py")
                                = ("ext",
                                   VStr (posixpath.splitext_ext (entry_path blob)))
                                \/ ("ext", VStr ".py")
                                   = ("filesize", VInt (entry_size blob))))).
Proof.
  split; [apply cache_ok_initial|].
  apply returned_intro; [vm_compute; reflexivity|]. intros out s' E.
  exact (X6_keys_of_the_series
           posix.fnmatch posix.filetypes posix.strftime steady.repo "%Y" 0%Z
           [] [] "master" false initial_state out s' ("ext", VStr ".py")
           (cache_ok_initial _ _ _ _ _) E).
Defined.

(** ** The filter *)

Lemma X7_witness :
  true = true
  <-> (false = true
       \/ exists filetype, filetype ∈ posix.filetypes
                           /\ posix.fnmatch (posixpath.basename "src/a.py") filetype
                              = true)
      /\ (forall pattern, pattern ∈ ["*.py"; "src/*"] ->
                          posix.fnmatch "src/a.py" pattern = true)
      /\ (forall pattern, pattern ∈ ["test_*.py"] ->
                          posix.fnmatch "src/a.py" pattern = false).
Proof.
  refine (X7_entry_path_ok_exactly posix.fnmatch posix.filetypes ["test_*.py"]
            ["*.py"; "src/*"] false initial_state "src/a.py" true
            (mkState (<["src/a.py" := true]> ∅) []) _ _).
  - apply run_initial.
  - vm_compute. reflexivity.
Defined.

Lemma X8_witness :
  ok_entry_paths (mkState (<["a.py" := true]> ∅) []) !! "a.py" = Some true
  /\ (forall path' ok', ok_entry_paths initial_state !! path' = Some ok' ->
                        ok_entry_paths (mkState (<["a.py" := true]> ∅) []) !! path'
                        = Some ok')
  /\ stderr (mkState (<["a.py" := true]> ∅) []) = stderr initial_state
  /\ entry_path_ok posix.fnmatch posix.filetypes [] [] false "a.py"
                   (mkState (<["a.py" := true]> ∅) [])
     = Ok true (mkState (<["a.py" := true]> ∅) []).
Proof.
  refine (X8_entry_path_ok_memo posix.fnmatch posix.filetypes [] [] false
            initial_state "a.py" true (mkState (<["a.py" := true]> ∅) []) _).
  vm_compute. reflexivity.
Defined.

Lemma X9_witness :
  exists s',
    run_get_blob_entries steady.c1 initial_state
    = Ok (List.filter
            (fun entry =>
               String.eqb (entry_type entry) "blob"
               && path_filter posix.fnmatch posix.filetypes [] [] false
                              (entry_path entry))
            (tree steady.c1)) s'
    /\ stderr s' = stderr initial_state
    /\ forall path ok, ok_entry_paths initial_state !! path = Some ok ->
                       ok_entry_paths s' !! path = Some ok.
Proof.
  apply (X9_get_blob_entries_filters_the_tree posix.fnmatch posix.filetypes [] []
           false steady.c1 initial_state).
  apply run_initial.
Defined.

(** [README.md] and the directory [lib] are not among the blobs of
    [steady.c1]. *)
Example steady_blob_entries :
  returned (run_get_blob_entries steady.c1 initial_state)
           (fun blobs _ =>
              map entry_path blobs = ["a.py"; "b.py"; "lib/c.py"; "bad.py"]).
Proof. vm_compute. reflexivity. Qed.

(** ** The histogram of a file *)

Lemma X10_witness :
  cache_ok0 initial_state
  /\ blame ahead.repo ahead.f "a.py"
     = inr [(ahead.m, ["x = 1"]); (ahead.f, ["y = 2"; "z = 3"])]
  /\ exists h s',
      run_get_file_histogram ahead.repo "master" ahead.f "a.py" initial_state
      = Ok h s'
      /\ default 0 (h !! ("author", VStr "bob"))
         = list_sum (map (fun hunk : Commit * list string =>
                            if bool_decide (author_name hunk.1 = "bob")
                            then length hunk.2 else 0)
                         [(ahead.m, ["x = 1"]); (ahead.f, ["y = 2"; "z = 3"])]).
Proof.
  split; [apply cache_ok_initial|]. split; [vm_compute; reflexivity|].
  apply (X10_author_count_is_blamed_lines
           posix.fnmatch posix.filetypes posix.strftime ahead.repo "%Y" [] []
           "master" false ahead.f "a.py"
           [(ahead.m, ["x = 1"]); (ahead.f, ["y = 2"; "z = 3"])] "bob" initial_state).
  - apply cache_ok_initial.
  - vm_compute. reflexivity.
Defined.

Lemma X11_witness :
  cache_ok0 initial_state
  /\ blame ahead.repo ahead.f "a.py"
     = inr [(ahead.m, ["x = 1"]); (ahead.f, ["y = 2"; "z = 3"])]
  /\ exists h s',
      run_get_file_histogram ahead.repo "master" ahead.f "a.py" initial_state
      = Ok h s'
      /\ (commit2timestamp posix.strftime ahead.repo "%Y" "master" !! "m" = None ->
          h !! ("sha", VStr "m") = None)
      /\ (is_Some (commit2timestamp posix.strftime ahead.repo "%Y" "master" !! "m") ->
          default 0 (h !! ("sha", VStr "m"))
          = list_sum (map (fun hunk : Commit * list string =>
                             if bool_decide (hexsha hunk.1 = "m")
                             then length hunk.2 else 0)
                          [(ahead.m, ["x = 1"]); (ahead.f, ["y = 2"; "z = 3"])])).
Proof.
  split; [apply cache_ok_initial|]. split; [vm_compute; reflexivity|].
  apply (X11_sha_count_is_blamed_lines
           posix.fnmatch posix.filetypes posix.strftime ahead.repo "%Y" [] []
           "master" false ahead.f "a.py"
           [(ahead.m, ["x = 1"]); (ahead.f, ["y = 2"; "z = 3"])] "m" initial_state).
  - apply cache_ok_initial.
  - vm_compute. reflexivity.
Defined.

(** In [ahead] the commit [m] is listed and has one parent, the head [f] is
    not listed: the file has a ['sha'] key for [m] and none for [f]. *)
Example ahead_sha_keys :
  is_Some (commit2timestamp posix.strftime ahead.repo "%Y" "master" !! "m")
  /\ commit2timestamp posix.strftime ahead.repo "%Y" "master" !! "f" = None
  /\ returned (run_get_file_histogram ahead.repo "master" ahead.f "a.py" initial_state)
              (fun h _ => h !! ("sha", VStr "m") = Some 1
                          /\ h !! ("sha", VStr "f") = None).
Proof. vm_compute. split; [by eexists | by repeat split]. Qed.

Lemma X12_witness :
  cache_ok0 initial_state
  /\ blame steady.repo steady.c2 "lib/c.py" = inr [(steady.r, ["c = 0"; "d = 0"])]
  /\ exists h s',
      run_get_file_histogram steady.repo "master" steady.c2 "lib/c.py" initial_state
      = Ok h s'
      /\ default 0 (h !! ("ext", VStr (posixpath.splitext_ext "lib/c.py")))
         = hunk_lines [(steady.r, ["c = 0"; "d = 0"])]
      /\ forall v, v <> VStr (posixpath.splitext_ext "lib/c.py") ->
                   h !! ("ext", v) = None.
Proof.
  split; [apply cache_ok_initial|]. split; [vm_compute; reflexivity|].
  apply (X12_one_extension_per_file
           posix.fnmatch posix.filetypes posix.strftime steady.repo "%Y" [] []
           "master" false steady.c2 "lib/c.py"
           [(steady.r, ["c = 0"; "d = 0"])] initial_state).
  - apply cache_ok_initial.
  - vm_compute. reflexivity.
Defined.

(** ** The loop over the checkpoints *)

Lemma X14_witness :
  cache_ok0 initial_state
  /\ returned (run_analyze three.repo 0 "main" initial_state)
              (fun out _ =>
                 out_ts out
                 = map committed_date (reverse (master_commits three.repo 0))).
Proof.
  split; [apply cache_ok_initial|].
  apply returned_intro; [vm_compute; reflexivity|]. intros out s' E.
  exact (X14_ts_are_the_checkpoint_dates
           posix.fnmatch posix.filetypes posix.strftime three.repo "%Y" 0%Z
           [] [] "main" false initial_state out s' (cache_ok_initial _ _ _ _ _) E).
Defined.

Lemma X15_witness :
  cache_ok0 initial_state
  /\ returned (run_analyze three.repo 0 "main" initial_state)
              (fun out _ =>
                 out_commit_history out !! VStr "c3" = Some [(three.t3, 1)]
                 /\ [(three.t3, 1)] <> []
                 /\ sublist (map fst [(three.t3, 1)]) (out_ts out)).
Proof.
  split; [apply cache_ok_initial|].
  apply (returned_with _ (fun out _ =>
                            out_commit_history out !! VStr "c3"
                            = Some [(three.t3, 1)])).
  - vm_compute. reflexivity.
  - intros out s' E H. split; [exact H|].
    exact (X15_survival_dates_follow_ts
             posix.fnmatch posix.filetypes posix.strftime three.repo "%Y" 0%Z
             [] [] "main" false initial_state out s' (VStr "c3") [(three.t3, 1)]
             (cache_ok_initial _ _ _ _ _) E H).
Defined.

Lemma X16_witness :
  cache_ok0 initial_state
  /\ returned
       (run_loop steady.repo "master" ∅ ([steady.c1] ++ [steady.c2]) initial_state)
       (fun st _ =>
          default 0 (histogram st !! ("author", VStr "alice"))
          = list_sum
              (map (fun blob =>
                      default 0 (default ∅ (file_histograms st !! entry_path blob)
                                   !! ("author", VStr "alice")))
                   (tracked0 steady.c2))).
Proof.
  split; [apply cache_ok_initial|].
  apply returned_intro; [vm_compute; reflexivity|]. intros st s' E.
  exact (X16_histogram_is_the_sum_of_the_files
           posix.fnmatch posix.filetypes posix.strftime steady.repo "%Y" [] []
           "master" false ∅ [steady.c1] steady.c2 initial_state st s'
           ("author", VStr "alice") (cache_ok_initial _ _ _ _ _) E).
Defined.

Lemma X17_witness :
  cache_ok0 initial_state
  /\ returned
       (run_loop steady.repo "master" ∅ [steady.c1; steady.c2] initial_state)
       (fun st _ =>
          is_Some (file_histograms st !! "bad.py")
          <-> exists commit,
              commit ∈ [steady.c1; steady.c2]
              /\ "bad.py" ∈ paths_of (tracked0 commit)).
Proof.
  split; [apply cache_ok_initial|].
  apply returned_intro; [vm_compute; reflexivity|]. intros st s' E.
  exact (X17_cache_keeps_every_tracked_path
           posix.fnmatch posix.filetypes posix.strftime steady.repo "%Y" [] []
           "master" false ∅ [steady.c1; steady.c2] initial_state st s' "bad.py"
           (cache_ok_initial _ _ _ _ _) E).
Defined.

(** ** What the series count *)

Lemma X18_witness :
  cache_ok0 initial_state
  /\ reverse (master_commits steady.repo 0) = [steady.c1] ++ steady.c2 :: []
  /\ consecutive
       (lines_carried posix.fnmatch posix.filetypes steady.repo [] [] false)
       ([steady.c1] ++ [steady.c2])
  /\ returned
       (run_analyze steady.repo 0 "master" initial_state)
       (fun out _ =>
          series_totals "ext" out !! length [steady.c1]
          = Some (live_lines posix.fnmatch posix.filetypes steady.repo [] [] false
                             steady.c2)).
Proof.
  split; [apply cache_ok_initial|]. split; [vm_compute; reflexivity|].
  split; [apply consecutive_two, steady_lines_carried|].
  apply returned_intro; [vm_compute; reflexivity|]. intros out s' E.
  destruct (X18_extension_series_lose_no_line
              posix.fnmatch posix.filetypes posix.strftime steady.repo "%Y" 0%Z
              [] [] "master" false initial_state out s' [steady.c1] [] steady.c2
              (cache_ok_initial _ _ _ _ _) E)
    as (s1 & sti & si & _ & _ & _ & H).
  - vm_compute. reflexivity.
  - exact (H (consecutive_two _ _ _ steady_lines_carried)).
Defined.

Lemma X19_witness :
  cache_ok0 initial_state
  /\ reverse (master_commits ahead.repo 0) = [ahead.m] ++ ahead.f :: []
  /\ returned
       (run_analyze ahead.repo 0 "master" initial_state)
       (fun out _ =>
          exists s1 sti si n,
            count_entries posix.fnmatch posix.filetypes ahead.repo 0 [] [] false
                          (listed_curves (listing posix.strftime ahead.repo "%Y" "master"))
                          initial_state
            = Ok (curves_universe posix.fnmatch posix.filetypes posix.strftime
                                  ahead.repo "%Y" 0 [] [] "master" false) s1
            /\ run_loop ahead.repo "master"
                        (curves_universe posix.fnmatch posix.filetypes posix.strftime
                                         ahead.repo "%Y" 0 [] [] "master" false)
                        ([ahead.m] ++ [ahead.f]) s1 = Ok sti si
            /\ series_totals "cohort" out !! length [ahead.m] = Some n
            /\ n <= total "cohort" (histogram sti)).
Proof.
  split; [apply cache_ok_initial|]. split; [vm_compute; reflexivity|].
  apply returned_intro; [vm_compute; reflexivity|]. intros out s' E.
  apply (X19_series_count_no_more_than_the_histogram
           posix.fnmatch posix.filetypes posix.strftime ahead.repo "%Y" 0%Z
           [] [] "master" false "cohort" initial_state out s' [ahead.m] [] ahead.f
           (cache_ok_initial _ _ _ _ _) E).
  vm_compute. reflexivity.
Defined.

(** In [ahead] the last column of the cohort document counts one line where
    the histogram of the checkpoint has three: the two lines of the head are
    under [('cohort', 'MISSING')], which has no series. *)
Example ahead_cohort_column :
  returned (run_analyze ahead.repo 0 "master" initial_state)
           (fun out _ => series_totals "cohort" out = [1; 1]
                         /\ series_totals "ext" out = [1; 3]).
Proof. vm_compute. by split. Qed.

(** ** The documents *)

Lemma X20_witness :
  cache_ok0 initial_state
  /\ parents (head_commit single.repo) = []
  /\ iter_commits single.repo "master" <> []
  /\ run_analyze_and_dump single.repo 0 "master" initial_state
     = Raise (Fault "KeyError").
Proof.
  split; [apply cache_ok_initial|]. split; [reflexivity|]. split; [discriminate|].
  apply (X20_no_checkpoint_raises_KeyError
           posix.fnmatch posix.filetypes posix.strftime single.repo "%Y" 0%Z
           [] [] "master" false posix.isoformat initial_state).
  - apply cache_ok_initial.
  - reflexivity.
  - discriminate.
Defined.

Lemma X21_witness :
  cache_ok0 initial_state
  /\ parents (head_commit three.repo) <> []
  /\ returned
       (run_analyze three.repo 0 "main" initial_state)
       (fun out s' =>
          exists docs,
            run_analyze_and_dump three.repo 0 "main" initial_state = Ok docs s'
            /\ survival_json docs = out_commit_history out
            /\ Forall (fun doc =>
                         length (doc_y doc) = length (doc_labels doc)
                         /\ Forall (fun row => length row = length (doc_ts doc))
                                   (doc_y doc)
                         /\ doc_ts doc
                            = map posix.isoformat
                                  (map committed_date
                                       (reverse (master_commits three.repo 0))))
                      [cohorts_json docs; exts_json docs; authors_json docs;
                       filesizes_json docs]).
Proof.
  split; [apply cache_ok_initial|]. split; [discriminate|].
  apply returned_intro; [vm_compute; reflexivity|]. intros out s' E.
  apply (X21_documents_are_rectangular
           posix.fnmatch posix.filetypes posix.strftime three.repo "%Y" 0%Z
           [] [] "main" false posix.isoformat initial_state out s').
  - apply cache_ok_initial.
  - discriminate.
  - exact E.
Defined.

(** The documents of [three] and of [steady].  In [three] the line of the
    root is under the size that [a.py] has in the root, which is no key of
    the series: the size document has one line at the first checkpoint and
    two at the second. *)
Example three_documents :
  returned (run_analyze_and_dump three.repo 0 "main" initial_state)
           (fun docs _ =>
              cohorts_json docs
              = mkDocument [[2; 3]]
                           ["2016-02-01T00:00:00"; "2016-03-01T00:00:00"]
                           [VStr "Code added in 2016"]
              /\ filesizes_json docs
                 = mkDocument [[1; 1]; [0; 1]]
                              ["2016-02-01T00:00:00"; "2016-03-01T00:00:00"]
                              [VInt 12; VInt 18]).
Proof. vm_compute. by split. Qed.

Example steady_documents :
  returned (run_analyze_and_dump steady.repo 0 "master" initial_state)
           (fun docs _ =>
              authors_json docs
              = mkDocument [[4; 4]; [1; 2]]
                           ["2016-01-02T00:00:00"; "2016-01-03T00:00:00"]
                           [VStr "alice"; VStr "bob"]
              /\ doc_labels (filesizes_json docs)
                 = [VInt 3; VInt 6; VInt 8; VInt 12; VInt 18]
              /\ doc_y (filesizes_json docs)
                 = [[0; 0]; [2; 2]; [0; 0]; [1; 1]; [0; 1]]).
Proof. vm_compute. by repeat split. Qed.

Lemma returned_at {A} (r : result A) (P : A -> State -> Prop) (a : A) (s : State) :
  returned r P -> r = Ok a s -> P a s.
Proof. by intros H ->. Qed.

Lemma X22_witness :
  cache_ok0 initial_state
  /\ returned
       (run_dump three.repo 0 "main" "filesize" id initial_state)
       (fun doc _ =>
          exists out s' items,
            run_analyze three.repo 0 "main" initial_state = Ok out s'
            /\ doc_labels doc = map id items
            /\ Sorted value_le items
            /\ NoDup items
            /\ (forall v, v ∈ items <-> ("filesize", v) ∈ out_curves_set out)
            /\ Forall2 (fun item row =>
                          out_curves out !! ("filesize", item) = Some row)
                       items (doc_y doc)).
Proof.
  split; [apply cache_ok_initial|].
  apply returned_intro; [vm_compute; reflexivity|]. intros doc s1 E.
  apply bind_Ok in E as (out & s' & Hrun & Hdoc).
  destruct (X22_rows_follow_the_sorted_labels
              posix.fnmatch posix.filetypes posix.strftime three.repo "%Y" 0%Z
              [] [] "main" false posix.isoformat initial_state out s'
              "filesize" id s' doc s1 (cache_ok_initial _ _ _ _ _) Hrun Hdoc)
    as (items & H).
  by exists out, s', items.
Defined.

Lemma X23_witness :
  cache_ok0 initial_state
  /\ returned
       (run_dump three.repo 0 "main" "filesize" id initial_state)
       (fun doc _ =>
          exists out s',
            run_analyze three.repo 0 "main" initial_state = Ok out s'
            /\ 1 < length (out_ts out)
            /\ series_totals "filesize" out !! 1
               = Some (list_sum (map (fun row => default 0 (row !! 1)) (doc_y doc)))).
Proof.
  split; [apply cache_ok_initial|].
  apply returned_intro; [vm_compute; reflexivity|]. intros doc s1 E.
  apply bind_Ok in E as (out & s' & Hrun & Hdoc).
  assert (Hlen : 1 < length (out_ts out)).
  { apply (returned_at (run_analyze three.repo 0 "main" initial_state)
                        (fun out _ => 1 < length (out_ts out)) out s');
      [vm_compute; lia | exact Hrun]. }
  exists out, s'. split; [exact Hrun|]. split; [exact Hlen|].
  exact (X23_columns_of_y_add_up_to_the_series
           posix.fnmatch posix.filetypes posix.strftime three.repo "%Y" 0%Z
           [] [] "main" false posix.isoformat initial_state out s'
           "filesize" id s' doc s1 1 (cache_ok_initial _ _ _ _ _) Hrun Hdoc Hlen).
Defined.

(** ** The cache and the diff *)

Lemma X25_witness :
  cache_ok0 initial_state
  /\ returned
       (run_loop steady.repo "master" ∅ [steady.c1] initial_state)
       (fun st _ =>
          returned
            (run_loop steady.repo "master" ∅ ([steady.c1] ++ [steady.c2])
                      initial_state)
            (fun st' _ =>
               file_histograms st' !! "b.py"
               = if decide ("b.py" ∈ paths_of (tracked0 steady.c2))
                 then if bool_decide
                           ("b.py" ∈ changed_since steady.repo (last [steady.c1])
                                                   steady.c2)
                         || bool_decide (file_histograms st !! "b.py" = None)
                      then fresh_histogram posix.fnmatch posix.filetypes
                                           posix.strftime steady.repo "%Y" [] []
                                           "master" false steady.c2 "b.py"
                      else file_histograms st !! "b.py"
                 else file_histograms st !! "b.py")).
Proof.
  split; [apply cache_ok_initial|].
  apply returned_intro; [vm_compute; reflexivity|]. intros st s1 E.
  apply returned_intro; [vm_compute; reflexivity|]. intros st' s2 E'.
  exact (X25_cache_update_rule posix.fnmatch posix.filetypes posix.strftime
           steady.repo "%Y" [] [] "master" false ∅ [steady.c1] steady.c2
           initial_state st s1 st' s2 "b.py" (cache_ok_initial _ _ _ _ _) E E').
Defined.

Lemma X24_witness :
  "a.py" ∈ changed_since steady.repo (Some steady.c1) steady.c2.
Proof.
  apply (proj2 (X24_changed_files_are_both_sides_of_the_diff
                  steady.repo (Some steady.c1) steady.c2 "a.py")).
  exists (mkDiff (Some (blob_entry "a.py" 0)) (Some (blob_entry "a.py" 0))),
         (blob_entry "a.py" 0).
  split; [apply list_elem_of_here|]. split; [by left | reflexivity].
Defined.

(** In [steady] the histogram of [b.py] is computed at the first checkpoint
    and served from the cache at the second, where the diff reports [a.py]
    only. *)
Example steady_changed_files :
  "a.py" ∈ changed_since steady.repo (Some steady.c1) steady.c2
  /\ ("b.py" ∉ changed_since steady.repo (Some steady.c1) steady.c2).
Proof. split; [vm_compute; reflexivity | vm_compute; discriminate]. Qed.
